(** * LendWid: the ledger transaction engine of [server.py]

    A shallow embedding of the four transaction bodies of [server.py]
    ([txn_add_new_client], [txn_add_entry], and the [tx] closures of
    [batch_mark_today] and [undo_last_batch]) together with the helpers
    they call, followed by the properties of the ledger that the
    specification states.

    Modelling conventions.
    - Python [int] is [Z]; Python [str] is [string] (a byte string; only
      ASCII classification of characters is modelled).
    - The ledger document is a record whose fields are [option]s: [None]
      is an absent key.  The typed fields hold what the specification's
      data model gives them (integers, strings); JSON values of another
      type at these places are outside the model.
    - [ClientData], [batches] and a batch receipt are [gmap]s keyed by
      strings.  [collectionData] is an association list in insertion
      order, because [find_today_entry] returns the first match in
      iteration order.  An absent [collectionData] and an empty one are
      identified: every read in the source is
      [node.get("collectionData", {})].
    - Arguments that the source passes through [int()] ([amount], the
      counters of a stat) are integers here, as in the data model.
    - The two loops over [client_data.items()] and [record.items()] are
      folds over the map.  Rounds for different clients commute
      ([sweep_client_comm], [undo_client_comm] below), so the order of
      the iteration does not show in the result.
    - A transaction body either returns the new document or raises; the
      store keeps the old document when the body raises. *)

From Stdlib Require Import ZArith String Ascii List Lia.
From Stdlib Require Import DecimalString DecimalZ DecimalPos DecimalN.
From stdpp Require Import gmap strings list fin_maps sorting.

Local Open Scope Z_scope.

(** ** Python string primitives *)

Module Py.

(** [s.startswith(pre)] *)
Definition startswith (pre s : string) : bool := String.prefix pre s.

(** [s.replace(pat, "")] for a non-empty [pat]: every occurrence of
    [pat], scanning from the left, is dropped.  [skip] counts the
    characters of a matched occurrence still to drop. *)
Fixpoint remove_go (pat : string) (skip : nat) (s : string) : string :=
  match s with
  | EmptyString => EmptyString
  | String c r =>
      match skip with
      | S k => remove_go pat k r
      | O => if String.prefix pat s
             then remove_go pat (Nat.pred (String.length pat)) r
             else String c (remove_go pat O r)
      end
  end.

Definition remove_all (pat s : string) : string := remove_go pat O s.

(** [s[1:]] *)
Definition tail (s : string) : string :=
  match s with EmptyString => EmptyString | String _ r => r end.

(** ASCII white space, as [int()] and [str.strip()] see it. *)
Definition is_space (c : ascii) : bool :=
  let n := N_of_ascii c in
  ((9 <=? n) && (n <=? 13) || (28 <=? n) && (n <=? 32))%N.

Definition is_digit (c : ascii) : bool :=
  let n := N_of_ascii c in ((48 <=? n) && (n <=? 57))%N.

Fixpoint lstrip (s : string) : string :=
  match s with
  | EmptyString => EmptyString
  | String c r => if is_space c then lstrip r else s
  end.

Fixpoint rstrip (s : string) : string :=
  match s with
  | EmptyString => EmptyString
  | String c r =>
      match rstrip r with
      | EmptyString => if is_space c then EmptyString else String c EmptyString
      | r' => String c r'
      end
  end.

Definition strip (s : string) : string := rstrip (lstrip s).

(** The digits of an integer literal: at least one digit, a single
    underscore allowed between two digits.  [prev] tells whether the
    previous character was a digit. *)
Fixpoint digits_of (prev : bool) (s : string) : option string :=
  match s with
  | EmptyString => if prev then Some EmptyString else None
  | String c r =>
      if is_digit c then String c <$> digits_of true r
      else if Ascii.eqb c "_" && prev then digits_of false r
      else None
  end.

Definition nat_literal (s : string) : option Z :=
  d ← digits_of false s;
  Z.of_uint <$> NilEmpty.uint_of_string d.

(** [int(s)] for a string [s]; [None] is [ValueError]. *)
Definition int_of_str (s : string) : option Z :=
  match strip s with
  | String "-" r => Z.opp <$> nat_literal r
  | String "+" r => nat_literal r
  | t => nat_literal t
  end.

(** [str(n)], also the [{n}] of an f-string, for an integer [n]. *)
Definition str_of_int (n : Z) : string := NilZero.string_of_int (Z.to_int n).

Definition lower_ascii (c : ascii) : ascii :=
  let n := N_of_ascii c in
  if ((65 <=? n) && (n <=? 90))%N then ascii_of_N (n + 32) else c.

(** [s.lower()] *)
Fixpoint lower (s : string) : string :=
  match s with
  | EmptyString => EmptyString
  | String c r => String (lower_ascii c) (lower r)
  end.

(** [max(xs) if xs else 0] *)
Definition max_or_zero (xs : list Z) : Z :=
  match xs with
  | [] => 0
  | x :: r => foldl Z.max x r
  end.

End Py.

(** ** A Python [dict] in insertion order *)

Module Dict.
Section Ops.
Context {A : Type}.

(** [d.get(k)] *)
Fixpoint get (k : string) (d : list (string * A)) : option A :=
  match d with
  | [] => None
  | (k', v) :: r => if String.eqb k k' then Some v else get k r
  end.

(** [d[k] = v]: an existing key keeps its place, a new key goes last. *)
Fixpoint set (k : string) (v : A) (d : list (string * A)) : list (string * A) :=
  match d with
  | [] => [(k, v)]
  | (k', v') :: r =>
      if String.eqb k k' then (k, v) :: r else (k', v') :: set k v r
  end.

(** [del d[k]] for a key that is present. *)
Fixpoint del (k : string) (d : list (string * A)) : list (string * A) :=
  match d with
  | [] => []
  | (k', v') :: r => if String.eqb k k' then r else (k', v') :: del k r
  end.

(** [list(d.keys())] *)
Definition keys (d : list (string * A)) : list string := fst <$> d.

(** [k in d] *)
Definition mem (k : string) (d : list (string * A)) : bool :=
  match get k d with Some _ => true | None => false end.
End Ops.
End Dict.

(** ** Data model *)

(** One week's entry of [collectionData]. *)
Record Entry := mkEntry {
  Amount : option Z;
  date : option string;
  entryStatus : option string
}.

(** The [<clientId>Stat] mapping of a client. *)
Record ClientStat := mkClientStat {
  ClientName : option string;
  CollectionDay : option string;
  LendDate : option string;
  Status : option string;
  TotalAmountPaid : option Z;
  WeeksPaid : option Z
}.

(** A value of [ClientData].  A node that is present is a non-empty
    mapping, and so is a [Stat] that is present: [not node] and
    [not stat] are the tests for [None]. *)
Record Node := mkNode {
  Stat : option ClientStat;
  collectionData : list (string * Entry)
}.

Record Stats := mkStats {
  TotalLoans : option Z;
  ActiveLoans : option Z;
  ClosedLoans : option Z
}.

(** What a sweep did to one client: [{"action": ..., "week": ...}]. *)
Record ReceiptItem := mkReceiptItem {
  action : string;
  week : Z
}.

(** The document of one user.  [_lastBatch] is [Some None] when the key
    is present with the value [None]. *)
Record Ledger := mkLedger {
  AllStats : option Stats;
  ClientData : option (gmap string Node);
  batches : option (gmap string (gmap string ReceiptItem));
  _lastBatch : option (option string)
}.

(** Exceptions a transaction body raises.  [Diverged] stands for a loop
    that used up its fuel. *)
Inductive exn :=
| RuntimeError (msg : string)
| ValueError
| IndexError
| Diverged.

Inductive result (A : Type) :=
| Ok (a : A)
| Raise (e : exn).
Arguments Ok {A} a.
Arguments Raise {A} e.

Definition result_bind {A B} (f : A → result B) (r : result A) : result B :=
  match r with
  | Ok a => f a
  | Raise e => Raise e
  end.

#[global] Instance result_mbind : MBind result := @result_bind.
#[global] Instance result_mret : MRet result := @Ok.

(** [int(s)] inside a transaction body. *)
Definition int_or_raise (s : string) : result Z :=
  match Py.int_of_str s with
  | Some n => Ok n
  | None => Raise ValueError
  end.

(** The days of [weekday_map], by [datetime.weekday()]. *)
Inductive weekday := MON | TUE | WED | THU | FRI | SAT | SUN.

Definition weekday_map (d : weekday) : string :=
  match d with
  | MON => "MON" | TUE => "TUE" | WED => "WED" | THU => "THU"
  | FRI => "FRI" | SAT => "SAT" | SUN => "SUN"
  end.

(** [datetime.now(IST)]: the date as [strftime("%Y-%m-%d")] prints it,
    and the day of the week. *)
Record clock := mkClock {
  now_date : string;
  now_weekday : weekday
}.

(** ** Helpers *)

Definition zero_stats : Stats :=
  {| TotalLoans := Some 0; ActiveLoans := Some 0; ClosedLoans := Some 0 |}.

Definition ensure_user_structure (curr : option Ledger) : Ledger :=
  match curr with
  | None =>
      {| AllStats := Some zero_stats; ClientData := Some ∅;
         batches := None; _lastBatch := Some None |}
  | Some c =>
      {| AllStats := match AllStats c with None => Some zero_stats | s => s end;
         ClientData := match ClientData c with None => Some ∅ | d => d end;
         batches := batches c;
         _lastBatch := match _lastBatch c with None => Some None | b => b end |}
  end.

Definition find_today_entry (collection_data : list (string * Entry))
    (today_date : string) : option string :=
  fst <$> List.find (λ ke, bool_decide (date ke.2 = Some today_date)) collection_data.

(** [f"P{i}"] and [f"week{n}"] *)
Definition client_key (i : Z) : string := String.append "P" (Py.str_of_int i).
Definition week_key (n : Z) : string := String.append "week" (Py.str_of_int n).

(** The [while] loop of [get_next_client_id], from [i]. *)
Fixpoint next_client_loop (fuel : nat) (client_data : gmap string Node) (i : Z)
    : option Z :=
  match fuel with
  | O => None
  | S fuel' =>
      match client_data !! client_key i with
      | Some _ => next_client_loop fuel' client_data (i + 1)
      | None => Some i
      end
  end.

(** One more round than there are clients is enough (see
    [get_next_client_id_total]). *)
Definition get_next_client_id (client_data : gmap string Node) : option string :=
  client_key <$> next_client_loop (S (size client_data)) client_data 1.

(** The week numbers the two [for k in coll.keys()] loops collect. *)
Definition week_of_key (k : string) : option Z :=
  if Py.startswith "week" k then Py.int_of_str (Py.remove_all "week" k) else None.

Definition week_numbers (coll : list (string * Entry)) : list Z :=
  omap week_of_key (Dict.keys coll).

Definition next_week_of (coll : list (string * Entry)) : Z :=
  Py.max_or_zero (week_numbers coll) + 1.

Definition stat_or_zero (o : option Z) : Z := default 0 o.

(** The closure rule on [all_stats], and its reversal in the undo. *)
Definition close_loan (s : Stats) : Stats :=
  {| TotalLoans := TotalLoans s;
     ActiveLoans := Some (stat_or_zero (ActiveLoans s) - 1);
     ClosedLoans := Some (stat_or_zero (ClosedLoans s) + 1) |}.

Definition reopen_loan (s : Stats) : Stats :=
  {| TotalLoans := TotalLoans s;
     ActiveLoans := Some (stat_or_zero (ActiveLoans s) + 1);
     ClosedLoans := Some (stat_or_zero (ClosedLoans s) - 1) |}.

Definition set_entryStatus (v : string) (e : Entry) : Entry :=
  {| Amount := Amount e; date := date e; entryStatus := Some v |}.

Definition set_paid (weeks_paid total_paid : Z) (st : ClientStat) : ClientStat :=
  {| ClientName := ClientName st; CollectionDay := CollectionDay st;
     LendDate := LendDate st; Status := Status st;
     TotalAmountPaid := Some total_paid; WeeksPaid := Some weeks_paid |}.

Definition set_Status (v : string) (st : ClientStat) : ClientStat :=
  {| ClientName := ClientName st; CollectionDay := CollectionDay st;
     LendDate := LendDate st; Status := Some v;
     TotalAmountPaid := TotalAmountPaid st; WeeksPaid := WeeksPaid st |}.

(** [{}] where an entry is expected. *)
Definition empty_entry : Entry :=
  {| Amount := None; date := None; entryStatus := None |}.

(** ** The transaction bodies *)

(** The record [txn_add_new_client] stores for a new client. *)
Definition new_client (new_pid lend_date collection_day : string) : Node :=
  {| Stat := Some {| ClientName := Some new_pid;
                     CollectionDay := Some collection_day;
                     LendDate := Some lend_date;
                     Status := Some "Active";
                     TotalAmountPaid := Some 0;
                     WeeksPaid := Some 0 |};
     collectionData := [] |}.

(** [tx] of [txn_add_new_client] *)
Definition txn_add_new_client (lend_date collection_day : string)
    (curr : option Ledger) : result Ledger :=
  match curr with
  | None => Raise (RuntimeError "User node does not exist. Refusing to create root automatically.")
  | Some curr =>
      match AllStats curr, ClientData curr with
      | Some all_stats, Some client_data =>
          match get_next_client_id client_data with
          | None => Raise Diverged
          | Some new_pid =>
              let client_data :=
                <[new_pid := new_client new_pid lend_date collection_day]> client_data in
              let all_stats :=
                {| TotalLoans := Some (stat_or_zero (TotalLoans all_stats) + 1);
                   ActiveLoans := Some (stat_or_zero (ActiveLoans all_stats) + 1);
                   ClosedLoans := Some (stat_or_zero (ClosedLoans all_stats)) |} in
              Ok {| AllStats := Some all_stats; ClientData := Some client_data;
                    batches := batches curr; _lastBatch := _lastBatch curr |}
          end
      | _, _ => Raise (RuntimeError "Corrupt user structure")
      end
  end.

(** [tx] of [txn_add_entry] *)
Definition txn_add_entry (client_id : string) (amount : Z) (date_str status : string)
    (curr : option Ledger) : result Ledger :=
  match curr with
  | None => Raise (RuntimeError "User not found")
  | Some curr =>
      match AllStats curr, ClientData curr with
      | Some all_stats, Some client_data =>
          match client_data !! client_id with
          | None => Raise (RuntimeError "Client not found")
          | Some node =>
              match Stat node with
              | None => Raise (RuntimeError "Client stat missing")
              | Some stat =>
                  if bool_decide (Status stat = Some "Closed")
                  then Raise (RuntimeError "Client already closed")
                  else
                    let coll := collectionData node in
                    let next_week := next_week_of coll in
                    if 20 <? next_week
                    then Raise (RuntimeError "Max 20 weeks reached")
                    else
                      let coll :=
                        Dict.set (week_key next_week)
                          {| Amount := Some amount; date := Some date_str;
                             entryStatus := Some status |} coll in
                      let weeks_paid := stat_or_zero (WeeksPaid stat) in
                      let total_paid := stat_or_zero (TotalAmountPaid stat) in
                      let paid := bool_decide (status = "paid") in
                      let weeks_paid := if paid then weeks_paid + 1 else weeks_paid in
                      let total_paid := if paid then total_paid + amount else total_paid in
                      let stat := set_paid weeks_paid total_paid stat in
                      let closes := 20 <=? weeks_paid in
                      let stat := if closes then set_Status "Closed" stat else stat in
                      let all_stats := if closes then close_loan all_stats else all_stats in
                      let node := {| Stat := Some stat; collectionData := coll |} in
                      Ok {| AllStats := Some all_stats;
                            ClientData := Some (<[client_id := node]> client_data);
                            batches := batches curr; _lastBatch := _lastBatch curr |}
              end
          end
      | _, _ => Raise (RuntimeError "Corrupt user structure")
      end
  end.

(** The state the loop of [batch_mark_today] works on:
    [all_stats], [client_data] and [batch_record]. *)
Definition sweep_state : Type :=
  Stats * gmap string Node * gmap string ReceiptItem.

(** [if today_key:] an empty key counts as no key. *)
Definition truthy_key (k : option string) : option string :=
  match k with
  | Some EmptyString => None
  | k => k
  end.

(** The credit of one week and the closure rule, shared by the two
    branches of the sweep. *)
Definition credit_week (stat : ClientStat) (all_stats : Stats) : ClientStat * Stats :=
  let weeks_paid := stat_or_zero (WeeksPaid stat) + 1 in
  let stat := set_paid weeks_paid (stat_or_zero (TotalAmountPaid stat) + 600) stat in
  if 20 <=? weeks_paid
  then (set_Status "Closed" stat, close_loan all_stats)
  else (stat, all_stats).

(** One round of [for client_id, node in client_data.items()]. *)
Definition sweep_client (today_date today_weekday : string)
    (client_id : string) (node : Node) (st : sweep_state) : result sweep_state :=
  let '(all_stats, client_data, batch_record) := st in
  match Stat node with
  | None => Ok st
  | Some stat =>
      if negb (bool_decide (Py.lower (default "" (Status stat)) = "active")) then Ok st
      else if negb (bool_decide (CollectionDay stat = Some today_weekday)) then Ok st
      else
        let coll := collectionData node in
        match truthy_key (find_today_entry coll today_date) with
        | Some today_key =>
            let entry := default empty_entry (Dict.get today_key coll) in
            if bool_decide (Py.lower (default "" (entryStatus entry)) = "paid") then Ok st
            else
              let coll := Dict.set today_key (set_entryStatus "paid" entry) coll in
              let '(stat, all_stats) := credit_week stat all_stats in
              let node := {| Stat := Some stat; collectionData := coll |} in
              week_no ← int_or_raise (Py.remove_all "week" today_key);
              Ok (all_stats, <[client_id := node]> client_data,
                  <[client_id := {| action := "updated"; week := week_no |}]> batch_record)
        | None =>
            let next_week := next_week_of coll in
            if 20 <? next_week then Ok st
            else
              let coll :=
                Dict.set (week_key next_week)
                  {| Amount := Some 600; date := Some today_date;
                     entryStatus := Some "paid" |} coll in
              let '(stat, all_stats) := credit_week stat all_stats in
              let node := {| Stat := Some stat; collectionData := coll |} in
              Ok (all_stats, <[client_id := node]> client_data,
                  <[client_id := {| action := "created"; week := next_week |}]> batch_record)
        end
  end.

(** [for client_id, node in client_data.items()] over the clients [m],
    from the loop state [r]; a round that raises ends the loop. *)
Definition sweep_loop (today_date today_weekday : string)
    (m : gmap string Node) (r : result sweep_state) : result sweep_state :=
  map_fold (λ client_id node acc,
              acc ≫= sweep_client today_date today_weekday client_id node) r m.

(** [tx] of [batch_mark_today], at the moment [now]. *)
Definition batch_mark_today (now : clock) (curr : option Ledger) : result Ledger :=
  let curr := ensure_user_structure curr in
  let client_data := default ∅ (ClientData curr) in
  let all_stats := default (mkStats None None None) (AllStats curr) in
  let batches0 := default ∅ (batches curr) in
  let today_date := now_date now in
  let today_weekday := weekday_map (now_weekday now) in
  match batches0 !! today_date with
  | Some _ => Ok curr
  | None =>
      '(all_stats, client_data, batch_record) ←
        sweep_loop today_date today_weekday client_data
                   (Ok (all_stats, client_data, ∅));
      Ok {| AllStats := Some all_stats; ClientData := Some client_data;
            batches := Some (<[today_date := batch_record]> batches0);
            _lastBatch := _lastBatch curr |}
  end.

(** [sorted(batches.keys())[-1]] *)
Definition last_date {A} (bs : gmap string A) : option string :=
  last (merge_sort String.le (fst <$> map_to_list bs)).

(** The rollback of one credited week, shared by the two branches of the
    undo. *)
Definition rollback_week (amount : Z) (stat : ClientStat) (all_stats : Stats)
    : ClientStat * Stats :=
  let stat :=
    set_paid (Z.max 0 (stat_or_zero (WeeksPaid stat) - 1))
             (Z.max 0 (stat_or_zero (TotalAmountPaid stat) - amount)) stat in
  if bool_decide (Status stat = Some "Closed")
  then (set_Status "Active" stat, reopen_loan all_stats)
  else (stat, all_stats).

(** One round of [for client_id, info in record.items()]. *)
Definition undo_client (client_id : string) (info : ReceiptItem)
    (st : Stats * gmap string Node) : Stats * gmap string Node :=
  let '(all_stats, client_data) := st in
  match client_data !! client_id with
  | None => st
  | Some node =>
      let coll := collectionData node in
      let week_key := week_key (week info) in
      match Dict.get week_key coll, Stat node with
      | Some entry, Some stat =>
          let amount := default 600 (Amount entry) in
          if bool_decide (action info = "created") then
            let coll := Dict.del week_key coll in
            let '(stat, all_stats) := rollback_week amount stat all_stats in
            (all_stats, <[client_id := {| Stat := Some stat; collectionData := coll |}]> client_data)
          else if bool_decide (action info = "updated") then
            let coll := Dict.set week_key (set_entryStatus "pending" entry) coll in
            let '(stat, all_stats) := rollback_week amount stat all_stats in
            (all_stats, <[client_id := {| Stat := Some stat; collectionData := coll |}]> client_data)
          else
            (all_stats, <[client_id := {| Stat := Some stat; collectionData := coll |}]> client_data)
      | _, _ => st
      end
  end.

(** [tx] of [undo_last_batch] *)
Definition undo_last_batch (curr : option Ledger) : result Ledger :=
  let curr := ensure_user_structure curr in
  let client_data := default ∅ (ClientData curr) in
  let all_stats := default (mkStats None None None) (AllStats curr) in
  let batches0 := default ∅ (batches curr) in
  if bool_decide (batches0 = ∅) then Ok curr
  else
    match last_date batches0 with
    | None => Raise IndexError
    | Some last_date =>
        let record := default ∅ (batches0 !! last_date) in
        let '(all_stats, client_data) :=
          map_fold undo_client (all_stats, client_data) record in
        Ok {| AllStats := Some all_stats; ClientData := Some client_data;
              batches := Some (delete last_date batches0);
              _lastBatch := _lastBatch curr |}
    end.

(** The loop of the [/nextClientId] route over [client_data.keys()]. *)
Definition max_client_number (client_data : gmap string Node) : Z :=
  map_fold (λ key _ max_n,
              if Py.startswith "P" key then
                match Py.int_of_str (Py.tail key) with
                | Some n => if max_n <? n then n else max_n
                | None => max_n
                end
              else max_n)
           0 client_data.

(** The id the [/nextClientId] route answers for the document it read. *)
Definition get_next_client_id_route (data : option Ledger) : string :=
  match data with
  | None => "P1"
  | Some data =>
      match ClientData data with
      | None => "P1"
      | Some client_data =>
          if bool_decide (client_data = ∅) then "P1"
          else client_key (max_client_number client_data + 1)
      end
  end.

(** [user_ref.transaction(tx)]: the store commits what [tx] returns and
    keeps the document it held when [tx] raises. *)
Definition transaction (tx : option Ledger → result Ledger)
    (stored : option Ledger) : option Ledger :=
  match tx stored with
  | Ok new => Some new
  | Raise _ => stored
  end.

(** The four operations on the stored document. *)
Definition addClient (lend_date collection_day : string) :=
  transaction (txn_add_new_client lend_date collection_day).
Definition postEntry (client_id : string) (amount : Z) (date_str status : string) :=
  transaction (txn_add_entry client_id amount date_str status).
Definition sweepToday (now : clock) := transaction (batch_mark_today now).
Definition undoLastBatch := transaction undo_last_batch.

(** ** Auxiliary definitions for the proofs *)

(** Every character of [s] satisfies [p]. *)
Fixpoint all_chars (p : ascii → bool) (s : string) : bool :=
  match s with
  | EmptyString => true
  | String c r => p c && all_chars p r
  end.

(** The character is not a [w]. *)
Definition not_w (c : ascii) : bool := negb (Ascii.eqb c "w").

(** Case analysis on the integer comparison in the goal. *)
Ltac case_leb :=
  match goal with
  | |- context [?a <=? ?b] => destruct (Z.leb_spec a b)
  | |- context [?a <? ?b] => destruct (Z.ltb_spec a b)
  end.

(** ** What one round of each loop does to its client

    The two loops touch, in each round, the record of the round's client,
    its receipt item and the loan counters.  [sweep_outcome] and
    [undo_outcome] give that effect as a function of the client's record
    alone; [sweep_client_outcome] and [undo_client_outcome] below show
    that the rounds of the source are these effects. *)

Inductive outcome :=
| Skipped                       (* [continue] *)
| Failed                        (* [int()] raised *)
| Touched (node : Node) (item : ReceiptItem) (closes : bool).

Definition credit_stat (stat : ClientStat) : ClientStat * bool :=
  let weeks_paid := stat_or_zero (WeeksPaid stat) + 1 in
  let stat := set_paid weeks_paid (stat_or_zero (TotalAmountPaid stat) + 600) stat in
  if 20 <=? weeks_paid then (set_Status "Closed" stat, true) else (stat, false).

Definition sweep_outcome (today_date today_weekday : string) (node : Node) : outcome :=
  match Stat node with
  | None => Skipped
  | Some stat =>
      if negb (bool_decide (Py.lower (default "" (Status stat)) = "active")) then Skipped
      else if negb (bool_decide (CollectionDay stat = Some today_weekday)) then Skipped
      else
        let coll := collectionData node in
        match truthy_key (find_today_entry coll today_date) with
        | Some today_key =>
            let entry := default empty_entry (Dict.get today_key coll) in
            if bool_decide (Py.lower (default "" (entryStatus entry)) = "paid") then Skipped
            else
              match Py.int_of_str (Py.remove_all "week" today_key) with
              | None => Failed
              | Some week_no =>
                  Touched {| Stat := Some (credit_stat stat).1;
                             collectionData :=
                               Dict.set today_key (set_entryStatus "paid" entry) coll |}
                          {| action := "updated"; week := week_no |}
                          (credit_stat stat).2
              end
        | None =>
            let next_week := next_week_of coll in
            if 20 <? next_week then Skipped
            else
              Touched {| Stat := Some (credit_stat stat).1;
                         collectionData :=
                           Dict.set (week_key next_week)
                             {| Amount := Some 600; date := Some today_date;
                                entryStatus := Some "paid" |} coll |}
                      {| action := "created"; week := next_week |}
                      (credit_stat stat).2
        end
  end.

(** The state after a round with the given outcome. *)
Definition apply_outcome (client_id : string) (o : outcome) (st : sweep_state)
    : result sweep_state :=
  match o with
  | Skipped => Ok st
  | Failed => Raise ValueError
  | Touched node item closes =>
      Ok ((if closes then close_loan st.1.1 else st.1.1),
          <[client_id := node]> st.1.2, <[client_id := item]> st.2)
  end.

Definition rollback_stat (amount : Z) (stat : ClientStat) : ClientStat * bool :=
  let stat :=
    set_paid (Z.max 0 (stat_or_zero (WeeksPaid stat) - 1))
             (Z.max 0 (stat_or_zero (TotalAmountPaid stat) - amount)) stat in
  if bool_decide (Status stat = Some "Closed")
  then (set_Status "Active" stat, true)
  else (stat, false).

(** [None]: the round skips the client; otherwise the record it saves
    back and whether the loan was reopened. *)
Definition undo_outcome (info : ReceiptItem) (node : Node) : option (Node * bool) :=
  let coll := collectionData node in
  let week_key := week_key (week info) in
  match Dict.get week_key coll, Stat node with
  | Some entry, Some stat =>
      let amount := default 600 (Amount entry) in
      if bool_decide (action info = "created") then
        Some ({| Stat := Some (rollback_stat amount stat).1;
                 collectionData := Dict.del week_key coll |},
              (rollback_stat amount stat).2)
      else if bool_decide (action info = "updated") then
        Some ({| Stat := Some (rollback_stat amount stat).1;
                 collectionData :=
                   Dict.set week_key (set_entryStatus "pending" entry) coll |},
              (rollback_stat amount stat).2)
      else Some (node, false)
  | _, _ => None
  end.

(** ** The conditions under which [txn_add_entry] raises *)



(** What [txn_add_entry] does to the record of its client: the record it
    saves back and whether the closure rule applied. *)
Definition post_outcome (amount : Z) (date_str status : string)
    (node : Node) (stat : ClientStat) : Node * bool :=
  let coll := collectionData node in
  let paid := bool_decide (status = "paid") in
  let weeks_paid :=
    if paid then stat_or_zero (WeeksPaid stat) + 1 else stat_or_zero (WeeksPaid stat) in
  let total_paid :=
    if paid then stat_or_zero (TotalAmountPaid stat) + amount
    else stat_or_zero (TotalAmountPaid stat) in
  let stat := set_paid weeks_paid total_paid stat in
  let closes := 20 <=? weeks_paid in
  ({| Stat := Some (if closes then set_Status "Closed" stat else stat);
      collectionData :=
        Dict.set (week_key (next_week_of coll))
          {| Amount := Some amount; date := Some date_str;
             entryStatus := Some status |} coll |},
   closes).

(** ** Reachable ledgers *)

Inductive op :=
| AddClient (lend_date collection_day : string)
| PostEntry (client_id : string) (amount : Z) (date_str status : string)
| SweepToday (now : clock)
| UndoLastBatch.

(** The transaction body of an operation. *)
Definition run (o : op) : option Ledger → result Ledger :=
  match o with
  | AddClient lend_date collection_day => txn_add_new_client lend_date collection_day
  | PostEntry client_id amount date_str status =>
      txn_add_entry client_id amount date_str status
  | SweepToday now => batch_mark_today now
  | UndoLastBatch => undo_last_batch
  end.

(** The ledgers that a sequence of successful operations among [allowed]
    reaches from the empty repaired ledger. *)
Inductive reachable_by (allowed : op → Prop) : Ledger → Prop :=
| reach_init :
    reachable_by allowed (ensure_user_structure None)
| reach_step o d d' :
    allowed o → reachable_by allowed d → run o (Some d) = Ok d' →
    reachable_by allowed d'.

Definition reachable : Ledger → Prop := reachable_by (λ _, True).

(** [TotalLoans == ActiveLoans + ClosedLoans], the three counters being
    there. *)
Definition stats_balanced (s : Stats) : Prop :=
  ∃ t a c, s = mkStats (Some t) (Some a) (Some c) ∧ t = a + c.

Definition balanced (d : Ledger) : Prop :=
  ∃ s, AllStats d = Some s ∧ stats_balanced s.

(** Every client of the ledger satisfies [Q]. *)
Definition all_clients (Q : Node → Prop) (d : Ledger) : Prop :=
  ∃ client_data, ClientData d = Some client_data ∧ map_Forall (λ _, Q) client_data.

(** [week1 .. week<n>] *)
Definition week_keys (n : nat) : list string :=
  (λ i, week_key (Z.of_nat i)) <$> seq 1 n.


(** The keys of [collectionData] are exactly [week1 .. weekN], [N] the
    number of entries. *)
Definition dense_weeks (node : Node) : Prop :=
  Dict.keys (collectionData node) ≡ₚ week_keys (length (collectionData node)).

(** The keys of [collectionData] are distinct keys [week<n>] with
    [1 <= n <= 20]. *)
Definition week_keyed (node : Node) : Prop :=
  NoDup (Dict.keys (collectionData node)) ∧
  ∀ k, k ∈ Dict.keys (collectionData node) → ∃ n, 1 ≤ n ≤ 20 ∧ k = week_key n.

(** What every client of a reachable ledger satisfies. *)
Definition client_inv (node : Node) : Prop :=
  (∃ stat w, Stat node = Some stat ∧ WeeksPaid stat = Some w ∧ 0 ≤ w ≤ 20 ∧
             (Status stat = Some "Closed" ∨ (Status stat = Some "Active" ∧ w < 20))) ∧
  week_keyed node.


(** ** The capacity case of the sweep *)

(** The sweep finds no entry dated today and the next week would be past
    week 20: the case of [if next_week > 20: continue]. *)
Definition over_capacity (today_date : string) (node : Node) : Prop :=
  truthy_key (find_today_entry (collectionData node) today_date) = None ∧
  20 < next_week_of (collectionData node).


(** ** Well-formed ledgers (the data model of the specification) *)

Definition well_formed_entry (e : Entry) : Prop :=
  is_Some (Amount e) ∧ is_Some (date e) ∧
  (entryStatus e = Some "paid" ∨ entryStatus e = Some "pending").

Definition well_formed_client (node : Node) : Prop :=
  (∃ stat day w t,
     Stat node = Some stat ∧
     (Status stat = Some "Active" ∨ Status stat = Some "Closed") ∧
     CollectionDay stat = Some (weekday_map day) ∧
     WeeksPaid stat = Some w ∧ 0 ≤ w ≤ 20 ∧
     TotalAmountPaid stat = Some t ∧ 0 ≤ t) ∧
  dense_weeks node ∧
  (∀ k e, (k, e) ∈ collectionData node → well_formed_entry e).

Definition well_formed (d : Ledger) : Prop :=
  (∃ t a c,
     AllStats d = Some (mkStats (Some t) (Some a) (Some c)) ∧
     0 ≤ a ∧ 0 ≤ c ∧ t = a + c) ∧
  all_clients well_formed_client d.

(** Every receipt of the ledger is dated before [today_date]; dates
    compare as Python compares strings. *)
Definition dates_before (today_date : string) (d : Ledger) : Prop :=
  ∀ bs k, batches d = Some bs → is_Some (bs !! k) → String.ltb k today_date = true.

(** The pending entries dated [today_date] are of the amount the sweep
    credits. *)
Definition standard_installment (today_date : string) (d : Ledger) : Prop :=
  ∀ client_data client_id node k e,
    ClientData d = Some client_data → client_data !! client_id = Some node →
    (k, e) ∈ collectionData node →
    date e = Some today_date → entryStatus e = Some "pending" →
    Amount e = Some 600.

(** What the round trip of one client relies on. *)
Definition round_trip_client (today_date : string) (node : Node) : Prop :=
  NoDup (Dict.keys (collectionData node)) ∧
  (∀ k, k ∈ Dict.keys (collectionData node) → ∃ n, k = week_key n) ∧
  (∀ k e, (k, e) ∈ collectionData node → date e = Some today_date →
          entryStatus e = Some "paid" ∨
          (entryStatus e = Some "pending" ∧ Amount e = Some 600)) ∧
  (∀ stat, Stat node = Some stat →
           Py.lower (default "" (Status stat)) = "active" →
           Status stat = Some "Active" ∧
           ∃ w t, WeeksPaid stat = Some w ∧ 0 ≤ w ∧
                  TotalAmountPaid stat = Some t ∧ 0 ≤ t).

(** The round trip as the specification states it: the sweep and the
    undo return, and [AllStats], the record of every client of the
    sweep's receipt and the absence of a receipt for today are as before
    the sweep. *)
Definition round_trip_restores (now : clock) (d : Ledger) : Prop :=
  ∃ d1 d2 rec,
    batch_mark_today now (Some d) = Ok d1 ∧
    undo_last_batch (Some d1) = Ok d2 ∧
    batches d1 ≫= (.!! now_date now) = Some rec ∧
    AllStats d2 = AllStats d ∧
    (∀ client_id, is_Some (rec !! client_id) →
       ClientData d2 ≫= (.!! client_id) = ClientData d ≫= (.!! client_id)) ∧
    batches d2 ≫= (.!! now_date now) = None.

(** ** Sequences of operations and the ledgers of the examples *)

(** The operations [ops], one after the other, from the ledger [d]. *)
Definition run_all (ops : list op) (d : Ledger) : result Ledger :=
  foldl (λ r o, r ≫= λ d, run o (Some d)) (Ok d) ops.

Module Examples.

(** Monday the 2nd of November 2026, and the Monday after. *)
Definition monday : clock := {| now_date := "2026-11-02"; now_weekday := MON |}.

(** The empty repaired ledger. *)
Definition empty_ledger : Ledger := ensure_user_structure None.

Definition client (weeks_paid total_paid : Z) (coll : list (string * Entry)) : Node :=
  {| Stat := Some {| ClientName := Some "P1"; CollectionDay := Some "MON";
                     LendDate := Some "2026-10-26"; Status := Some "Active";
                     TotalAmountPaid := Some total_paid;
                     WeeksPaid := Some weeks_paid |};
     collectionData := coll |}.

Definition one_client (node : Node)
    (bs : option (gmap string (gmap string ReceiptItem))) : Ledger :=
  {| AllStats := Some (mkStats (Some 1) (Some 1) (Some 0));
     ClientData := Some {[ "P1" := node ]};
     batches := bs; _lastBatch := Some None |}.

(** One client, registered for Mondays, nothing collected yet. *)
Definition registered : Ledger := one_client (client 0 0 []) None.

Definition paid_entry (date_str : string) : Entry :=
  {| Amount := Some 600; date := Some date_str; entryStatus := Some "paid" |}.

(** [registered] after the sweep of [monday]. *)
Definition swept : Ledger :=
  one_client (client 1 600 [("week1", paid_entry "2026-11-02")])
             (Some {[ "2026-11-02" := {[ "P1" := mkReceiptItem "created" 1 ]} ]}).


(** The client has a pending entry of 500 for [monday]. *)
Definition pending_500 : Ledger :=
  one_client
    (client 0 0 [("week1", {| Amount := Some 500; date := Some "2026-11-02";
                             entryStatus := Some "pending" |})])
    None.

(** [pending_500] after the sweep of [monday]: 600 credited. *)
Definition pending_500_swept : Ledger :=
  one_client
    (client 1 600 [("week1", {| Amount := Some 500; date := Some "2026-11-02";
                               entryStatus := Some "paid" |})])
    (Some {[ "2026-11-02" := {[ "P1" := mkReceiptItem "updated" 1 ]} ]}).

(** ... and after the undo of that sweep: 500 taken back. *)
Definition pending_500_undone : Ledger :=
  one_client
    (client 0 100 [("week1", {| Amount := Some 500; date := Some "2026-11-02";
                               entryStatus := Some "pending" |})])
    (Some ∅).

(** [registered] with an empty receipt dated a week after [monday]. *)
Definition later_receipt : Ledger :=
  one_client (client 0 0 []) (Some {[ "2026-11-09" := ∅ ]}).

(** [later_receipt] after the sweep of [monday]. *)
Definition later_receipt_swept : Ledger :=
  one_client (client 1 600 [("week1", paid_entry "2026-11-02")])
             (Some {[ "2026-11-02" := {[ "P1" := mkReceiptItem "created" 1 ]};
                      "2026-11-09" := ∅ ]}).

(** A sweep on the Monday after [monday], before any client is there,
    then the registration. *)
Definition later_receipt_ops : list op :=
  [SweepToday {| now_date := "2026-11-09"; now_weekday := MON |};
   AddClient "2026-10-26" "MON"].



(** [registered] after a payment posted for the 3rd. *)
Definition posted : Ledger :=
  one_client (client 1 600 [("week1", paid_entry "2026-11-03")]) None.

(** The client has a pending entry of 600 for [monday], and there is
    an empty receipt of the Monday before. *)
Definition pending_600 : Ledger :=
  one_client
    (client 0 0 [("week1", {| Amount := Some 600; date := Some "2026-11-02";
                             entryStatus := Some "pending" |})])
    (Some {[ "2026-10-26" := ∅ ]}).

(** [pending_600] after the sweep of [monday]. *)
Definition pending_600_swept : Ledger :=
  one_client
    (client 1 600 [("week1", paid_entry "2026-11-02")])
    (Some {[ "2026-10-26" := ∅;
             "2026-11-02" := {[ "P1" := mkReceiptItem "updated" 1 ]} ]}).

(** Twenty pending entries of January, [week1 .. week20]. *)
Definition twenty_pending : list (string * Entry) :=
  (λ i, (week_key (Z.of_nat i),
         {| Amount := Some 600; date := Some "2026-01-05";
            entryStatus := Some "pending" |})) <$> seq 1 20.

(** A client whose twenty weeks are all entered. *)
Definition full : Ledger := one_client (client 0 0 twenty_pending) None.

End Examples.

(** ** The read-only routes

    The routes read the document of a user under [Users/<user>]; the
    documents are a map from the user to the ledger.  The login table
    [Users/LoginDetails] is a map of its own.  As in the transaction
    bodies, a stat that is present is a mapping that is not empty, so
    that [if not stat] is the test for an absent stat. *)

(** What a route answers: [jsonify(body), code], or
    [jsonify({"error": error}), code]. *)
Inductive response (A : Type) :=
| Reply (code : Z) (body : A)
| Failure (code : Z) (error : string).
Arguments Reply {A} code body.
Arguments Failure {A} code error.

Definition WEEKLY_AMOUNT : Z := 600.
Definition TOTAL_WEEKS : Z := 20.
Definition TOTAL_PER_CLIENT : Z := WEEKLY_AMOUNT * TOTAL_WEEKS.

(** [{}] where a stat is expected. *)
Definition empty_stat : ClientStat :=
  {| ClientName := None; CollectionDay := None; LendDate := None;
     Status := None; TotalAmountPaid := None; WeeksPaid := None |}.

(** [str(stat.get("Status", "")).lower()] *)
Definition status_lower (stat : ClientStat) : string :=
  Py.lower (default "" (Status stat)).

(** The body of [/dashboard]. *)
Module Dashboard.
Record t := mk {
  TotalLoans : Z;
  ActiveLoans : Z;
  ClosedLoans : Z;
  WeeklyCollection : Z;
  UpComingCollection : Z
}.
End Dashboard.

(** One round of the loop of [get_dashboard], on [total_loans],
    [active_loans], [closed_loans] and [upcoming_collection]. *)
Definition dashboard_client (client_id : string) (node : Node)
    (acc : Z * Z * Z * Z) : Z * Z * Z * Z :=
  let '(total_loans, active_loans, closed_loans, upcoming_collection) := acc in
  match Stat node with
  | None => acc
  | Some stat =>
      let total_loans := total_loans + 1 in
      let status := status_lower stat in
      let active_loans :=
        if bool_decide (status = "active") then active_loans + 1 else active_loans in
      let closed_loans :=
        if bool_decide (status = "active") then closed_loans
        else if bool_decide (status = "closed") then closed_loans + 1
        else closed_loans in
      let total_paid := stat_or_zero (TotalAmountPaid stat) in
      let remaining := TOTAL_PER_CLIENT - total_paid in
      let remaining := if remaining <? 0 then 0 else remaining in
      (total_loans, active_loans, closed_loans, upcoming_collection + remaining)
  end.

Definition dashboard_loop (client_data : gmap string Node) : Z * Z * Z * Z :=
  map_fold dashboard_client (0, 0, 0, 0) client_data.

(** [get_dashboard], for the [user] of the query and the documents
    [users]. *)
Definition get_dashboard (user : option string) (users : gmap string Ledger)
    : response Dashboard.t :=
  match truthy_key user with
  | None => Failure 400 "Missing user parameter"
  | Some user =>
      match users !! user with
      | None => Failure 404 "User not found"
      | Some data =>
          match ClientData data with
          | None => Failure 500 "ClientData not found for user"
          | Some client_data =>
              let '(total_loans, active_loans, closed_loans, upcoming_collection) :=
                dashboard_loop client_data in
              Reply 200
                {| Dashboard.TotalLoans := total_loans;
                   Dashboard.ActiveLoans := active_loans;
                   Dashboard.ClosedLoans := closed_loans;
                   Dashboard.WeeklyCollection := active_loans * WEEKLY_AMOUNT;
                   Dashboard.UpComingCollection := upcoming_collection |}
          end
      end
  end.

(** One day of the body of [/weekly]. *)
Record DayTotal := mkDayTotal {
  count : Z;
  amount : Z
}.

(** The counters [get_weekly] starts from. *)
Definition weekly_init : gmap string DayTotal :=
  list_to_map
    ((λ day, (day, {| count := 0; amount := 0 |}))
       <$> ["MON"; "TUE"; "WED"; "THU"; "FRI"; "SAT"; "SUN"]).

(** One round of the loop of [get_weekly]. *)
Definition weekly_client (client_id : string) (node : Node)
    (result : gmap string DayTotal) : gmap string DayTotal :=
  match Stat node with
  | None => result
  | Some stat =>
      if negb (bool_decide (status_lower stat = "active")) then result
      else
        match CollectionDay stat with
        | None => result
        | Some day =>
            match result !! day with
            | None => result
            | Some total =>
                <[day := {| count := count total + 1;
                            amount := amount total + WEEKLY_AMOUNT |}]> result
            end
        end
  end.

Definition weekly_loop (client_data : gmap string Node) : gmap string DayTotal :=
  map_fold weekly_client weekly_init client_data.

(** [get_weekly] *)
Definition get_weekly (user : option string) (users : gmap string Ledger)
    : response (gmap string DayTotal) :=
  match truthy_key user with
  | None => Failure 400 "Missing user parameter"
  | Some user =>
      match users !! user with
      | None => Failure 404 "User not found"
      | Some data =>
          match ClientData data with
          | None => Failure 500 "ClientData not found for user"
          | Some client_data => Reply 200 (weekly_loop client_data)
          end
      end
  end.

(** The body of [/today]. *)
Module Today.
Record customer := mkCustomer {
  clientId : string;
  amount : Z;
  status : string
}.
Record summary := mkSummary {
  due : Z;
  collected : Z;
  pending : Z
}.
Record t := mk {
  date : string;
  weekday : string;
  summary_of : summary;
  customers : list customer
}.
End Today.

(** The inner loop of [get_today]: some entry is dated today and paid. *)
Definition paid_today (collection_data : list (string * Entry))
    (today_date : string) : bool :=
  existsb (λ ke, bool_decide (date ke.2 = Some today_date)
                 && bool_decide (Py.lower (default "" (entryStatus ke.2)) = "paid"))
          collection_data.

(** One round of the loop of [get_today], on [due], [collected],
    [pending] and [customers]. *)
Definition today_client (today_date today_weekday : string)
    (client_id : string) (node : Node)
    (acc : Z * Z * Z * list Today.customer) : Z * Z * Z * list Today.customer :=
  let '(due, collected, pending, customers) := acc in
  let stat := default empty_stat (Stat node) in
  if negb (bool_decide (status_lower stat = "active")) then acc
  else if negb (bool_decide (CollectionDay stat = Some today_weekday)) then acc
  else
    let amount := 600 in
    let due := due + amount in
    if paid_today (collectionData node) today_date
    then (due, collected + amount, pending,
          customers ++ [Today.mkCustomer client_id amount "paid"])
    else (due, collected, pending + amount,
          customers ++ [Today.mkCustomer client_id amount "pending"]).

(** [for client_id, node in client_data.items()].  The list comes in
    the order of the iteration; what is proved of it below (who is on
    it, how many, with which status) does not depend on the order. *)
Definition today_loop (today_date today_weekday : string)
    (client_data : gmap string Node) : Z * Z * Z * list Today.customer :=
  map_fold (today_client today_date today_weekday) (0, 0, 0, []) client_data.

(** [get_today], at the moment [now]. *)
Definition get_today (now : clock) (user : option string)
    (users : gmap string Ledger) : response Today.t :=
  match truthy_key user with
  | None => Failure 400 "Missing user parameter"
  | Some user =>
      let client_data := default ∅ (users !! user ≫= ClientData) in
      let today_date := now_date now in
      let today_weekday := weekday_map (now_weekday now) in
      let '(due, collected, pending, customers) :=
        today_loop today_date today_weekday client_data in
      Reply 200
        {| Today.date := today_date;
           Today.weekday := today_weekday;
           Today.summary_of :=
             {| Today.due := due; Today.collected := collected;
                Today.pending := pending |};
           Today.customers := customers |}
  end.

(** [s.replace(a, b)] for one-character [a] and [b]. *)
Fixpoint replace_char (a b : ascii) (s : string) : string :=
  match s with
  | EmptyString => EmptyString
  | String c r => String (if Ascii.eqb c a then b else c) (replace_char a b r)
  end.

(** A value of [Users/LoginDetails]. *)
Record LoginDetail := mkLoginDetail {
  userName : option string
}.

(** [resolve_user], for the [email] of the query and the login table. *)
Definition resolve_user (email : option string)
    (login_details : gmap string LoginDetail) : response string :=
  match truthy_key email with
  | None => Failure 400 "missing email"
  | Some email =>
      let safe_email := replace_char "." "_" email in
      match login_details !! safe_email with
      | None => Failure 404 "user not found"
      | Some data =>
          match truthy_key (userName data) with
          | None => Failure 500 "userId missing"
          | Some user_id => Reply 200 user_id
          end
      end
  end.

(** ** Predicates for the properties of the sweep and the undo *)

(** The record of the client after a round of the sweep with the given
    outcome, and the receipt item of the round. *)
Definition outcome_node (node : Node) (o : outcome) : Node :=
  match o with
  | Touched node' _ _ => node'
  | _ => node
  end.

Definition outcome_item (o : outcome) : option ReceiptItem :=
  match o with
  | Touched _ item _ => Some item
  | _ => None
  end.

(** The client is active and due on the day [today_weekday]. *)
Definition eligible (today_weekday : string) (node : Node) : Prop :=
  ∃ stat, Stat node = Some stat ∧ status_lower stat = "active" ∧
          CollectionDay stat = Some today_weekday.

(** The first entry dated today is [entry], under the key [today_key]. *)
Definition first_today (today_date : string) (node : Node)
    (today_key : string) (entry : Entry) : Prop :=
  truthy_key (find_today_entry (collectionData node) today_date) = Some today_key ∧
  Dict.get today_key (collectionData node) = Some entry.

(** [str(entry.get("entryStatus", "")).lower() == "paid"] *)
Definition entry_paid (entry : Entry) : Prop :=
  Py.lower (default "" (entryStatus entry)) = "paid".

(** The cases in which a round of the sweep goes on to the next client
    without a change. *)
Definition sweep_skips (today_date today_weekday : string) (node : Node) : Prop :=
  ¬ eligible today_weekday node ∨
  (∃ today_key entry, first_today today_date node today_key entry ∧ entry_paid entry) ∨
  over_capacity today_date node.

(** The case in which a round of the sweep raises: the first entry
    dated today is not paid and its key, without [week], is no integer. *)
Definition sweep_fails (today_date today_weekday : string) (node : Node) : Prop :=
  eligible today_weekday node ∧
  ∃ today_key entry,
    first_today today_date node today_key entry ∧ ¬ entry_paid entry ∧
    Py.int_of_str (Py.remove_all "week" today_key) = None.

(** [curr.get("ClientData", {}) or {}] and [curr.get("batches", {}) or {}] *)
Definition clients_of (d : Ledger) : gmap string Node := default ∅ (ClientData d).
Definition receipts_of (d : Ledger) : gmap string (gmap string ReceiptItem) :=
  default ∅ (batches d).

(** The stat of a client after the credit of one week of 600. *)
Definition credited (stat : ClientStat) : ClientStat :=
  let weeks_paid := stat_or_zero (WeeksPaid stat) + 1 in
  {| ClientName := ClientName stat; CollectionDay := CollectionDay stat;
     LendDate := LendDate stat;
     Status := if 20 <=? weeks_paid then Some "Closed" else Status stat;
     TotalAmountPaid := Some (stat_or_zero (TotalAmountPaid stat) + 600);
     WeeksPaid := Some weeks_paid |}.


(** The record of a client after its round of the undo. *)
Definition undone_node (info : ReceiptItem) (node : Node) : Node :=
  match undo_outcome info node with
  | Some (node', _) => node'
  | None => node
  end.

(** ** Counting clients *)

(** The sum of [f] over the clients. *)
Definition tally (f : Node → Z) (client_data : gmap string Node) : Z :=
  map_fold (λ _ node acc, acc + f node) 0 client_data.

(** 1 for a client that has a stat, and for one whose status reads
    [status] in lower case. *)
Definition has_stat (node : Node) : Z :=
  match Stat node with Some _ => 1 | None => 0 end.

Definition has_status (status : string) (node : Node) : Z :=
  match Stat node with
  | Some stat => if bool_decide (status_lower stat = status) then 1 else 0
  | None => 0
  end.

(** What [/dashboard] counts as outstanding for a client. *)
Definition outstanding (node : Node) : Z :=
  match Stat node with
  | Some stat => Z.max 0 (TOTAL_PER_CLIENT - stat_or_zero (TotalAmountPaid stat))
  | None => 0
  end.

(** 1 for an active client due on [day]. *)
Definition due_on (day : string) (node : Node) : Z :=
  match Stat node with
  | Some stat =>
      if bool_decide (status_lower stat = "active")
      then if bool_decide (CollectionDay stat = Some day) then 1 else 0
      else 0
  | None => 0
  end.

Definition week_days : list string := ["MON"; "TUE"; "WED"; "THU"; "FRI"; "SAT"; "SUN"].

(** The counters [all_stats] are the counts of the clients
    [client_data]; an absent counter reads as 0, as
    [int(all_stats.get(..., 0))] does. *)
Definition counted_state (all_stats : Stats) (client_data : gmap string Node) : Prop :=
  stat_or_zero (TotalLoans all_stats) = tally has_stat client_data ∧
  stat_or_zero (ActiveLoans all_stats) = tally (has_status "active") client_data ∧
  stat_or_zero (ClosedLoans all_stats) = tally (has_status "closed") client_data.

Definition counted (d : Ledger) : Prop :=
  counted_state (default (mkStats None None None) (AllStats d)) (clients_of d).

(** A client is Active with fewer than 20 weeks paid, or Closed with
    20. *)
Definition settled (node : Node) : Prop :=
  ∃ stat w, Stat node = Some stat ∧ WeeksPaid stat = Some w ∧
    ((Status stat = Some "Active" ∧ 0 ≤ w < 20) ∨
     (Status stat = Some "Closed" ∧ w = 20)).

Definition closure_inv (node : Node) : Prop := client_inv node ∧ settled node.

(** What [/today] lists for a client that is active and due on the day
    [today_weekday]: the amount 600, and [paid] when some entry of the
    client dated [today_date] is paid. *)
Definition listed (today_date today_weekday : string) (client_data : gmap string Node)
    (c : Today.customer) : Prop :=
  ∃ node,
    client_data !! Today.clientId c = Some node ∧
    eligible today_weekday node ∧
    Today.amount c = 600 ∧
    Today.status c =
      if paid_today (collectionData node) today_date then "paid" else "pending".

(** ** The documents of the users and the four writing routes

    [db.reference(f"Users/{user}").transaction(tx)] on the documents
    of the users: the body runs on the document under the key, and
    what the store keeps afterwards is put under the same key.  The
    two routes of the sweep take the blanks out of the user
    ([data["user"].replace(" ", "")]); [/addNewClient] and [/addEntry]
    pass the user as it is given. *)
Definition on_user (tx : option Ledger → option Ledger) (key : string)
    (users : gmap string Ledger) : gmap string Ledger :=
  partial_alter tx key users.

Definition add_new_client_store (user lend_date collection_day : string) :=
  on_user (addClient lend_date collection_day) user.

Definition add_entry_store (user client_id : string) (amount : Z)
    (date_str status : string) :=
  on_user (postEntry client_id amount date_str status) user.

Definition batch_mark_today_store (now : clock) (user : string) :=
  on_user (sweepToday now) (Py.remove_all " " user).

Definition undo_last_batch_store (user : string) :=
  on_user undoLastBatch (Py.remove_all " " user).

(** ** Ledgers of the examples of this part *)

Module Cases.
Import Examples.

(** [full] after the sweep of [monday]: an empty receipt. *)
Definition full_swept : Ledger :=
  one_client (client 0 0 twenty_pending) (Some {[ "2026-11-02" := ∅ ]}).

(** The documents of one user. *)
Definition alice (d : Ledger) : gmap string Ledger := {[ "alice" := d ]}.

(** [registered] after a payment of 600 posted as paid for [monday],
    and after the sweep of [monday] that follows. *)
Definition posted_monday : Ledger :=
  one_client (client 1 600 [("week1", paid_entry "2026-11-02")]) None.

Definition posted_monday_swept : Ledger :=
  one_client (client 1 600 [("week1", paid_entry "2026-11-02")])
             (Some {[ "2026-11-02" := ∅ ]}).

(** A user whose name has a blank, with one client registered. *)
Definition john : gmap string Ledger := {[ "John Doe" := registered ]}.
End Cases.

(** * Properties

    ** The string primitives *)

Example int_of_str_ex1 : Py.int_of_str " 0_12 " = Some 12. Proof. reflexivity. Qed.
Example int_of_str_ex2 : Py.int_of_str "-7" = Some (-7). Proof. reflexivity. Qed.
Example int_of_str_ex3 : Py.int_of_str "1__2" = None. Proof. reflexivity. Qed.
Example int_of_str_ex4 : Py.int_of_str "" = None. Proof. reflexivity. Qed.
Example str_of_int_ex : Py.str_of_int (-120) = "-120". Proof. reflexivity. Qed.
Example remove_all_ex : Py.remove_all "week" "week1week2w" = "12w". Proof. reflexivity. Qed.
Example lower_ex : Py.lower "AcTive" = "active". Proof. reflexivity. Qed.


Module PyFacts.
Import Py.

Lemma uint_digits d : all_chars is_digit (NilEmpty.string_of_uint d) = true.
Proof. induction d; simpl; auto. Qed.

Lemma digit_not_space c : is_digit c = true → is_space c = false.
Proof.
  unfold is_digit, is_space. intros H.
  apply andb_true_iff in H as [H1%N.leb_le H2%N.leb_le].
  apply orb_false_iff; split; apply andb_false_iff.
  - right. apply N.leb_gt. lia.
  - right. apply N.leb_gt. lia.
Qed.

Lemma digit_not_sign c :
  is_digit c = true → c ≠ "-"%char ∧ c ≠ "+"%char ∧ c ≠ "w"%char.
Proof. intros H; repeat split; intros ->; discriminate H. Qed.

Lemma lstrip_digit c r : is_digit c = true → lstrip (String c r) = String c r.
Proof. intros H. simpl. by rewrite (digit_not_space _ H). Qed.

Lemma rstrip_digits s : all_chars is_digit s = true → rstrip s = s.
Proof.
  induction s as [|c r IH]; simpl; [done|].
  intros [Hc Hr]%andb_true_iff. rewrite (IH Hr).
  destruct r; [by rewrite (digit_not_space _ Hc)|done].
Qed.

Lemma digits_of_digits s :
  all_chars is_digit s = true → digits_of true s = Some s.
Proof.
  induction s as [|c r IH]; simpl; [done|].
  intros [Hc Hr]%andb_true_iff. by rewrite Hc, (IH Hr).
Qed.

Lemma nat_literal_uint d :
  d ≠ Decimal.Nil →
  nat_literal (NilEmpty.string_of_uint d) = Some (Z.of_uint d).
Proof.
  intros Hd. unfold nat_literal.
  assert (digits_of false (NilEmpty.string_of_uint d)
          = Some (NilEmpty.string_of_uint d)) as ->.
  { pose proof (uint_digits d) as Hall.
    destruct d; [done|..]; simpl in *; by rewrite digits_of_digits. }
  simpl. by rewrite NilEmpty.usu.
Qed.

Lemma to_uint_nonnil p : Pos.to_uint p ≠ Decimal.Nil.
Proof.
  intros H. pose proof (DecimalPos.Unsigned.of_to p) as Hp.
  rewrite H in Hp. discriminate Hp.
Qed.

Lemma of_uint_pos p : Z.of_uint (Pos.to_uint p) = Z.pos p.
Proof. unfold Z.of_uint. by rewrite DecimalPos.Unsigned.of_to. Qed.

Lemma string_of_uint_nonnil d :
  d ≠ Decimal.Nil → NilZero.string_of_uint d = NilEmpty.string_of_uint d.
Proof. by destruct d. Qed.

(** A non-empty string of digits is read back as it stands. *)
Lemma int_of_digits s :
  s ≠ EmptyString → all_chars is_digit s = true →
  int_of_str s = nat_literal s.
Proof.
  intros Hs Hall. unfold int_of_str, strip.
  destruct s as [|c r]; [done|].
  pose proof Hall as [Hc Hr]%andb_true_iff.
  rewrite (lstrip_digit _ _ Hc), (rstrip_digits _ Hall).
  destruct (digit_not_sign _ Hc) as (Hm & Hp & _).
  destruct c as [[] [] [] [] [] [] [] []]; try discriminate Hc; done.
Qed.

Lemma int_of_neg_digits s :
  s ≠ EmptyString → all_chars is_digit s = true →
  int_of_str (String "-" s) = Z.opp <$> nat_literal s.
Proof.
  intros Hs Hall. unfold int_of_str, strip.
  change (lstrip (String "-" s)) with (String "-" s).
  cbn [rstrip]. rewrite (rstrip_digits _ Hall).
  by destruct s.
Qed.

Lemma uint_string_nonempty d :
  d ≠ Decimal.Nil → NilEmpty.string_of_uint d ≠ EmptyString.
Proof. by destruct d. Qed.

(** [int(str(n)) == n] *)
Lemma int_of_str_of_int n : int_of_str (str_of_int n) = Some n.
Proof.
  unfold str_of_int. destruct n as [|p|p]; [done|..]; simpl.
  - rewrite string_of_uint_nonnil by apply to_uint_nonnil.
    rewrite int_of_digits, nat_literal_uint, of_uint_pos;
      auto using to_uint_nonnil, uint_string_nonempty, uint_digits.
  - rewrite string_of_uint_nonnil by apply to_uint_nonnil.
    rewrite int_of_neg_digits, nat_literal_uint, of_uint_pos;
      auto using to_uint_nonnil, uint_string_nonempty, uint_digits.
Qed.

#[global] Instance str_of_int_inj : Inj (=) (=) str_of_int.
Proof.
  intros a b H. apply (f_equal int_of_str) in H.
  rewrite !int_of_str_of_int in H. congruence.
Qed.

Lemma all_chars_impl (p q : ascii → bool) s :
  (∀ c, p c = true → q c = true) →
  all_chars p s = true → all_chars q s = true.
Proof.
  intros Hpq. induction s as [|c r IH]; simpl; [done|].
  intros [Hc Hr]%andb_true_iff. by rewrite (Hpq _ Hc), IH.
Qed.

Lemma str_of_int_not_w n : all_chars not_w (str_of_int n) = true.
Proof.
  assert (∀ d, all_chars not_w (NilEmpty.string_of_uint d) = true) as Hd.
  { intros d. apply (all_chars_impl is_digit); [|apply uint_digits].
    intros c Hc. destruct (digit_not_sign _ Hc) as (_ & _ & Hw).
    unfold not_w. by apply negb_true_iff, Ascii.eqb_neq. }
  unfold str_of_int. destruct n as [|p|p]; [done|..]; simpl;
    rewrite string_of_uint_nonnil by apply to_uint_nonnil; simpl; by rewrite ?Hd.
Qed.

Lemma remove_go_no_w s :
  all_chars not_w s = true → remove_go "week" O s = s.
Proof.
  induction s as [|c r IH]; [done|].
  intros [Hc Hr]%andb_true_iff.
  cbn [remove_go]. rewrite (IH Hr).
  unfold not_w in Hc. apply negb_true_iff, Ascii.eqb_neq in Hc.
  assert (String.prefix "week" (String c r) = false) as ->; [|done].
  cbn [String.prefix]. destruct (ascii_dec "w" c) as [<-|]; done.
Qed.

Lemma remove_all_week s :
  all_chars not_w s = true →
  remove_all "week" (String.append "week" s) = s.
Proof.
  intros Hs. unfold remove_all.
  change (String.append "week" s)
    with (String "w" (String "e" (String "e" (String "k" s)))).
  cbn [remove_go String.prefix String.length Nat.pred].
  repeat (destruct (ascii_dec _ _); [|done]).
  assert (String.prefix "" s = true) as -> by (by destruct s).
  by apply remove_go_no_w.
Qed.

End PyFacts.

(** ** The keys [P<i>] and [week<n>] *)

Section KeyFacts.
Import Py PyFacts.

#[global] Instance client_key_inj : Inj (=) (=) client_key.
Proof. intros a b H. unfold client_key in H. by simplify_eq. Qed.

#[global] Instance week_key_inj : Inj (=) (=) week_key.
Proof. intros a b H. unfold week_key in H. by simplify_eq. Qed.

Lemma week_key_nonempty n : week_key n ≠ EmptyString.
Proof. done. Qed.

Lemma int_of_week_key n : int_of_str (remove_all "week" (week_key n)) = Some n.
Proof.
  unfold week_key.
  by rewrite remove_all_week, int_of_str_of_int by apply str_of_int_not_w.
Qed.

Lemma week_of_key_week_key n : week_of_key (week_key n) = Some n.
Proof.
  unfold week_of_key.
  assert (startswith "week" (week_key n) = true) as ->.
  { unfold startswith, week_key.
    change (String.append "week" (str_of_int n))
      with (String "w" (String "e" (String "e" (String "k" (str_of_int n))))).
    cbn [String.prefix]. repeat (destruct (ascii_dec _ _); [|done]).
    by destruct (str_of_int n). }
  apply int_of_week_key.
Qed.

Lemma client_key_number i :
  startswith "P" (client_key i) = true ∧
  int_of_str (tail (client_key i)) = Some i.
Proof.
  unfold client_key.
  change (String.append "P" (str_of_int i)) with (String "P" (str_of_int i)).
  split; [|apply int_of_str_of_int].
  unfold startswith. cbn [String.prefix].
  destruct (ascii_dec _ _); [|done]. by destruct (str_of_int i).
Qed.
End KeyFacts.

(** ** The scan of [get_next_client_id] *)

Section NextClient.
Implicit Types (client_data : gmap string Node) (i n : Z).

Lemma next_client_loop_sound fuel client_data i n :
  next_client_loop fuel client_data i = Some n →
  i ≤ n ∧ client_data !! client_key n = None ∧
  ∀ j, i ≤ j < n → is_Some (client_data !! client_key j).
Proof.
  revert i. induction fuel as [|fuel IH]; intros i; simpl; [done|].
  destruct (client_data !! client_key i) eqn:Hi.
  - intros (Hle & Hn & Hlt)%IH. split_and!; [lia|done|].
    intros j Hj. destruct (decide (j = i)) as [->|]; [by rewrite Hi|].
    apply Hlt. lia.
  - intros [= <-]. split_and!; [lia|done|]. intros j ?. lia.
Qed.

(** The keys [P<j>] met so far are [seen]; each round adds one, and
    there are no more of them than clients. *)
Lemma next_client_loop_fuel fuel client_data i (seen : gset string) :
  seen ⊆ dom client_data →
  (∀ j, i ≤ j → client_key j ∉ seen) →
  (size (dom client_data) < size seen + fuel)%nat →
  is_Some (next_client_loop fuel client_data i).
Proof.
  revert i seen. induction fuel as [|fuel IH]; intros i seen Hsub Hfresh Hsz.
  - apply subseteq_size in Hsub. lia.
  - simpl. destruct (client_data !! client_key i) eqn:Hi; [|by eexists].
    apply (IH _ ({[client_key i]} ∪ seen)).
    + apply union_subseteq. split; [|done].
      apply singleton_subseteq_l, elem_of_dom. by rewrite Hi.
    + intros j Hj [Hin%elem_of_singleton|Hin]%elem_of_union.
      * apply (inj client_key) in Hin. lia.
      * apply (Hfresh j); [lia|done].
    + rewrite size_union, size_singleton; [lia|].
      apply disjoint_singleton_l, Hfresh. lia.
Qed.

(** The scan stops: it returns an id. *)
Lemma get_next_client_id_total client_data :
  ∃ n, 1 ≤ n ∧ get_next_client_id client_data = Some (client_key n) ∧
       client_data !! client_key n = None ∧
       ∀ j, 1 ≤ j < n → is_Some (client_data !! client_key j).
Proof.
  unfold get_next_client_id.
  destruct (next_client_loop_fuel (S (size client_data)) client_data 1 ∅)
    as [n Hn].
  - apply empty_subseteq.
  - intros j _. apply not_elem_of_empty.
  - rewrite size_dom, size_empty. lia.
  - exists n. rewrite Hn.
    apply next_client_loop_sound in Hn as (? & ? & ?). done.
Qed.
End NextClient.

(** ** Dictionaries in insertion order *)

Module DictFacts.
Import Dict.
Section Facts.
Context {A : Type}.
Implicit Types (d : list (string * A)) (k : string) (v : A).

Lemma get_Some_elem d k v : get k d = Some v → (k, v) ∈ d.
Proof.
  induction d as [|[k' v'] d IH]; simpl; [done|].
  destruct (String.eqb_spec k k') as [->|_].
  - intros [= ->]. apply list_elem_of_here.
  - intros ?%IH. by apply list_elem_of_further.
Qed.

Lemma get_None_keys d k : get k d = None ↔ k ∉ keys d.
Proof.
  unfold keys. induction d as [|[k' v'] d IH]; simpl.
  - split; [intros _; apply not_elem_of_nil|done].
  - rewrite not_elem_of_cons.
    destruct (String.eqb_spec k k') as [->|Hne]; [by split; [|intros []]|].
    rewrite IH. by split; [|intros []].
Qed.

Lemma get_Some_keys d k : is_Some (get k d) ↔ k ∈ keys d.
Proof.
  rewrite <-not_eq_None_Some, get_None_keys.
  destruct (decide (k ∈ keys d)); naive_solver.
Qed.

(** In a dictionary (distinct keys) an item is found by its key. *)
Lemma elem_get d k v : NoDup (keys d) → (k, v) ∈ d → get k d = Some v.
Proof.
  unfold keys. induction d as [|[k' v'] d IH]; simpl.
  - by intros _ ?%not_elem_of_nil.
  - intros [Hk' Hnd]%NoDup_cons [[= -> ->]|Hin]%elem_of_cons.
    + by rewrite String.eqb_refl.
    + destruct (String.eqb_spec k k') as [->|_]; [|by apply IH].
      exfalso. apply Hk'. apply list_elem_of_fmap. by exists (k', v).
Qed.

Lemma get_set_eq d k v : get k (set k v d) = Some v.
Proof.
  induction d as [|[k' v'] d IH]; simpl.
  - by rewrite String.eqb_refl.
  - destruct (String.eqb_spec k k') as [->|Hne]; simpl.
    + by rewrite String.eqb_refl.
    + by destruct (String.eqb_spec k k').
Qed.

Lemma get_set_ne d k k' v : k ≠ k' → get k' (set k v d) = get k' d.
Proof.
  intros Hne. induction d as [|[k0 v0] d IH]; simpl.
  - by destruct (String.eqb_spec k' k) as [->|_].
  - destruct (String.eqb_spec k k0) as [->|Hne0]; simpl.
    + by destruct (String.eqb_spec k' k0) as [->|_].
    + by rewrite IH.
Qed.

(** A new key goes to the end. *)
Lemma set_fresh d k v : get k d = None → set k v d = d ++ [(k, v)].
Proof.
  induction d as [|[k' v'] d IH]; simpl; [done|].
  destruct (String.eqb_spec k k') as [->|_]; [done|].
  intros ?%IH. by f_equal.
Qed.

Lemma keys_set_present d k v : is_Some (get k d) → keys (set k v d) = keys d.
Proof.
  unfold keys. induction d as [|[k' v'] d IH]; simpl; [by intros [? ?]|].
  destruct (String.eqb_spec k k') as [->|_]; simpl; [done|].
  intros ?%IH. by f_equal.
Qed.

Lemma del_set_fresh d k v : get k d = None → del k (set k v d) = d.
Proof.
  induction d as [|[k' v'] d IH]; simpl.
  - by rewrite String.eqb_refl.
  - destruct (String.eqb_spec k k') as [->|Hne]; [done|]. simpl.
    destruct (String.eqb_spec k k'); [done|].
    intros ?%IH. by f_equal.
Qed.

Lemma set_set d k v v' : set k v (set k v' d) = set k v d.
Proof.
  induction d as [|[k0 v0] d IH]; simpl.
  - by rewrite String.eqb_refl.
  - destruct (String.eqb_spec k k0) as [->|Hne]; simpl.
    + by rewrite String.eqb_refl.
    + destruct (String.eqb_spec k k0); [done|]. by f_equal.
Qed.

Lemma set_get_id d k v : get k d = Some v → set k v d = d.
Proof.
  induction d as [|[k0 v0] d IH]; simpl; [done|].
  destruct (String.eqb_spec k k0) as [->|Hne].
  - by intros [= ->].
  - intros ?%IH. by f_equal.
Qed.

Lemma keys_del d k : keys (del k d) ⊆ keys d.
Proof.
  unfold keys. induction d as [|[k0 v0] d IH]; simpl; [done|].
  destruct (String.eqb_spec k k0) as [->|Hne]; simpl.
  - intros x Hx. by apply list_elem_of_further.
  - intros x [->|Hx%IH]%elem_of_cons; [apply list_elem_of_here|].
    by apply list_elem_of_further.
Qed.

Lemma NoDup_keys_del d k : NoDup (keys d) → NoDup (keys (del k d)).
Proof.
  unfold keys. induction d as [|[k0 v0] d IH]; simpl; [done|].
  intros [Hk0 Hnd]%NoDup_cons.
  destruct (String.eqb_spec k k0) as [->|Hne]; simpl; [done|].
  apply NoDup_cons. split; [|by apply IH].
  intros Hin. apply Hk0. by apply (keys_del d k).
Qed.
End Facts.
End DictFacts.

(** ** The next week number *)

Section NextWeek.
Implicit Types (coll : list (string * Entry)).

Lemma foldl_max_ge (xs : list Z) (a : Z) :
  a ≤ foldl Z.max a xs ∧ ∀ x, x ∈ xs → x ≤ foldl Z.max a xs.
Proof.
  revert a. induction xs as [|y xs IH]; intros a; simpl.
  - split; [lia|]. by intros x ?%not_elem_of_nil.
  - destruct (IH (Z.max a y)) as [Ha Hxs]. split; [lia|].
    intros x [->|Hx]%elem_of_cons; [lia|by apply Hxs].
Qed.

Lemma max_or_zero_ge (xs : list Z) x : x ∈ xs → x ≤ Py.max_or_zero xs.
Proof.
  destruct xs as [|y xs]; [by intros ?%not_elem_of_nil|].
  simpl. destruct (foldl_max_ge xs y) as [Hy Hxs].
  intros [->|Hx]%elem_of_cons; [done|by apply Hxs].
Qed.

Lemma week_numbers_elem coll n :
  is_Some (Dict.get (week_key n) coll) → n ∈ week_numbers coll.
Proof.
  intros Hk%DictFacts.get_Some_keys. unfold week_numbers.
  apply list_elem_of_omap. exists (week_key n).
  split; [done|apply week_of_key_week_key].
Qed.

(** The key the next week gets is a new key. *)
Lemma next_week_fresh coll : Dict.get (week_key (next_week_of coll)) coll = None.
Proof.
  apply eq_None_not_Some. intros Hin%week_numbers_elem%max_or_zero_ge.
  unfold next_week_of in Hin. lia.
Qed.
End NextWeek.

(** ** Client Registrar *)

Section Registrar.
Implicit Types (client_data : gmap string Node) (curr : Ledger).



(** C10: the record a successful [txn_add_new_client] creates carries
    the allocated client id as its [ClientName]; the body takes the
    lend date and the collection day only, no name. *)
Theorem txn_add_new_client_name lend_date collection_day (stored : option Ledger) new :
  txn_add_new_client lend_date collection_day stored = Ok new →
  ∃ curr client_data new_pid node stat,
    stored = Some curr ∧ ClientData curr = Some client_data ∧
    get_next_client_id client_data = Some new_pid ∧
    client_data !! new_pid = None ∧
    ClientData new = Some (<[new_pid := node]> client_data) ∧
    Stat node = Some stat ∧ ClientName stat = Some new_pid.
Proof.
  unfold txn_add_new_client. intros H.
  destruct stored as [curr|]; [|done].
  destruct (AllStats curr) as [all_stats|]; [|done].
  destruct (ClientData curr) as [client_data|] eqn:Hdata; [|done].
  destruct (get_next_client_id_total client_data) as (n & _ & Hid & Hfree & _).
  rewrite Hid in H. injection H as <-.
  eexists curr, client_data, (client_key n), _, _.
  split_and!; [done..|reflexivity|reflexivity|reflexivity].
Qed.

Lemma txn_add_new_client_name_witness :
  ∃ curr client_data new_pid node stat,
    Some (ensure_user_structure None) = Some curr ∧
    ClientData curr = Some client_data ∧
    get_next_client_id client_data = Some new_pid ∧
    client_data !! new_pid = None ∧
    ClientData
      {| AllStats := Some (mkStats (Some 1) (Some 1) (Some 0));
         ClientData := Some {[ "P1" := new_client "P1" "2026-10-26" "MON" ]};
         batches := None; _lastBatch := Some None |}
      = Some (<[new_pid := node]> client_data) ∧
    Stat node = Some stat ∧ ClientName stat = Some new_pid.
Proof.
  apply (txn_add_new_client_name "2026-10-26" "MON"
           (Some (ensure_user_structure None))).
  vm_compute. reflexivity.
Defined.

(** The largest number among keys that are all of the form [P<j>]. *)
Lemma max_client_number_range client_data :
  (∀ k, is_Some (client_data !! k) → ∃ j, 1 ≤ j ∧ k = client_key j) →
  (∀ j, is_Some (client_data !! client_key j) → j ≤ max_client_number client_data) ∧
  (max_client_number client_data = 0 ∨
   is_Some (client_data !! client_key (max_client_number client_data))).
Proof.
  unfold max_client_number.
  apply (map_fold_weak_ind (λ r (m : gmap string Node),
    (∀ k, is_Some (m !! k) → ∃ j, 1 ≤ j ∧ k = client_key j) →
    (∀ j, is_Some (m !! client_key j) → j ≤ r) ∧
    (r = 0 ∨ is_Some (m !! client_key r)))).
  - intros _. split; [|by left]. intros j. rewrite lookup_empty. by intros [? ?].
  - intros k node m r Hk IH Hkeys.
    destruct IH as [Hub Hmax].
    { intros k' Hk'. apply Hkeys. rewrite lookup_insert_ne; [done|].
      intros ->. rewrite Hk in Hk'. by destruct Hk'. }
    destruct (Hkeys k) as (j & Hj & ->); [by rewrite lookup_insert_eq|].
    destruct (client_key_number j) as [-> ->].
    split.
    + intros j'. destruct (decide (j' = j)) as [->|Hne].
      * intros _. destruct (Z.ltb_spec r j); lia.
      * rewrite lookup_insert_ne by (by intros ?%(inj client_key)).
        intros ?%Hub. destruct (Z.ltb_spec r j); lia.
    + right. destruct (Z.ltb_spec r j); [by rewrite lookup_insert_eq|].
      destruct Hmax as [->|Hmax]; [lia|].
      rewrite lookup_insert_ne; [done|].
      intros ?%(inj client_key). subst. rewrite Hk in Hmax. by destruct Hmax.
Qed.

(** C9: when the keys of [ClientData] are exactly [P1 .. Pn], the scan
    of [get_next_client_id] and the route's largest-number-plus-one
    both give [P(n+1)]. *)
Theorem next_client_id_agree (n : nat) client_data :
  (∀ k, is_Some (client_data !! k) ↔ ∃ j, 1 ≤ j ≤ Z.of_nat n ∧ k = client_key j) →
  get_next_client_id client_data = Some (client_key (Z.of_nat n + 1)) ∧
  ∀ data, ClientData data = Some client_data →
          get_next_client_id_route (Some data) = client_key (Z.of_nat n + 1).
Proof.
  intros Hkeys. split.
  - destruct (get_next_client_id_total client_data) as (m & Hm & -> & Hfree & Hused).
    do 2 f_equal.
    destruct (Z.lt_trichotomy m (Z.of_nat n + 1)) as [Hlt|[->|Hgt]]; [|done|].
    + assert (is_Some (client_data !! client_key m)) as [? Hin].
      { apply Hkeys. exists m. split; [lia|done]. }
      congruence.
    + destruct (Hused (Z.of_nat n + 1)) as [? Hin]; [lia|].
      assert (is_Some (client_data !! client_key (Z.of_nat n + 1))) as Hs by eauto.
      apply Hkeys in Hs as (j & Hj & Heq%(inj client_key)). lia.
  - intros data Hdata. unfold get_next_client_id_route. rewrite Hdata.
    case_bool_decide as Hempty.
    + destruct n as [|n]; [done|].
      assert (is_Some (client_data !! client_key 1)) as [? Hin].
      { apply Hkeys. exists 1. split; [lia|done]. }
      subst. by rewrite lookup_empty in Hin.
    + f_equal. f_equal.
      destruct (max_client_number_range client_data) as [Hub Hmax].
      { intros k (j & Hj & ->)%Hkeys. exists j. split; [lia|done]. }
      assert (max_client_number client_data ≤ Z.of_nat n) as Hle.
      { destruct Hmax as [->|(j & Hj & Heq%(inj client_key))%Hkeys]; lia. }
      destruct n as [|n].
      * exfalso. apply Hempty. apply map_empty. intros k.
        apply eq_None_not_Some. intros (j & Hj & _)%Hkeys. lia.
      * assert (Z.of_nat (S n) ≤ max_client_number client_data); [|lia].
        apply Hub, Hkeys. exists (Z.of_nat (S n)). split; [lia|done].
Qed.

Lemma next_client_id_agree_witness :
  get_next_client_id {[ "P1" := new_client "P1" "2026-10-26" "MON";
                        "P2" := new_client "P2" "2026-10-27" "TUE" ]}
    = Some (client_key (Z.of_nat 2 + 1)) ∧
  ∀ data,
    ClientData data = Some {[ "P1" := new_client "P1" "2026-10-26" "MON";
                              "P2" := new_client "P2" "2026-10-27" "TUE" ]} →
    get_next_client_id_route (Some data) = client_key (Z.of_nat 2 + 1).
Proof.
  apply (next_client_id_agree 2). intros k. split.
  - intros Hk. destruct (decide (k = "P1")) as [->|H1].
    { exists 1. split; [lia|reflexivity]. }
    destruct (decide (k = "P2")) as [->|H2].
    { exists 2. split; [lia|reflexivity]. }
    rewrite lookup_insert_ne, lookup_singleton_ne in Hk by done. by destruct Hk.
  - intros (j & Hj & ->).
    assert (j = 1 ∨ j = 2) as [-> | ->] by lia; vm_compute; eauto.
Defined.
End Registrar.

(** ** Payment Poster *)

Section Poster.
Implicit Types (client_data : gmap string Node) (curr : Ledger).

(** What a [txn_add_entry] that returns has done. *)
Lemma txn_add_entry_Ok client_id amount date_str status stored new :
  txn_add_entry client_id amount date_str status stored = Ok new →
  ∃ curr all_stats client_data node stat,
    stored = Some curr ∧
    AllStats curr = Some all_stats ∧ ClientData curr = Some client_data ∧
    client_data !! client_id = Some node ∧ Stat node = Some stat ∧
    Status stat ≠ Some "Closed" ∧
    next_week_of (collectionData node) ≤ 20 ∧
    let o := post_outcome amount date_str status node stat in
    new = {| AllStats := Some (if o.2 then close_loan all_stats else all_stats);
             ClientData := Some (<[client_id := o.1]> client_data);
             batches := batches curr; _lastBatch := _lastBatch curr |}.
Proof.
  unfold txn_add_entry, post_outcome. intros H.
  destruct stored as [curr|]; [|done].
  destruct (AllStats curr) as [all_stats|] eqn:Hstats; [|done].
  destruct (ClientData curr) as [client_data|] eqn:Hdata; [|done].
  destruct (client_data !! client_id) as [node|] eqn:Hnode; [|done].
  destruct (Stat node) as [stat|] eqn:Hstat; [|done].
  case_bool_decide as Hclosed; [done|].
  destruct (Z.ltb_spec 20 (next_week_of (collectionData node))) as [|Hweek]; [done|].
  injection H as <-.
  eexists curr, all_stats, client_data, node, stat.
  split_and!; [done..|]. simpl. by destruct (20 <=? _).
Qed.

End Poster.

(** ** The rounds of the two loops *)

Section Rounds.
Implicit Types (client_data cd : gmap string Node) (st : sweep_state).
Implicit Types (batch_record : gmap string ReceiptItem).

Lemma credit_week_stat stat all_stats :
  credit_week stat all_stats =
    ((credit_stat stat).1,
     if (credit_stat stat).2 then close_loan all_stats else all_stats).
Proof. unfold credit_week, credit_stat. by case_leb. Qed.

Lemma rollback_week_stat amount stat all_stats :
  rollback_week amount stat all_stats =
    ((rollback_stat amount stat).1,
     if (rollback_stat amount stat).2 then reopen_loan all_stats else all_stats).
Proof. unfold rollback_week, rollback_stat. by case_bool_decide. Qed.

(** A round of the sweep is the effect [sweep_outcome] computes. *)
Lemma sweep_client_outcome today_date today_weekday client_id node st :
  sweep_client today_date today_weekday client_id node st =
    apply_outcome client_id (sweep_outcome today_date today_weekday node) st.
Proof.
  destruct st as [[all_stats cd] batch_record].
  unfold sweep_client, sweep_outcome.
  destruct (Stat node) as [stat|]; [|done].
  destruct (negb _); [done|]. destruct (negb _); [done|].
  destruct (truthy_key _) as [today_key|].
  - case_bool_decide; [done|]. rewrite credit_week_stat.
    unfold int_or_raise. by destruct (Py.int_of_str _).
  - case_leb; [done|]. by rewrite credit_week_stat.
Qed.

(** A round of the undo is the effect [undo_outcome] computes. *)
Lemma undo_client_outcome client_id info all_stats cd :
  undo_client client_id info (all_stats, cd) =
    match (cd !! client_id ≫= undo_outcome info : option (Node * bool)) with
    | None => (all_stats, cd)
    | Some (node, reopens) =>
        (if reopens then reopen_loan all_stats else all_stats,
         <[client_id := node]> cd)
    end.
Proof.
  unfold undo_client, undo_outcome.
  destruct (cd !! client_id) as [node|]; [|done]. simpl.
  destruct (Dict.get _ _) as [entry|]; [|done].
  destruct (Stat node) as [stat|] eqn:Hstat; [|done].
  repeat case_bool_decide; rewrite ?rollback_week_stat; try done.
  destruct node; simpl in *. by rewrite Hstat.
Qed.

Lemma sweep_bind_outcome today_date today_weekday client_id node
    (r : result sweep_state) :
  r ≫= sweep_client today_date today_weekday client_id node =
  r ≫= apply_outcome client_id (sweep_outcome today_date today_weekday node).
Proof. destruct r; [apply sweep_client_outcome|done]. Qed.

Lemma apply_outcome_comm j1 j2 o1 o2 (r : result sweep_state) :
  j1 ≠ j2 →
  (r ≫= apply_outcome j2 o2) ≫= apply_outcome j1 o1 =
  (r ≫= apply_outcome j1 o1) ≫= apply_outcome j2 o2.
Proof.
  intros Hne. destruct r as [[[s cd] rec]|e]; [|done].
  destruct o1 as [| |n1 i1 c1], o2 as [| |n2 i2 c2]; try done.
  unfold mbind, result_mbind, result_bind, apply_outcome. simpl.
  rewrite (insert_insert_ne cd j1 j2), (insert_insert_ne rec j1 j2) by done.
  by destruct c1, c2.
Qed.

(** Rounds of the sweep for two different clients can be swapped. *)
Lemma sweep_client_comm today_date today_weekday j1 j2 z1 z2
    (r : result sweep_state) :
  j1 ≠ j2 →
  (r ≫= sweep_client today_date today_weekday j2 z2)
    ≫= sweep_client today_date today_weekday j1 z1 =
  (r ≫= sweep_client today_date today_weekday j1 z1)
    ≫= sweep_client today_date today_weekday j2 z2.
Proof.
  intros Hne. rewrite !sweep_bind_outcome. by apply apply_outcome_comm.
Qed.

(** Rounds of the undo for two different clients can be swapped. *)
Lemma undo_client_comm j1 j2 info1 info2 (st : Stats * gmap string Node) :
  j1 ≠ j2 →
  undo_client j1 info1 (undo_client j2 info2 st) =
  undo_client j2 info2 (undo_client j1 info1 st).
Proof.
  intros Hne. destruct st as [s cd]. rewrite !undo_client_outcome.
  destruct (cd !! j2 ≫= undo_outcome info2) as [[n2 r2]|] eqn:H2;
    destruct (cd !! j1 ≫= undo_outcome info1) as [[n1 r1]|] eqn:H1;
    rewrite !undo_client_outcome, ?lookup_insert_ne, ?H1, ?H2 by done;
    try done.
  rewrite (insert_insert_ne cd j1 j2) by done.
  by destruct r1, r2.
Qed.

Lemma sweep_loop_insert today_date today_weekday m i x r :
  m !! i = None →
  sweep_loop today_date today_weekday (<[i := x]> m) r =
    sweep_loop today_date today_weekday m r
      ≫= sweep_client today_date today_weekday i x.
Proof.
  intros Hi. unfold sweep_loop. rewrite map_fold_insert_L; [done| |done].
  intros j1 j2 z1 z2 y Hne _ _. by apply sweep_client_comm.
Qed.

(** The undo of a receipt can start with any of its items. *)
Lemma undo_loop_insert (record : gmap string ReceiptItem) i info
    (st : Stats * gmap string Node) :
  record !! i = None →
  map_fold undo_client st (<[i := info]> record) =
    map_fold undo_client (undo_client i info st) record.
Proof.
  intros Hi. rewrite map_fold_insert_L; [| |done].
  - symmetry. apply (map_fold_comm_acc_strong (=)); [solve_proper|].
    intros j z y Hj. apply undo_client_comm. intros ->. congruence.
  - intros j1 j2 z1 z2 y Hne _ _. by apply undo_client_comm.
Qed.

(** A property of the loop state that every round keeps holds when the
    loop returns. *)
Lemma sweep_loop_invariant today_date today_weekday (P : sweep_state → Prop) m st st' :
  (∀ client_id node st1 st2,
      m !! client_id = Some node → P st1 →
      sweep_client today_date today_weekday client_id node st1 = Ok st2 → P st2) →
  P st →
  sweep_loop today_date today_weekday m (Ok st) = Ok st' →
  P st'.
Proof.
  intros Hstep Hinit. revert st'. unfold sweep_loop.
  induction m as [|i x m Hi Hfirst IH] using map_first_key_ind.
  - rewrite map_fold_empty. by intros st' [= <-].
  - rewrite map_fold_insert_first_key by done.
    intros st' Hst'.
    destruct (map_fold _ _ m) as [st1|e] eqn:Hfold; [|done].
    apply (Hstep i x st1); [by rewrite lookup_insert_eq| |done].
    apply IH; [|done].
    intros j node st2 st3 Hj. apply Hstep.
    rewrite lookup_insert_ne; [done|]. intros ->. congruence.
Qed.
End Rounds.

(** ** The outcomes of a round *)

Section Outcomes.
Implicit Types (coll : list (string * Entry)) (node : Node).

Lemma find_today_entry_Some coll today_date k :
  truthy_key (find_today_entry coll today_date) = Some k →
  k ≠ EmptyString ∧ ∃ e, (k, e) ∈ coll ∧ date e = Some today_date.
Proof.
  unfold find_today_entry.
  destruct (List.find _ coll) as [[k' e]|] eqn:Hfind; [|done]. simpl.
  apply List.find_some in Hfind as [Hin Hdate].
  apply bool_decide_eq_true in Hdate. simpl in Hdate.
  destruct k' as [|c r]; [done|]. intros [= <-].
  split; [done|]. exists e. by rewrite list_elem_of_In.
Qed.

Lemma find_today_entry_None coll today_date k e :
  truthy_key (find_today_entry coll today_date) = None →
  (k, e) ∈ coll → date e = Some today_date →
  ∃ e', (EmptyString, e') ∈ coll ∧ date e' = Some today_date.
Proof.
  unfold find_today_entry. intros Hnone Hin Hdate.
  destruct (List.find _ coll) as [[k' e']|] eqn:Hfind.
  - apply List.find_some in Hfind as [Hin' Hdate'].
    apply bool_decide_eq_true in Hdate'. simpl in *.
    destruct k'; [|done]. exists e'. by rewrite list_elem_of_In.
  - apply list_elem_of_In in Hin.
    apply (List.find_none _ _ Hfind) in Hin.
    apply bool_decide_eq_false in Hin. done.
Qed.

(** What a round that touches its client has found and done. *)
Lemma sweep_outcome_Touched today_date today_weekday node node' item closes :
  sweep_outcome today_date today_weekday node = Touched node' item closes →
  ∃ stat,
    Stat node = Some stat ∧
    Py.lower (default "" (Status stat)) = "active" ∧
    CollectionDay stat = Some today_weekday ∧
    Stat node' = Some (credit_stat stat).1 ∧
    closes = (credit_stat stat).2 ∧
    let coll := collectionData node in
    ((∃ today_key week_no,
        truthy_key (find_today_entry coll today_date) = Some today_key ∧
        let entry := default empty_entry (Dict.get today_key coll) in
        Py.lower (default "" (entryStatus entry)) ≠ "paid" ∧
        Py.int_of_str (Py.remove_all "week" today_key) = Some week_no ∧
        collectionData node' =
          Dict.set today_key (set_entryStatus "paid" entry) coll ∧
        item = {| action := "updated"; week := week_no |})
     ∨
     (truthy_key (find_today_entry coll today_date) = None ∧
      next_week_of coll ≤ 20 ∧
      collectionData node' =
        Dict.set (week_key (next_week_of coll))
          {| Amount := Some 600; date := Some today_date;
             entryStatus := Some "paid" |} coll ∧
      item = {| action := "created"; week := next_week_of coll |})).
Proof.
  unfold sweep_outcome. intros H.
  destruct (Stat node) as [stat|]; [|done]. exists stat.
  case_bool_decide as Hactive; [|done].
  case_bool_decide as Hday; [|done]. simpl in H.
  destruct (truthy_key _) as [today_key|] eqn:Hkey.
  - case_bool_decide as Hpaid; [done|].
    destruct (Py.int_of_str _) as [week_no|] eqn:Hint; [|done].
    injection H as <- <- <-. split_and!; [done..|].
    left. by exists today_key, week_no.
  - destruct (Z.ltb_spec 20 (next_week_of (collectionData node))); [done|].
    injection H as <- <- <-. split_and!; [done..|]. by right.
Qed.

(** What a round of the undo that saves a record back has found. *)
Lemma undo_outcome_Some info node node' reopens :
  undo_outcome info node = Some (node', reopens) →
  ∃ entry stat,
    Dict.get (week_key (week info)) (collectionData node) = Some entry ∧
    Stat node = Some stat ∧
    let amount := default 600 (Amount entry) in
    ((action info = "created" ∧
      node' = {| Stat := Some (rollback_stat amount stat).1;
                 collectionData :=
                   Dict.del (week_key (week info)) (collectionData node) |} ∧
      reopens = (rollback_stat amount stat).2)
     ∨
     (action info = "updated" ∧
      node' = {| Stat := Some (rollback_stat amount stat).1;
                 collectionData :=
                   Dict.set (week_key (week info))
                     (set_entryStatus "pending" entry) (collectionData node) |} ∧
      reopens = (rollback_stat amount stat).2)
     ∨
     (node' = node ∧ reopens = false)).
Proof.
  unfold undo_outcome. intros H.
  destruct (Dict.get _ _) as [entry|]; [|done].
  destruct (Stat node) as [stat|]; [|done].
  exists entry, stat. split_and!; [done..|]. simpl.
  repeat case_bool_decide; injection H as <- <-; eauto.
Qed.



Lemma max_or_zero_nonneg (xs : list Z) :
  (∀ x, x ∈ xs → 0 ≤ x) → 0 ≤ Py.max_or_zero xs.
Proof.
  destruct xs as [|y xs]; [done|]. intros Hxs. simpl.
  pose proof (Hxs y (list_elem_of_here _ _)).
  destruct (foldl_max_ge xs y). lia.
Qed.

Lemma week_numbers_keyed coll n :
  (∀ k, k ∈ Dict.keys coll → ∃ m, 1 ≤ m ≤ 20 ∧ k = week_key m) →
  n ∈ week_numbers coll → 1 ≤ n ≤ 20.
Proof.
  intros Hkeys (k & Hk & Hn)%list_elem_of_omap.
  destruct (Hkeys k Hk) as (m & Hm & ->).
  rewrite week_of_key_week_key in Hn. by injection Hn as <-.
Qed.

Lemma next_week_keyed coll :
  (∀ k, k ∈ Dict.keys coll → ∃ m, 1 ≤ m ≤ 20 ∧ k = week_key m) →
  1 ≤ next_week_of coll.
Proof.
  intros Hkeys. unfold next_week_of.
  assert (0 ≤ Py.max_or_zero (week_numbers coll)); [|lia].
  apply max_or_zero_nonneg. intros x Hx.
  pose proof (week_numbers_keyed _ _ Hkeys Hx). lia.
Qed.



End Outcomes.

(** ** What the sweep and the undo return *)

Section Inversion.
Implicit Types (d curr : Ledger).

Lemma batch_mark_today_Ok now stored d' :
  batch_mark_today now stored = Ok d' →
  let curr := ensure_user_structure stored in
  let client_data := default ∅ (ClientData curr) in
  let all_stats := default (mkStats None None None) (AllStats curr) in
  let batches0 := default ∅ (batches curr) in
  (is_Some (batches0 !! now_date now) ∧ d' = curr) ∨
  (batches0 !! now_date now = None ∧
   ∃ s cd rec,
     sweep_loop (now_date now) (weekday_map (now_weekday now)) client_data
                (Ok (all_stats, client_data, ∅)) = Ok (s, cd, rec) ∧
     d' = {| AllStats := Some s; ClientData := Some cd;
             batches := Some (<[now_date now := rec]> batches0);
             _lastBatch := _lastBatch curr |}).
Proof.
  unfold batch_mark_today. intros H. simpl.
  destruct (default ∅ (batches (ensure_user_structure stored)) !! now_date now)
    as [r|] eqn:Hgate.
  - left. injection H as <-. eauto.
  - right. split; [done|].
    destruct (sweep_loop _ _ _ _) as [[[s cd] rec]|e]; [|done].
    injection H as <-. by exists s, cd, rec.
Qed.

Lemma undo_last_batch_Ok stored d' :
  undo_last_batch stored = Ok d' →
  let curr := ensure_user_structure stored in
  let client_data := default ∅ (ClientData curr) in
  let all_stats := default (mkStats None None None) (AllStats curr) in
  let batches0 := default ∅ (batches curr) in
  (batches0 = ∅ ∧ d' = curr) ∨
  (∃ last record,
     last_date batches0 = Some last ∧ record = default ∅ (batches0 !! last) ∧
     d' = {| AllStats := Some (map_fold undo_client (all_stats, client_data) record).1;
             ClientData := Some (map_fold undo_client (all_stats, client_data) record).2;
             batches := Some (delete last batches0);
             _lastBatch := _lastBatch curr |}).
Proof.
  unfold undo_last_batch. intros H. simpl.
  case_bool_decide as Hempty.
  - left. by injection H as <-.
  - right. destruct (last_date _) as [last|]; [|done].
    destruct (map_fold undo_client _ _) as [s cd] eqn:Hfold.
    injection H as <-. eexists _, _. by rewrite Hfold.
Qed.

(** The undo loop keeps what each of its rounds keeps. *)
Lemma undo_loop_invariant (P : Stats * gmap string Node → Prop)
    (record : gmap string ReceiptItem) st :
  (∀ client_id info st1, P st1 → P (undo_client client_id info st1)) →
  P st → P (map_fold undo_client st record).
Proof.
  intros Hstep Hinit.
  apply (map_fold_weak_ind (λ r _, P r)); [done|].
  intros i x m r _ Hr. by apply Hstep.
Qed.
End Inversion.

(** ** Invariants of the reachable ledgers *)

Section Balance.

Lemma close_loan_balanced s : stats_balanced s → stats_balanced (close_loan s).
Proof.
  intros (t & a & c & -> & ->). exists (a + c), (a - 1), (c + 1).
  split; [done|lia].
Qed.

Lemma reopen_loan_balanced s : stats_balanced s → stats_balanced (reopen_loan s).
Proof.
  intros (t & a & c & -> & ->). exists (a + c), (a + 1), (c - 1).
  split; [done|lia].
Qed.

Lemma run_balanced o d d' : balanced d → run o (Some d) = Ok d' → balanced d'.
Proof.
  intros (s & Hs & Hbal) Hrun. destruct o as [ld cday|cid amount ds status|now|]; cbn [run] in Hrun.
  - unfold txn_add_new_client in Hrun. rewrite Hs in Hrun.
    destruct (ClientData d) as [cd|]; [|done].
    destruct (get_next_client_id cd); [|done]. injection Hrun as <-.
    destruct Hbal as (t & a & c & -> & ->).
    eexists. split; [done|]. exists (a + c + 1), (a + 1), c. split; [done|lia].
  - apply txn_add_entry_Ok in Hrun
      as (curr & s' & cd & node & stat & [= <-] & Hs' & _ & _ & _ & _ & _ & ->).
    rewrite Hs in Hs'. injection Hs' as <-.
    eexists. split; [done|]. destruct (post_outcome _ _ _ _ _).2; [|done].
    by apply close_loan_balanced.
  - apply batch_mark_today_Ok in Hrun as [[_ ->]|(_ & s' & cd & rec & Hloop & ->)].
    + exists s. simpl. by rewrite Hs.
    + eexists. split; [done|].
      refine (sweep_loop_invariant _ _ (λ st, stats_balanced st.1.1) _ _ _ _ _ Hloop).
      * intros j node [[s1 cd1] rec1] st2 _ Hs1. rewrite sweep_client_outcome.
        destruct (sweep_outcome _ _ node) as [| |n' it c]; simpl; [|done|].
        -- by intros [= <-].
        -- intros [= <-]. simpl in *. destruct c; [|done].
           by apply close_loan_balanced.
      * simpl. by rewrite Hs.
  - apply undo_last_batch_Ok in Hrun as [[_ ->]|(last & record & _ & _ & ->)].
    + exists s. simpl. by rewrite Hs.
    + eexists. split; [done|]. simpl. rewrite Hs. simpl.
      apply (undo_loop_invariant (λ st, stats_balanced st.1)); [|done].
      intros j info [s1 cd1] Hs1. rewrite undo_client_outcome.
      destruct (_ ≫= _) as [[n' r]|]; [|done]. simpl in *.
      destruct r; [|done]. by apply reopen_loan_balanced.
Qed.

Lemma reachable_by_balanced allowed d : reachable_by allowed d → balanced d.
Proof.
  induction 1 as [|o d d' _ _ IH Hrun].
  - exists zero_stats. split; [done|]. by exists 0, 0, 0.
  - by apply (run_balanced o d).
Qed.

(** C3: in every ledger that successful [addClient], [postEntry],
    [sweepToday] and [undoLastBatch] operations reach from the empty
    repaired ledger, [AllStats] has its three counters and
    [TotalLoans = ActiveLoans + ClosedLoans]. *)
Theorem reachable_balanced d :
  reachable d →
  ∃ t a c, AllStats d = Some (mkStats (Some t) (Some a) (Some c)) ∧ t = a + c.
Proof.
  intros (s & Hs & t & a & c & -> & Hsum)%reachable_by_balanced.
  by exists t, a, c.
Qed.
End Balance.

(** ** Properties of every client of a reachable ledger *)

Section ClientInvariant.
Variable allowed : op → Prop.
Variable Q : Node → Prop.

Hypothesis Q_new : ∀ new_pid lend_date collection_day,
  Q (new_client new_pid lend_date collection_day).
Hypothesis Q_post : ∀ amount date_str status node stat,
  Q node → Stat node = Some stat → Status stat ≠ Some "Closed" →
  next_week_of (collectionData node) ≤ 20 →
  Q (post_outcome amount date_str status node stat).1.
Hypothesis Q_sweep : ∀ today_date today_weekday node node' item closes,
  Q node → sweep_outcome today_date today_weekday node = Touched node' item closes →
  Q node'.
Hypothesis Q_undo : ∀ info node node' reopens,
  allowed UndoLastBatch →
  Q node → undo_outcome info node = Some (node', reopens) → Q node'.

Lemma run_all_clients o d d' :
  allowed o → all_clients Q d → run o (Some d) = Ok d' → all_clients Q d'.
Proof.
  intros Hallowed (cd & Hcd & HQ) Hrun.
  destruct o as [ld cday|cid amount ds status|now|]; cbn [run] in Hrun.
  - unfold txn_add_new_client in Hrun. rewrite Hcd in Hrun.
    destruct (AllStats d); [|done].
    destruct (get_next_client_id cd); [|done]. injection Hrun as <-.
    eexists. split; [done|]. by apply map_Forall_insert_2.
  - apply txn_add_entry_Ok in Hrun
      as (curr & s & cd' & node & stat & [= <-] & _ & Hcd' & Hnode & Hstat
          & Hclosed & Hweek & ->).
    rewrite Hcd in Hcd'. injection Hcd' as <-.
    eexists. split; [done|]. apply map_Forall_insert_2; [|done].
    apply Q_post; [|done..]. by apply (HQ cid).
  - apply batch_mark_today_Ok in Hrun as [[_ ->]|(_ & s' & cd' & rec & Hloop & ->)].
    + exists cd. simpl. by rewrite Hcd.
    + eexists. split; [done|]. simpl in Hloop. rewrite Hcd in Hloop. simpl in Hloop.
      refine (sweep_loop_invariant _ _ (λ st, map_Forall (λ _, Q) st.1.2)
                _ _ _ _ _ Hloop); [|done].
      intros j node [[s1 cd1] rec1] st2 Hj Hcd1. rewrite sweep_client_outcome.
      destruct (sweep_outcome _ _ node) as [| |n' it c] eqn:Hout; simpl; [|done|].
      * by intros [= <-].
      * intros [= <-]. simpl in *. apply map_Forall_insert_2; [|done].
        eapply Q_sweep; [|done]. by apply (HQ j).
  - apply undo_last_batch_Ok in Hrun as [[_ ->]|(last & record & _ & _ & ->)].
    + exists cd. simpl. by rewrite Hcd.
    + eexists. split; [done|]. simpl. rewrite Hcd. simpl.
      apply (undo_loop_invariant (λ st, map_Forall (λ _, Q) st.2)); [|done].
      intros j info [s1 cd1] Hcd1. rewrite undo_client_outcome.
      destruct (cd1 !! j) as [node|] eqn:Hj; [|done]. simpl.
      destruct (undo_outcome info node) as [[n' r]|] eqn:Hout; [|done]. simpl in *.
      apply map_Forall_insert_2; [|done].
      eapply Q_undo; [done| |done]. by apply (Hcd1 j).
Qed.

Lemma reachable_by_all_clients d : reachable_by allowed d → all_clients Q d.
Proof.
  induction 1 as [|o d d' Ho _ IH Hrun].
  - exists ∅. split; [done|]. apply map_Forall_empty.
  - by apply (run_all_clients o d).
Qed.
End ClientInvariant.

Section ClientFacts.
Implicit Types (node : Node) (stat : ClientStat).

Lemma client_inv_not_closed node stat :
  client_inv node → Stat node = Some stat → Status stat ≠ Some "Closed" →
  ∃ w, WeeksPaid stat = Some w ∧ 0 ≤ w < 20 ∧ Status stat = Some "Active".
Proof.
  intros [(stat' & w & Hstat & Hw & Hrange & Hstatus) _] Hstat' Hclosed.
  rewrite Hstat in Hstat'. injection Hstat' as ->.
  destruct Hstatus as [?|[? ?]]; [done|]. exists w. split_and!; [done|lia..|done].
Qed.

Lemma client_inv_active node stat :
  client_inv node → Stat node = Some stat →
  Py.lower (default "" (Status stat)) = "active" →
  ∃ w, WeeksPaid stat = Some w ∧ 0 ≤ w < 20 ∧ Status stat = Some "Active".
Proof.
  intros Hinv Hstat Hactive. apply (client_inv_not_closed node); [done..|].
  intros Hclosed. by rewrite Hclosed in Hactive.
Qed.

(** A new key [week<n>] at the end keeps the keys distinct week keys. *)
Lemma week_keyed_append node ostat (e : Entry) :
  week_keyed node →
  next_week_of (collectionData node) ≤ 20 →
  week_keyed {| Stat := ostat;
                collectionData :=
                  Dict.set (week_key (next_week_of (collectionData node))) e
                           (collectionData node) |}.
Proof.
  intros [Hnd Hkeys] Hweek. unfold week_keyed, Dict.keys in *. simpl.
  rewrite (DictFacts.set_fresh _ _ _ (next_week_fresh _)), fmap_app. simpl.
  pose proof (next_week_fresh (collectionData node)) as Hfresh.
  apply DictFacts.get_None_keys in Hfresh. split.
  - apply NoDup_app. split_and!; [done| |apply NoDup_singleton].
    by intros k Hk ->%list_elem_of_singleton.
  - intros k [Hk| ->%list_elem_of_singleton]%elem_of_app; [by apply Hkeys|].
    eexists. split; [|done]. split; [|done]. by apply next_week_keyed.
Qed.

Lemma week_keyed_set node ostat k (e : Entry) :
  week_keyed node → is_Some (Dict.get k (collectionData node)) →
  week_keyed {| Stat := ostat; collectionData := Dict.set k e (collectionData node) |}.
Proof.
  intros Hkeyed Hk. unfold week_keyed. simpl.
  by rewrite DictFacts.keys_set_present.
Qed.

Lemma week_keyed_del node ostat k :
  week_keyed node →
  week_keyed {| Stat := ostat; collectionData := Dict.del k (collectionData node) |}.
Proof.
  intros [Hnd Hkeys]. split; simpl.
  - by apply DictFacts.NoDup_keys_del.
  - intros k' Hk'. by apply Hkeys, (DictFacts.keys_del _ k).
Qed.

Lemma found_key_present (coll : list (string * Entry)) today_date k :
  truthy_key (find_today_entry coll today_date) = Some k →
  is_Some (Dict.get k coll).
Proof.
  intros (_ & e & Hin & _)%find_today_entry_Some.
  apply DictFacts.get_Some_keys, list_elem_of_fmap. by exists (k, e).
Qed.

Lemma client_inv_new new_pid lend_date collection_day :
  client_inv (new_client new_pid lend_date collection_day).
Proof.
  split.
  - eexists _, 0. split_and!; [done..|]. right. done.
  - split; [apply NoDup_nil_2|]. by intros k ?%not_elem_of_nil.
Qed.

Lemma client_inv_post amount date_str status node stat :
  client_inv node → Stat node = Some stat → Status stat ≠ Some "Closed" →
  next_week_of (collectionData node) ≤ 20 →
  client_inv (post_outcome amount date_str status node stat).1.
Proof.
  intros Hinv Hstat Hclosed Hweek.
  destruct (client_inv_not_closed _ _ Hinv Hstat Hclosed) as (w & Hw & Hrange & Hactive).
  unfold post_outcome. split; [|by apply week_keyed_append; [apply Hinv|]].
  simpl. rewrite Hw. simpl.
  eexists _, (if bool_decide (status = "paid") then w + 1 else w).
  split; [done|]. destruct (bool_decide _); case_leb; simpl;
    (split_and!; [done|lia..|]); (by left) || (right; split; [done|lia]).
Qed.

Lemma credit_stat_inv stat w :
  WeeksPaid stat = Some w → 0 ≤ w < 20 → Status stat = Some "Active" →
  WeeksPaid (credit_stat stat).1 = Some (w + 1) ∧
  (Status (credit_stat stat).1 = Some "Closed" ∨
   (Status (credit_stat stat).1 = Some "Active" ∧ w + 1 < 20)).
Proof.
  intros Hw Hrange Hactive. unfold credit_stat. rewrite Hw. simpl.
  case_leb; simpl; [by auto|]. split; [done|]. right. split; [done|lia].
Qed.

Lemma client_inv_sweep today_date today_weekday node node' item closes :
  client_inv node →
  sweep_outcome today_date today_weekday node = Touched node' item closes →
  client_inv node'.
Proof.
  intros Hinv (stat & Hstat & Hactive & _ & Hstat' & _ & Hcoll)%sweep_outcome_Touched.
  destruct (client_inv_active _ _ Hinv Hstat Hactive) as (w & Hw & Hrange & Hact).
  destruct (credit_stat_inv _ _ Hw Hrange Hact) as [Hw' Hstatus'].
  destruct node' as [stat' coll']. simpl in *. subst stat'. split.
  - eexists _, (w + 1). split_and!; [done..|lia|lia|done].
  - destruct Hcoll as [(k & n & Hk & _ & _ & -> & _)|(_ & Hweek & -> & _)].
    + apply week_keyed_set; [apply Hinv|]. by eapply found_key_present.
    + by apply week_keyed_append; [apply Hinv|].
Qed.

Lemma rollback_stat_inv amount stat w :
  WeeksPaid stat = Some w → 0 ≤ w ≤ 20 →
  (Status stat = Some "Closed" ∨ (Status stat = Some "Active" ∧ w < 20)) →
  WeeksPaid (rollback_stat amount stat).1 = Some (Z.max 0 (w - 1)) ∧
  Status (rollback_stat amount stat).1 = Some "Active".
Proof.
  intros Hw Hrange Hstatus. unfold rollback_stat. rewrite Hw. simpl.
  case_bool_decide as Hclosed; simpl; [done|].
  split; [done|]. by destruct Hstatus as [?|[? ?]].
Qed.

Lemma client_inv_undo info node node' reopens :
  client_inv node → undo_outcome info node = Some (node', reopens) →
  client_inv node'.
Proof.
  intros Hinv (entry & stat & Hentry & Hstat & Hcases)%undo_outcome_Some.
  destruct Hinv as [(stat' & w & Hstat' & Hw & Hrange & Hstatus) Hkeyed].
  rewrite Hstat in Hstat'. injection Hstat' as <-.
  destruct (rollback_stat_inv (default 600 (Amount entry)) _ _ Hw Hrange Hstatus)
    as [Hw' Hactive'].
  assert (∀ coll', week_keyed {| Stat := None; collectionData := coll' |} →
            client_inv {| Stat := Some (rollback_stat (default 600 (Amount entry)) stat).1;
                          collectionData := coll' |}) as Hback.
  { intros coll' Hcoll'. split; [|done].
    eexists _, (Z.max 0 (w - 1)). split_and!; [done..|lia|lia|].
    right. split; [done|lia]. }
  destruct Hcases as [(_ & -> & _)|[(_ & -> & _)|[-> _]]].
  - by apply Hback, week_keyed_del.
  - by apply Hback, week_keyed_set.
  - split; [|done]. by exists stat, w.
Qed.



End ClientFacts.

Section WeeksInvariant.

End WeeksInvariant.

(** ** Batch Sweeper: the gate and the capacity case *)

Section Sweeper.
Implicit Types (curr d : Ledger) (client_data : gmap string Node).

Lemma ensure_user_structure_idem stored :
  ensure_user_structure (Some (ensure_user_structure stored)) =
  ensure_user_structure stored.
Proof.
  destruct stored as [c|]; [|done]. unfold ensure_user_structure. simpl.
  by destruct (AllStats c), (ClientData c), (_lastBatch c).
Qed.

(** With a receipt for today the body returns the repaired document. *)
Lemma batch_mark_today_gate now stored :
  is_Some (default ∅ (batches (ensure_user_structure stored)) !! now_date now) →
  batch_mark_today now stored = Ok (ensure_user_structure stored).
Proof. intros [r Hr]. unfold batch_mark_today. by rewrite Hr. Qed.

(** What the body returns is repaired and has a receipt for today. *)
Lemma batch_mark_today_marks now stored d1 :
  batch_mark_today now stored = Ok d1 →
  ensure_user_structure (Some d1) = d1 ∧
  ∃ bs r, batches d1 = Some bs ∧ bs !! now_date now = Some r.
Proof.
  intros [[[r Hr] ->]|(Hgate & s & cd & rec & _ & ->)]%batch_mark_today_Ok.
  - split; [apply ensure_user_structure_idem|].
    destruct (batches (ensure_user_structure stored)) as [bs|]; [by eauto|].
    simpl in Hr. by rewrite lookup_empty in Hr.
  - split.
    + unfold ensure_user_structure at 1. simpl.
      by destruct stored as [[? ? ? []]|].
    + eexists _, rec. split; [done|]. apply lookup_insert_eq.
Qed.

(** C5: a second [sweepToday] on the same date leaves the stored
    document as the first one left it; the document the first body
    returned holds a receipt for today, and on it the body returns its
    input unchanged. *)
Theorem sweepToday_idempotent now stored :
  sweepToday now (sweepToday now stored) = sweepToday now stored ∧
  ∀ d1, batch_mark_today now stored = Ok d1 →
        (∃ bs r, batches d1 = Some bs ∧ bs !! now_date now = Some r) ∧
        batch_mark_today now (Some d1) = Ok d1.
Proof.
  assert (∀ d1, batch_mark_today now stored = Ok d1 →
                (∃ bs r, batches d1 = Some bs ∧ bs !! now_date now = Some r) ∧
                batch_mark_today now (Some d1) = Ok d1) as Hsecond.
  { intros d1 [Hrep (bs & r & Hbs & Hr)]%batch_mark_today_marks.
    split; [by eauto|]. rewrite batch_mark_today_gate; rewrite Hrep; [done|].
    rewrite Hbs. simpl. by rewrite Hr. }
  split; [|done]. unfold sweepToday, transaction.
  destruct (batch_mark_today now stored) as [d1|e] eqn:Hfirst.
  - by destruct (Hsecond d1 eq_refl) as [_ ->].
  - by rewrite Hfirst.
Qed.






End Sweeper.

(** ** Sweep, then undo *)

Section LastDate.
Context {A : Type}.
Implicit Types (bs : gmap string A).

Lemma ltb_le (a b : string) : String.ltb a b = true → String.le a b.
Proof.
  unfold String.le, String.ltb, String.leb.
  by destruct (String.compare a b).
Qed.

Lemma ltb_irrefl (a : string) : String.ltb a a = false.
Proof.
  unfold String.ltb.
  assert (String.compare a a = Eq) as ->; [|done].
  induction a as [|ch a IH]; simpl; [done|].
  unfold Ascii.compare. by rewrite N.compare_refl.
Qed.

Lemma StronglySorted_last (R : relation string) (l : list string) x :
  StronglySorted R l → last l = Some x → ∀ y, y ∈ l → y = x ∨ R y x.
Proof.
  induction 1 as [|z l Hl IH Hz]; [done|].
  destruct l as [|z' l'].
  - intros [= ->] y ->%list_elem_of_singleton. by left.
  - rewrite last_cons_cons. intros Hlast y [->|Hy]%elem_of_cons.
    + right. eapply Forall_forall; [exact Hz|]. by eapply last_Some_elem_of.
    + by apply IH.
Qed.

(** The date of a receipt that is later than all others is the last
    date. *)
Lemma last_date_insert bs today (v : A) :
  (∀ k, is_Some (bs !! k) → String.ltb k today = true) →
  last_date (<[today := v]> bs) = Some today.
Proof.
  intros Hbefore. unfold last_date.
  set (l := fst <$> map_to_list (<[today := v]> bs)).
  pose proof (merge_sort_Permutation String.le l) as Hperm.
  assert (today ∈ l) as Htoday.
  { apply list_elem_of_fmap. exists (today, v). split; [done|].
    apply elem_of_map_to_list, lookup_insert_eq. }
  destruct (last (merge_sort String.le l)) as [x|] eqn:Hlast.
  - assert (x ∈ l) as Hx.
    { rewrite <-Hperm. by eapply last_Some_elem_of. }
    pose proof (StronglySorted_last String.le _ x
                  (StronglySorted_merge_sort String.le l) Hlast today) as Hle.
    rewrite Hperm in Hle. specialize (Hle Htoday).
    apply list_elem_of_fmap in Hx as ([k w] & -> & Hkw%elem_of_map_to_list).
    simpl in *. f_equal.
    destruct (decide (k = today)) as [|Hne]; [done|].
    rewrite lookup_insert_ne in Hkw by done.
    assert (String.ltb k today = true) as Hlt by eauto.
    destruct Hle as [->|Hle]; [done|].
    apply ltb_le in Hlt. by apply (anti_symm String.le).
  - apply last_None in Hlast. rewrite Hlast in Hperm.
    apply Permutation_nil_l in Hperm. rewrite <-Hperm in Htoday.
    by apply not_elem_of_nil in Htoday.
Qed.
End LastDate.

Section RoundTrip.
Implicit Types (node : Node) (stat : ClientStat).

Lemma reopen_close_loan s a c :
  ActiveLoans s = Some a → ClosedLoans s = Some c →
  reopen_loan (close_loan s) = s.
Proof.
  destruct s as [t a' c']. simpl. intros -> ->.
  unfold reopen_loan, close_loan. simpl. do 2 f_equal; lia.
Qed.

(** The undo's rollback of 600 takes back the sweep's credit. *)
Lemma rollback_credit_stat stat w t :
  Status stat = Some "Active" →
  WeeksPaid stat = Some w → 0 ≤ w →
  TotalAmountPaid stat = Some t → 0 ≤ t →
  rollback_stat 600 (credit_stat stat).1 = (stat, (credit_stat stat).2).
Proof.
  destruct stat as [name day lend status total weeks]. simpl.
  intros -> -> Hw -> Ht. unfold credit_stat, rollback_stat. simpl.
  case_leb; simpl;
    replace (w + 1 - 1) with w by lia;
    replace (t + 600 - 600) with t by lia;
    by rewrite !Z.max_r by lia.
Qed.

(** One client: the undo of what the sweep recorded gives the record
    back. *)
Lemma undo_sweep_outcome today_date today_weekday node node' item closes :
  round_trip_client today_date node →
  sweep_outcome today_date today_weekday node = Touched node' item closes →
  undo_outcome item node' = Some (node, closes).
Proof.
  intros (Hnd & Hkeys & Hentries & Hstats)
         (stat & Hstat & Hactive & _ & Hstat' & -> & Hcoll)%sweep_outcome_Touched.
  destruct (Hstats stat Hstat Hactive) as (Hact & w & t & Hw & Hw0 & Ht & Ht0).
  pose proof (rollback_credit_stat stat w t Hact Hw Hw0 Ht Ht0) as Hback.
  destruct node as [ostat coll], node' as [ostat' coll']. simpl in *. subst.
  unfold undo_outcome. simpl.
  destruct Hcoll as [(k & n & Hk & Hpaid & Hint & -> & ->)|(Hk & Hweek & -> & ->)];
    simpl.
  - apply find_today_entry_Some in Hk as (_ & e & Hin & Hdate).
    rewrite (DictFacts.elem_get _ _ _ Hnd Hin) in Hpaid |- *. simpl in *.
    destruct (Hkeys k) as (m & ->).
    { apply list_elem_of_fmap. by exists (k, e). }
    rewrite int_of_week_key in Hint. injection Hint as <-.
    destruct (Hentries _ _ Hin Hdate) as [Hp|[Hpending Hamount]].
    { by rewrite Hp in Hpaid. }
    rewrite DictFacts.get_set_eq. simpl. rewrite Hamount. simpl.
    rewrite Hback. simpl. do 3 f_equal.
    rewrite DictFacts.set_set. apply DictFacts.set_get_id.
    rewrite (DictFacts.elem_get _ _ _ Hnd Hin). f_equal.
    destruct e as [amount dt status]. simpl in *. by subst.
  - rewrite DictFacts.get_set_eq. simpl. rewrite Hback. simpl. do 3 f_equal.
    apply DictFacts.del_set_fresh, next_week_fresh.
Qed.

Lemma sweep_outcome_not_Failed today_date today_weekday node :
  round_trip_client today_date node →
  sweep_outcome today_date today_weekday node ≠ Failed.
Proof.
  intros (Hnd & Hkeys & _ & _). unfold sweep_outcome.
  destruct (Stat node); [|done].
  destruct (negb _); [done|]. destruct (negb _); [done|].
  destruct (truthy_key _) as [k|] eqn:Hk; [|by case_leb].
  destruct (bool_decide _); [done|].
  apply find_today_entry_Some in Hk as (_ & e & Hin & _).
  destruct (Hkeys k) as (m & ->).
  { apply list_elem_of_fmap. by exists (k, e). }
  by rewrite int_of_week_key.
Qed.

(** The loop of the sweep over the clients [m], and then the undo of
    its receipt: the undo of the receipts the loop added is void. *)
Lemma sweep_loop_undo today_date today_weekday (m : gmap string Node) :
  ∀ s0 a c (cd0 : gmap string Node) (rec0 : gmap string ReceiptItem),
    ActiveLoans s0 = Some a → ClosedLoans s0 = Some c →
    (∀ i x, m !! i = Some x →
            cd0 !! i = Some x ∧ rec0 !! i = None ∧ round_trip_client today_date x) →
    ∃ s1 cd1 rec1,
      sweep_loop today_date today_weekday m (Ok (s0, cd0, rec0)) = Ok (s1, cd1, rec1) ∧
      is_Some (ActiveLoans s1) ∧ is_Some (ClosedLoans s1) ∧
      map_fold undo_client (s1, cd1) rec1 = map_fold undo_client (s0, cd0) rec0 ∧
      (∀ i, m !! i = None → cd1 !! i = cd0 !! i ∧ rec1 !! i = rec0 !! i).
Proof.
  induction m as [|i x m Hi IH] using map_ind; intros s0 a c cd0 rec0 Ha Hc Hm.
  { exists s0, cd0, rec0. unfold sweep_loop. rewrite map_fold_empty.
    split_and!; by eauto. }
  destruct (IH s0 a c cd0 rec0 Ha Hc)
    as (s1 & cd1 & rec1 & Hloop & [a1 Ha1] & [c1 Hc1] & Hundo & Hframe).
  { intros j y Hj. apply Hm. rewrite lookup_insert_ne; [done|].
    intros ->. congruence. }
  destruct (Hm i x (lookup_insert_eq _ _ _)) as (Hcd0 & Hrec0 & Hx).
  destruct (Hframe i Hi) as [Hcd1 Hrec1]. rewrite Hcd0 in Hcd1. rewrite Hrec0 in Hrec1.
  rewrite sweep_loop_insert, Hloop by done.
  unfold mbind, result_mbind, result_bind. rewrite sweep_client_outcome.
  destruct (sweep_outcome today_date today_weekday x) as [| |n' item closes] eqn:Hout.
  - exists s1, cd1, rec1. split_and!; [done|by eauto..| |].
    + done.
    + intros j [Hj Hne]%lookup_insert_None. by apply Hframe.
  - by destruct (sweep_outcome_not_Failed today_date today_weekday x Hx).
  - eexists _, _, _. split_and!; [reflexivity|..]; simpl.
    + destruct closes; simpl; by eauto.
    + destruct closes; simpl; by eauto.
    + rewrite undo_loop_insert by done.
      rewrite undo_client_outcome, lookup_insert_eq. simpl.
      rewrite (undo_sweep_outcome _ _ _ _ _ _ Hx Hout).
      rewrite insert_insert_eq, (insert_id cd1 i x Hcd1).
      rewrite <-Hundo. f_equal. f_equal.
      destruct closes; [|done]. by eapply reopen_close_loan.
    + intros j [Hj Hne]%lookup_insert_None.
      rewrite !lookup_insert_ne by done. by apply Hframe.
Qed.

Lemma week_keys_NoDup n : NoDup (week_keys n).
Proof.
  unfold week_keys. apply NoDup_fmap_2; [|apply NoDup_seq].
  intros i j Hij%(inj week_key). lia.
Qed.

Lemma well_formed_round_trip today_date d client_data client_id node :
  well_formed d → standard_installment today_date d →
  ClientData d = Some client_data → client_data !! client_id = Some node →
  round_trip_client today_date node.
Proof.
  intros [_ (cd & Hcd & Hall)] Hinst Hcd' Hnode.
  rewrite Hcd in Hcd'. injection Hcd' as ->.
  destruct (Hall client_id node Hnode)
    as ((stat & day & w & t & Hstat & Hstatus & _ & Hw & Hwr & Ht & Ht0)
        & Hdense & Hentries).
  unfold dense_weeks in Hdense. split_and!.
  - rewrite Hdense. apply week_keys_NoDup.
  - intros k Hk. rewrite Hdense in Hk.
    apply list_elem_of_fmap in Hk as (i & -> & _). by eexists.
  - intros k e Hin Hdate.
    destruct (Hentries k e Hin) as (_ & _ & [Hp|Hp]); [by left|].
    right. split; [done|]. by eapply Hinst.
  - intros stat' Hstat' Hactive. rewrite Hstat in Hstat'. injection Hstat' as <-.
    destruct Hstatus as [Hs|Hs]; [|by rewrite Hs in Hactive].
    split; [done|]. exists w, t. split_and!; [done|lia|done..].
Qed.

(** The round trip on a document that has its loan counters and whose
    clients are as [round_trip_client] asks. *)
Lemma sweep_undo_round_trip now d s a c client_data :
  AllStats d = Some s → ActiveLoans s = Some a → ClosedLoans s = Some c →
  ClientData d = Some client_data →
  map_Forall (λ _, round_trip_client (now_date now)) client_data →
  dates_before (now_date now) d →
  ∃ rec s1 cd1,
    batch_mark_today now (Some d) =
      Ok {| AllStats := Some s1; ClientData := Some cd1;
            batches := Some (<[now_date now := rec]> (default ∅ (batches d)));
            _lastBatch := _lastBatch (ensure_user_structure (Some d)) |} ∧
    undo_last_batch
      (Some {| AllStats := Some s1; ClientData := Some cd1;
               batches := Some (<[now_date now := rec]> (default ∅ (batches d)));
               _lastBatch := _lastBatch (ensure_user_structure (Some d)) |}) =
      Ok {| AllStats := Some s; ClientData := Some client_data;
            batches := Some (default ∅ (batches d));
            _lastBatch := _lastBatch (ensure_user_structure (Some d)) |} ∧
    default ∅ (batches d) !! now_date now = None.
Proof.
  intros Hs Ha Hc Hcd Hclients Hdates.
  assert (∀ k, is_Some (default ∅ (batches d) !! k) →
               String.ltb k (now_date now) = true) as Hbefore.
  { intros k Hk. destruct (batches d) as [bs|] eqn:Hbs; [by eapply Hdates|].
    simpl in Hk. rewrite lookup_empty in Hk. by destruct Hk. }
  assert (default ∅ (batches d) !! now_date now = None) as Hgate.
  { apply eq_None_not_Some. intros Hk%Hbefore. by rewrite ltb_irrefl in Hk. }
  destruct (sweep_loop_undo (now_date now) (weekday_map (now_weekday now))
              client_data s a c client_data ∅ Ha Hc)
    as (s1 & cd1 & rec1 & Hloop & _ & _ & Hundo & _).
  { intros i x Hi. split_and!; [done|apply lookup_empty|by apply (Hclients i)]. }
  rewrite map_fold_empty in Hundo.
  exists rec1, s1, cd1. split_and!; [| |done].
  - unfold batch_mark_today. simpl. rewrite Hs, Hcd, Hgate. simpl.
    by rewrite Hloop.
  - unfold undo_last_batch. simpl.
    rewrite bool_decide_eq_false_2 by apply insert_non_empty.
    rewrite (last_date_insert _ _ _ Hbefore), lookup_insert_eq. simpl.
    rewrite Hundo, delete_insert_id by done.
    by destruct (_lastBatch d).
Qed.

(** C1, as the code has it: on a well-formed ledger whose receipts are
    all dated before today and whose pending entries dated today are of
    600, the sweep returns and writes today's receipt, the undo then
    returns, and [AllStats] and [ClientData] (so every [ClientStat] and
    every [collectionData]) are what they were before the sweep:
    created entries are gone, flipped entries are pending again, and
    today's receipt is gone. *)
Theorem sweep_then_undo now d :
  well_formed d →
  dates_before (now_date now) d →
  standard_installment (now_date now) d →
  ∃ d1 d2 rec,
    batch_mark_today now (Some d) = Ok d1 ∧
    batches d1 = Some (<[now_date now := rec]> (default ∅ (batches d))) ∧
    undo_last_batch (Some d1) = Ok d2 ∧
    AllStats d2 = AllStats d ∧
    ClientData d2 = ClientData d ∧
    batches d2 = Some (default ∅ (batches d)) ∧
    default ∅ (batches d) !! now_date now = None.
Proof.
  intros Hwf Hdates Hinst.
  pose proof Hwf as [(t & a & c & Hs & _) (cd & Hcd & _)].
  destruct (sweep_undo_round_trip now d _ a c cd Hs eq_refl eq_refl Hcd)
    as (rec & s1 & cd1 & Hsweep & Hundo & Hgate); [|done|].
  { intros i x Hi. by eapply well_formed_round_trip. }
  eexists _, _, rec. split_and!; [exact Hsweep|done|exact Hundo|done..].
Qed.
End RoundTrip.

(** ** The examples *)

Section Reaching.

Lemma run_all_Raise ops e :
  foldl (λ r o, r ≫= λ d, run o (Some d)) (Raise e) ops = Raise e.
Proof. by induction ops. Qed.

(** A sequence of allowed operations that all return reaches a
    reachable ledger. *)
Lemma run_all_reachable allowed ops d d' :
  Forall allowed ops → reachable_by allowed d → run_all ops d = Ok d' →
  reachable_by allowed d'.
Proof.
  unfold run_all. intros Hops. revert d.
  induction Hops as [|o ops Ho Hops IH]; intros d Hd; simpl.
  - by intros [= <-].
  - change (Ok d ≫= λ d0, run o (Some d0)) with (run o (Some d)).
    destruct (run o (Some d)) as [d1|e] eqn:Hrun.
    + apply IH. by apply (reach_step _ o d).
    + by rewrite run_all_Raise.
Qed.
End Reaching.

Section Examples.
Import Examples.

Lemma registered_reachable allowed :
  allowed (AddClient "2026-10-26" "MON") → reachable_by allowed registered.
Proof.
  intros Hadd. apply (reach_step _ (AddClient "2026-10-26" "MON") empty_ledger);
    [done|apply reach_init|]. vm_compute. reflexivity.
Qed.

Lemma swept_reachable allowed :
  allowed (AddClient "2026-10-26" "MON") → allowed (SweepToday monday) →
  reachable_by allowed swept.
Proof.
  intros Hadd Hsweep. apply (reach_step _ (SweepToday monday) registered);
    [done|by apply registered_reachable|]. vm_compute. reflexivity.
Qed.


Lemma pending_500_reachable : reachable pending_500.
Proof.
  apply (reach_step _ (PostEntry "P1" 500 "2026-11-02" "pending") registered);
    [done|by apply registered_reachable|]. vm_compute. reflexivity.
Qed.

Lemma one_client_well_formed node bs :
  well_formed_client node → well_formed (one_client node bs).
Proof.
  intros Hnode. split.
  - exists 1, 1, 0. split_and!; [done|lia..].
  - eexists. split; [done|]. by apply map_Forall_singleton.
Qed.

Lemma client_well_formed w t coll :
  0 ≤ w ≤ 20 → 0 ≤ t →
  Dict.keys coll ≡ₚ week_keys (length coll) →
  (∀ k e, (k, e) ∈ coll → well_formed_entry e) →
  well_formed_client (client w t coll).
Proof.
  intros Hw Ht Hkeys Hentries. split_and!; [|done..].
  eexists _, MON, w, t. split_and!; try reflexivity; try lia. by left.
Qed.

Lemma later_receipt_well_formed : well_formed later_receipt.
Proof.
  apply one_client_well_formed, client_well_formed; [lia|lia|done|].
  by intros k e ?%not_elem_of_nil.
Qed.

Lemma pending_600_well_formed : well_formed pending_600.
Proof.
  apply one_client_well_formed, client_well_formed; [lia|lia|done|].
  intros k e [= -> ->]%list_elem_of_singleton. split_and!; by eauto.
Qed.

Lemma later_receipt_reachable : reachable later_receipt.
Proof.
  apply (run_all_reachable _ later_receipt_ops empty_ledger).
  - by repeat constructor.
  - apply reach_init.
  - vm_compute. reflexivity.
Qed.

(** C1 fails as stated: [later_receipt] is reachable and well formed and
    has no receipt for [monday]; the sweep of [monday] creates [week1]
    for [P1], and the undo then takes the receipt of the 9th, which is
    the last date, so that [P1] keeps the entry and the credit. *)
Lemma later_receipt_not_restored :
  reachable later_receipt ∧
  well_formed later_receipt ∧
  (∀ bs, batches later_receipt = Some bs → bs !! now_date monday = None) ∧
  batch_mark_today monday (Some later_receipt) = Ok later_receipt_swept ∧
  undo_last_batch (Some later_receipt_swept) = Ok swept ∧
  ¬ round_trip_restores monday later_receipt.
Proof.
  assert (batch_mark_today monday (Some later_receipt) = Ok later_receipt_swept)
    as Hsweep by (vm_compute; reflexivity).
  assert (undo_last_batch (Some later_receipt_swept) = Ok swept)
    as Hundo by (vm_compute; reflexivity).
  split_and!; [apply later_receipt_reachable|apply later_receipt_well_formed| |done..|].
  - intros bs [= <-]. vm_compute. reflexivity.
  - intros (d1 & d2 & rec & H1 & H2 & Hrec & _ & Hclients & _).
    rewrite Hsweep in H1. injection H1 as <-.
    rewrite Hundo in H2. injection H2 as <-.
    assert (rec = {[ "P1" := mkReceiptItem "created" 1 ]}) as ->.
    { vm_compute in Hrec. injection Hrec as <-. vm_compute. reflexivity. }
    specialize (Hclients "P1"). vm_compute in Hclients.
    by specialize (Hclients (ex_intro _ _ eq_refl)).
Qed.

Lemma sweep_then_undo_witness :
  ∃ d1 d2 rec,
    batch_mark_today monday (Some pending_600) = Ok d1 ∧
    batches d1 = Some (<[now_date monday := rec]> (default ∅ (batches pending_600))) ∧
    undo_last_batch (Some d1) = Ok d2 ∧
    AllStats d2 = AllStats pending_600 ∧
    ClientData d2 = ClientData pending_600 ∧
    batches d2 = Some (default ∅ (batches pending_600)) ∧
    default ∅ (batches pending_600) !! now_date monday = None.
Proof.
  apply (sweep_then_undo monday pending_600).
  - apply pending_600_well_formed.
  - intros bs k [= <-] [r Hr].
    apply lookup_singleton_Some in Hr as [<- _]. vm_compute. reflexivity.
  - intros cd cid node k e [= <-] [<- <-]%lookup_singleton_Some.
    by intros [= -> ->]%list_elem_of_singleton.
Defined.

(** C2 fails on a ledger that [addClient] and [postEntry] reach: the
    pending entry of [P1] dated [monday] has [Amount] 500; the sweep
    of [monday] flips it to paid and records [{updated, week 1}], but
    takes [TotalAmountPaid] from 0 to 600; the undo of this sweep takes
    the entry's 500 back and leaves 100. *)
Theorem sweep_credits_600 :
  reachable pending_500 ∧
  batch_mark_today monday (Some pending_500) = Ok pending_500_swept ∧
  undo_last_batch (Some pending_500_swept) = Ok pending_500_undone.
Proof.
  split_and!; [apply pending_500_reachable|vm_compute; reflexivity..].
Qed.


Lemma reachable_balanced_witness :
  ∃ t a c, AllStats swept = Some (mkStats (Some t) (Some a) (Some c)) ∧ t = a + c.
Proof. apply reachable_balanced. by apply swept_reachable. Defined.


Lemma sweepToday_idempotent_witness :
  (∃ bs r, batches swept = Some bs ∧ bs !! now_date monday = Some r) ∧
  batch_mark_today monday (Some swept) = Ok swept.
Proof.
  apply (proj2 (sweepToday_idempotent monday (Some registered))).
  vm_compute. reflexivity.
Defined.



End Examples.

(** * Further properties of the code

    ** The sweep, client by client *)

Section SweepPointwise.
Implicit Types (node : Node) (cd : gmap string Node).

(** The key [find_today_entry] returns is a key of the dictionary. *)
Lemma find_today_entry_get (coll : list (string * Entry)) today_date k :
  truthy_key (find_today_entry coll today_date) = Some k →
  ∃ e, Dict.get k coll = Some e.
Proof. intros [e He]%found_key_present. by exists e. Qed.

Lemma sweep_outcome_Skipped today_date today_weekday node :
  sweep_outcome today_date today_weekday node = Skipped ↔
  sweep_skips today_date today_weekday node.
Proof.
  unfold sweep_outcome, sweep_skips, eligible, over_capacity, first_today,
    entry_paid, status_lower.
  destruct (Stat node) as [stat|] eqn:Hstat.
  2: { split; [|done]. intros _. left. by intros (? & [=] & _). }
  case_bool_decide as Hactive; simpl.
  2: { split; [|done]. intros _. left. intros (? & [= <-] & ? & _). done. }
  case_bool_decide as Hday; simpl.
  2: { split; [|done]. intros _. left. intros (? & [= <-] & _ & ?). done. }
  destruct (truthy_key _) as [k|] eqn:Hk.
  - destruct (find_today_entry_get _ _ _ Hk) as [e He]. rewrite He. simpl.
    case_bool_decide as Hpaid.
    + split; [|done]. intros _. right. left. by exists k, e.
    + destruct (Py.int_of_str _); (split; [done|]).
      * intros [Hne|[(k' & e' & [[= <-] He'] & Hp)|[[=] _]]].
        -- destruct Hne. by exists stat.
        -- rewrite He in He'. by injection He' as <-.
      * intros [Hne|[(k' & e' & [[= <-] He'] & Hp)|[[=] _]]].
        -- destruct Hne. by exists stat.
        -- rewrite He in He'. by injection He' as <-.
  - case_leb.
    + split; [|done]. intros _. right. right. done.
    + split; [done|].
      intros [Hne|[(k' & e' & [[=] _] & _)|[_ Hcap]]]; [|lia].
      destruct Hne. by exists stat.
Qed.

Lemma sweep_outcome_Failed today_date today_weekday node :
  sweep_outcome today_date today_weekday node = Failed ↔
  sweep_fails today_date today_weekday node.
Proof.
  unfold sweep_outcome, sweep_fails, eligible, first_today, entry_paid, status_lower.
  destruct (Stat node) as [stat|] eqn:Hstat.
  2: { split; [done|]. by intros [(? & [=] & _) _]. }
  case_bool_decide as Hactive; simpl.
  2: { split; [done|]. by intros [(? & [= <-] & ? & _) _]. }
  case_bool_decide as Hday; simpl.
  2: { split; [done|]. by intros [(? & [= <-] & _ & ?) _]. }
  destruct (truthy_key _) as [k|] eqn:Hk.
  - destruct (find_today_entry_get _ _ _ Hk) as [e He]. rewrite He. simpl.
    case_bool_decide as Hpaid.
    + split; [done|]. intros [_ (k' & e' & [[= <-] He'] & Hnp & _)].
      rewrite He in He'. by injection He' as <-.
    + destruct (Py.int_of_str _) eqn:Hint.
      * split; [done|]. intros [_ (k' & e' & [[= <-] _] & _ & Hnone)]. congruence.
      * split; [|done]. intros _. split; [by exists stat|]. by exists k, e.
  - split; [by case_leb|]. by intros [_ (k' & e' & [[=] _] & _)].
Qed.

(** The loop of the sweep, client by client: it raises, with
    [ValueError], when a round does; when it returns, the loop state
    holds for every client the record and the receipt item of its
    round, and [TotalLoans] as it was. *)
Lemma sweep_loop_spec today_date today_weekday (m : gmap string Node)
    s0 (cd0 : gmap string Node) (rec0 : gmap string ReceiptItem) :
  match sweep_loop today_date today_weekday m (Ok (s0, cd0, rec0)) with
  | Ok (s1, cd1, rec1) =>
      (∀ i x, m !! i = Some x → sweep_outcome today_date today_weekday x ≠ Failed) ∧
      (∀ i, cd1 !! i =
            match m !! i with
            | Some x =>
                match sweep_outcome today_date today_weekday x with
                | Touched node' _ _ => Some node'
                | _ => cd0 !! i
                end
            | None => cd0 !! i
            end) ∧
      (∀ i, rec1 !! i =
            match m !! i with
            | Some x =>
                match sweep_outcome today_date today_weekday x with
                | Touched _ item _ => Some item
                | _ => rec0 !! i
                end
            | None => rec0 !! i
            end) ∧
      TotalLoans s1 = TotalLoans s0
  | Raise e =>
      e = ValueError ∧
      ∃ i x, m !! i = Some x ∧ sweep_outcome today_date today_weekday x = Failed
  end.
Proof.
  induction m as [|i x m Hi IH] using map_ind.
  { unfold sweep_loop. rewrite map_fold_empty. split_and!; [|done..].
    intros i x. by rewrite lookup_empty. }
  rewrite sweep_loop_insert by done.
  destruct (sweep_loop today_date today_weekday m (Ok (s0, cd0, rec0)))
    as [[[s1 cd1] rec1]|e].
  2: { destruct IH as (-> & j & y & Hj & Hy). split; [done|].
       exists j, y. split; [|done]. rewrite lookup_insert_ne; [done|].
       intros ->. congruence. }
  destruct IH as (Hok & Hcd & Hrec & Htotal).
  unfold mbind, result_mbind, result_bind. rewrite sweep_client_outcome.
  destruct (sweep_outcome today_date today_weekday x) as [| |n' item c] eqn:Hout; simpl.
  - split_and!; [| | |done].
    + intros j y [[<- <-]|[Hne Hj]]%lookup_insert_Some; [by rewrite Hout|by eauto].
    + intros j. destruct (decide (i = j)) as [<-|Hne].
      * by rewrite lookup_insert_eq, Hout, Hcd, Hi.
      * by rewrite lookup_insert_ne, Hcd by done.
    + intros j. destruct (decide (i = j)) as [<-|Hne].
      * by rewrite lookup_insert_eq, Hout, Hrec, Hi.
      * by rewrite lookup_insert_ne, Hrec by done.
  - split; [done|]. exists i, x. by rewrite lookup_insert_eq.
  - split_and!.
    + intros j y [[<- <-]|[Hne Hj]]%lookup_insert_Some; [by rewrite Hout|by eauto].
    + intros j. destruct (decide (i = j)) as [<-|Hne].
      * by rewrite !lookup_insert_eq, Hout.
      * by rewrite !lookup_insert_ne, Hcd by done.
    + intros j. destruct (decide (i = j)) as [<-|Hne].
      * by rewrite !lookup_insert_eq, Hout.
      * by rewrite !lookup_insert_ne, Hrec by done.
    + by destruct c.
Qed.

(** A sweep that finds no receipt for today and returns: the document
    it returns, client by client. *)
Lemma batch_mark_today_run now d cd d' :
  ClientData d = Some cd →
  default ∅ (batches d) !! now_date now = None →
  batch_mark_today now (Some d) = Ok d' →
  let today_date := now_date now in
  let today_weekday := weekday_map (now_weekday now) in
  ∃ s' cd' rec,
    d' = {| AllStats := Some s'; ClientData := Some cd';
            batches := Some (<[today_date := rec]> (default ∅ (batches d)));
            _lastBatch := _lastBatch (ensure_user_structure (Some d)) |} ∧
    TotalLoans s' = (AllStats (ensure_user_structure (Some d)) ≫= TotalLoans) ∧
    (∀ i x, cd !! i = Some x → sweep_outcome today_date today_weekday x ≠ Failed) ∧
    (∀ i, cd' !! i =
          (λ x, outcome_node x (sweep_outcome today_date today_weekday x)) <$> cd !! i) ∧
    (∀ i, rec !! i =
          cd !! i ≫= λ x, outcome_item (sweep_outcome today_date today_weekday x)).
Proof.
  intros Hcd Hgate Hrun. simpl.
  apply batch_mark_today_Ok in Hrun as [[Hsome _]|(_ & s' & cd' & rec & Hloop & ->)].
  { simpl in Hsome. rewrite Hgate in Hsome. by destruct Hsome. }
  simpl in Hloop. rewrite Hcd in Hloop. simpl in Hloop.
  pose proof (sweep_loop_spec (now_date now) (weekday_map (now_weekday now)) cd
                (default (mkStats None None None)
                   (match AllStats d with Some s => Some s | None => Some zero_stats end))
                cd ∅) as Hspec.
  rewrite Hloop in Hspec. destruct Hspec as (Hok & Hcd' & Hrec & Htotal).
  exists s', cd', rec. split_and!; [done| |done| |].
  - rewrite Htotal. by destruct (AllStats d).
  - intros i. rewrite Hcd'. destruct (cd !! i) as [x|]; [|done]. simpl.
    by destruct (sweep_outcome _ _ x).
  - intros i. rewrite Hrec. destruct (cd !! i) as [x|]; [|done]. simpl.
    rewrite lookup_empty. by destruct (sweep_outcome _ _ x).
Qed.
End SweepPointwise.

Section SweepLedger.
Implicit Types (d : Ledger) (node : Node) (stat : ClientStat).

Lemma credit_stat_credited stat : (credit_stat stat).1 = credited stat.
Proof. unfold credit_stat, credited. by case_leb. Qed.

Lemma clients_of_ensure d : clients_of (ensure_user_structure (Some d)) = clients_of d.
Proof. unfold clients_of. simpl. by destruct (ClientData d). Qed.

(** [batch_mark_today_run] on the document as it is stored. *)
Lemma batch_mark_today_run_stored now d d' :
  receipts_of d !! now_date now = None →
  batch_mark_today now (Some d) = Ok d' →
  let today_date := now_date now in
  let today_weekday := weekday_map (now_weekday now) in
  ∃ rec,
    receipts_of d' = <[today_date := rec]> (receipts_of d) ∧
    (∀ i x, clients_of d !! i = Some x →
            sweep_outcome today_date today_weekday x ≠ Failed) ∧
    (∀ i, clients_of d' !! i =
          (λ x, outcome_node x (sweep_outcome today_date today_weekday x))
            <$> clients_of d !! i) ∧
    (∀ i, rec !! i =
          clients_of d !! i ≫= λ x, outcome_item (sweep_outcome today_date today_weekday x)).
Proof.
  intros Hgate Hrun. simpl.
  destruct (batch_mark_today_run now
              (ensure_user_structure (Some d)) (clients_of d) d')
    as (s' & cd' & rec & -> & _ & Hok & Hcd & Hrec).
  - unfold clients_of. simpl. by destruct (ClientData d).
  - done.
  - unfold batch_mark_today in *. by rewrite ensure_user_structure_idem.
  - exists rec. done.
Qed.

(** X1: a sweep that finds no receipt for today and returns adds the
    receipt of today and leaves the other receipts; it adds and removes
    no client; the receipt names clients of the ledger only; and a
    client is left out of the receipt exactly when the round goes on
    without a change (the client has no stat, is not active, is not due
    on this day of the week, has a first entry dated today that is
    paid, or is past week 20), and the record of such a client is the
    one it had. *)
Theorem sweep_touches_only_the_due now d d' :
  receipts_of d !! now_date now = None →
  batch_mark_today now (Some d) = Ok d' →
  ∃ rec,
    receipts_of d' = <[now_date now := rec]> (receipts_of d) ∧
    (∀ i, is_Some (clients_of d' !! i) ↔ is_Some (clients_of d !! i)) ∧
    (∀ i, is_Some (rec !! i) → is_Some (clients_of d !! i)) ∧
    ∀ i node, clients_of d !! i = Some node →
      (rec !! i = None ↔
       sweep_skips (now_date now) (weekday_map (now_weekday now)) node) ∧
      (rec !! i = None → clients_of d' !! i = Some node).
Proof.
  intros Hgate Hrun.
  destruct (batch_mark_today_run_stored now d d' Hgate Hrun)
    as (rec & Hbs & Hok & Hcd & Hrec).
  exists rec. split_and!; [done| | |].
  - intros i. rewrite Hcd. by rewrite fmap_is_Some.
  - intros i. rewrite Hrec. destruct (clients_of d !! i); [by eexists|].
    by intros [? ?].
  - intros i node Hi. rewrite Hrec, Hcd, Hi. simpl.
    rewrite <- sweep_outcome_Skipped. specialize (Hok i node Hi).
    destruct (sweep_outcome _ _ node); simpl; (split; [split|]); done.
Qed.

(** The round of a client for which the sweep creates the next week. *)
Lemma batch_mark_today_created now d d' i node stat :
  receipts_of d !! now_date now = None →
  batch_mark_today now (Some d) = Ok d' →
  clients_of d !! i = Some node →
  Stat node = Some stat →
  status_lower stat = "active" →
  CollectionDay stat = Some (weekday_map (now_weekday now)) →
  truthy_key (find_today_entry (collectionData node) (now_date now)) = None →
  next_week_of (collectionData node) ≤ 20 →
  clients_of d' !! i =
    Some {| Stat := Some (credited stat);
            collectionData :=
              collectionData node
              ++ [(week_key (next_week_of (collectionData node)),
                   {| Amount := Some 600; date := Some (now_date now);
                      entryStatus := Some "paid" |})] |} ∧
  receipts_of d' !! now_date now ≫= (.!! i) =
    Some {| action := "created"; week := next_week_of (collectionData node) |}.
Proof.
  intros Hgate Hrun Hi Hstat Hactive Hday Hnone Hweek.
  destruct (batch_mark_today_run_stored now d d' Hgate Hrun)
    as (rec & Hbs & Hok & Hcd & Hrec).
  rewrite Hcd, Hbs, lookup_insert_eq, Hi. simpl. rewrite Hrec, Hi. simpl.
  unfold sweep_outcome. unfold status_lower in Hactive.
  rewrite Hstat, Hactive, Hday, Hnone. simpl.
  repeat (rewrite bool_decide_eq_true_2 by done; simpl).
  destruct (Z.ltb_spec 20 (next_week_of (collectionData node))); [lia|]. simpl.
  rewrite credit_stat_credited, DictFacts.set_fresh by apply next_week_fresh. done.
Qed.



(** When the sweep raises. *)
Lemma sweep_raises_iff_aux now d e :
  batch_mark_today now (Some d) = Raise e ↔
  e = ValueError ∧
  receipts_of d !! now_date now = None ∧
  ∃ i node, clients_of d !! i = Some node ∧
            sweep_fails (now_date now) (weekday_map (now_weekday now)) node.
Proof.
  unfold batch_mark_today. cbv zeta.
  change (default ∅ (ClientData (ensure_user_structure (Some d))))
    with (clients_of (ensure_user_structure (Some d))).
  change (default ∅ (batches (ensure_user_structure (Some d)))) with (receipts_of d).
  rewrite clients_of_ensure.
  generalize (default (mkStats None None None)
                (AllStats (ensure_user_structure (Some d)))).
  intros s0.
  destruct (receipts_of d !! now_date now) as [r|] eqn:Hgate.
  { split; [done|]. by intros (_ & [=] & _). }
  pose proof (sweep_loop_spec (now_date now) (weekday_map (now_weekday now))
                (clients_of d) s0 (clients_of d) ∅) as Hspec.
  destruct (sweep_loop _ _ _ _) as [[[s1 cd1] rec1]|e'].
  - destruct Hspec as (Hok & _). split; [done|].
    intros (_ & _ & i & node & Hi & Hfail%sweep_outcome_Failed). by destruct (Hok i node).
  - destruct Hspec as (-> & i & node & Hi & Hfail%sweep_outcome_Failed). simpl.
    split.
    + intros [= <-]. split_and!; [done..|]. by exists i, node.
    + by intros (-> & _).
Qed.

End SweepLedger.

(** ** The undo, client by client *)

Section LastDateSpec.
Context {A : Type}.
Implicit Types (bs : gmap string A).

(** [sorted(batches.keys())[-1]] is a key, and the greatest one. *)
Lemma last_date_Some bs k :
  last_date bs = Some k →
  is_Some (bs !! k) ∧ ∀ k', is_Some (bs !! k') → String.le k' k.
Proof.
  unfold last_date. set (l := fst <$> map_to_list bs). intros Hlast.
  pose proof (merge_sort_Permutation String.le l) as Hperm.
  assert (∀ x, x ∈ l ↔ is_Some (bs !! x)) as Hl.
  { intros x. unfold l. rewrite list_elem_of_fmap. split.
    - intros ([k1 v] & -> & Hkv%elem_of_map_to_list). by exists v.
    - intros [v Hv]. exists (x, v). split; [done|]. by apply elem_of_map_to_list. }
  split.
  - apply Hl. rewrite <- Hperm. by eapply last_Some_elem_of.
  - intros k' Hk'%Hl. rewrite <- Hperm in Hk'.
    destruct (StronglySorted_last String.le _ k
                (StronglySorted_merge_sort String.le l) Hlast k' Hk') as [->|]; done.
Qed.

(** A mapping that is not empty has a last date. *)
Lemma last_date_is_Some bs : bs ≠ ∅ → is_Some (last_date bs).
Proof.
  intros Hne. unfold last_date.
  destruct (last _) as [x|] eqn:Hlast; [by eexists|].
  apply last_None in Hlast.
  pose proof (merge_sort_Permutation String.le (fst <$> map_to_list bs)) as Hperm.
  rewrite Hlast in Hperm. apply Permutation_nil_l in Hperm.
  symmetry in Hperm. apply fmap_nil_inv in Hperm.
  by apply map_to_list_empty_iff in Hperm.
Qed.

(** The greatest key is the last date. *)
Lemma last_date_greatest bs k :
  is_Some (bs !! k) → (∀ k', is_Some (bs !! k') → String.le k' k) →
  last_date bs = Some k.
Proof.
  intros Hk Hmax. destruct (last_date_is_Some bs) as [k1 Hk1].
  { intros ->. rewrite lookup_empty in Hk. by destruct Hk. }
  rewrite Hk1. f_equal. apply last_date_Some in Hk1 as [Hin Hle].
  apply (anti_symm String.le); auto.
Qed.
End LastDateSpec.

Section UndoPointwise.
Implicit Types (d : Ledger) (node : Node) (stat : ClientStat).


(** The loop of the undo, client by client. *)
Lemma undo_loop_spec (record : gmap string ReceiptItem) s0 (cd0 : gmap string Node) :
  (∀ i, (map_fold undo_client (s0, cd0) record).2 !! i =
        match record !! i with
        | Some info => undone_node info <$> cd0 !! i
        | None => cd0 !! i
        end) ∧
  TotalLoans (map_fold undo_client (s0, cd0) record).1 = TotalLoans s0.
Proof.
  induction record as [|i info m Hi IH] using map_ind.
  { rewrite map_fold_empty. split; [|done]. intros i. by rewrite lookup_empty. }
  rewrite map_fold_insert_L; [|by intros; apply undo_client_comm|done].
  destruct (map_fold undo_client (s0, cd0) m) as [s1 cd1]. simpl in IH.
  destruct IH as [Hcd Htotal]. rewrite undo_client_outcome.
  pose proof (Hcd i) as Hcdi. rewrite Hi in Hcdi.
  split.
  - intros j. destruct (decide (i = j)) as [<-|Hne].
    + rewrite lookup_insert_eq, Hcdi. unfold undone_node.
      destruct (cd0 !! i) as [node|]; simpl; [|by rewrite Hcdi].
      destruct (undo_outcome info node) as [[n' r]|]; simpl; [|done].
      by rewrite lookup_insert_eq.
    + rewrite lookup_insert_ne by done. rewrite <- Hcd.
      destruct (cd1 !! i ≫= undo_outcome info) as [[n' r]|]; simpl; [|done].
      by rewrite lookup_insert_ne.
  - destruct (cd1 !! i ≫= undo_outcome info) as [[n' [|]]|]; done.
Qed.

(** What the undo returns, on every document. *)
Lemma undo_last_batch_spec stored :
  let curr := ensure_user_structure stored in
  (receipts_of curr = ∅ ∧ undo_last_batch stored = Ok curr) ∨
  ∃ last rec d',
    undo_last_batch stored = Ok d' ∧
    receipts_of curr !! last = Some rec ∧
    (∀ k, is_Some (receipts_of curr !! k) → String.le k last) ∧
    batches d' = Some (delete last (receipts_of curr)) ∧
    (∀ i, is_Some (clients_of d' !! i) ↔ is_Some (clients_of curr !! i)) ∧
    (∀ i, rec !! i = None → clients_of d' !! i = clients_of curr !! i) ∧
    (∀ i info, rec !! i = Some info →
               clients_of d' !! i = undone_node info <$> clients_of curr !! i) ∧
    (AllStats d' ≫= TotalLoans) = (AllStats curr ≫= TotalLoans).
Proof.
  simpl. unfold undo_last_batch. cbv zeta.
  change (default ∅ (batches (ensure_user_structure stored)))
    with (receipts_of (ensure_user_structure stored)).
  change (default ∅ (ClientData (ensure_user_structure stored)))
    with (clients_of (ensure_user_structure stored)).
  set (curr := ensure_user_structure stored).
  case_bool_decide as Hempty; [by left|]. right.
  destruct (last_date_is_Some _ Hempty) as [last Hlast]. rewrite Hlast.
  destruct (last_date_Some _ _ Hlast) as [[rec Hrec] Hmax].
  rewrite Hrec. simpl.
  pose proof (undo_loop_spec rec (default (mkStats None None None) (AllStats curr))
                (clients_of curr)) as [Hcd Htotal].
  destruct (map_fold undo_client _ rec) as [s1 cd1]. simpl in *.
  exists last, rec. eexists. split; [done|]. simpl.
  split_and!; [done..| | | |].
  - intros i. unfold clients_of at 1. simpl. rewrite Hcd.
    destruct (rec !! i); [|done]. by rewrite fmap_is_Some.
  - intros i Hi. unfold clients_of at 1. simpl. by rewrite Hcd, Hi.
  - intros i info Hi. unfold clients_of at 1. simpl. by rewrite Hcd, Hi.
  - rewrite Htotal. unfold curr. by destruct stored as [[[?|] ? ? ?]|].
Qed.

(** X5: the undo never raises.  On a document without receipts it
    returns the repaired document.  Otherwise it takes the receipt of
    the greatest date (as Python compares strings) out of [batches] and
    leaves the other receipts; it adds and removes no client; the
    clients that the receipt does not name keep their records, the
    others get what their round of the undo gives; [TotalLoans] is as
    it was. *)
Theorem undo_reverts_the_latest_receipt stored :
  let curr := ensure_user_structure stored in
  (receipts_of curr = ∅ ∧ undo_last_batch stored = Ok curr) ∨
  ∃ last rec d',
    undo_last_batch stored = Ok d' ∧
    receipts_of curr !! last = Some rec ∧
    (∀ k, is_Some (receipts_of curr !! k) → String.le k last) ∧
    batches d' = Some (delete last (receipts_of curr)) ∧
    (∀ i, is_Some (clients_of d' !! i) ↔ is_Some (clients_of curr !! i)) ∧
    (∀ i, rec !! i = None → clients_of d' !! i = clients_of curr !! i) ∧
    (∀ i info, rec !! i = Some info →
               clients_of d' !! i = undone_node info <$> clients_of curr !! i) ∧
    (AllStats d' ≫= TotalLoans) = (AllStats curr ≫= TotalLoans).
Proof. apply undo_last_batch_spec. Qed.

End UndoPointwise.

(** ** More on the reachable ledgers *)

Section Closure.
Implicit Types (node : Node) (stat : ClientStat).

Lemma settled_not_closed node stat :
  settled node → Stat node = Some stat → Status stat ≠ Some "Closed" →
  ∃ w, WeeksPaid stat = Some w ∧ 0 ≤ w < 20 ∧ Status stat = Some "Active".
Proof.
  intros (stat' & w & Hstat & Hw & Hcases) Hstat' Hclosed.
  rewrite Hstat in Hstat'. injection Hstat' as ->.
  destruct Hcases as [[? ?]|[? ?]]; [|done]. by exists w.
Qed.

Lemma closure_inv_new new_pid lend_date collection_day :
  closure_inv (new_client new_pid lend_date collection_day).
Proof.
  split; [apply client_inv_new|]. eexists _, 0. split_and!; [done..|].
  left. split; [done|lia].
Qed.

Lemma closure_inv_post amount date_str status node stat :
  closure_inv node → Stat node = Some stat → Status stat ≠ Some "Closed" →
  next_week_of (collectionData node) ≤ 20 →
  closure_inv (post_outcome amount date_str status node stat).1.
Proof.
  intros [Hinv Hset] Hstat Hclosed Hweek. split; [by apply client_inv_post|].
  destruct (settled_not_closed _ _ Hset Hstat Hclosed) as (w & Hw & Hrange & Hactive).
  unfold post_outcome. simpl. rewrite Hw. simpl.
  eexists _, (if bool_decide (status = "paid") then w + 1 else w).
  split; [done|]. destruct (bool_decide _); case_leb; simpl;
    (split; [done|]); (left; split; [done|lia]) || (right; split; [done|lia]).
Qed.

Lemma closure_inv_sweep today_date today_weekday node node' item closes :
  closure_inv node →
  sweep_outcome today_date today_weekday node = Touched node' item closes →
  closure_inv node'.
Proof.
  intros [Hinv Hset] Hout. split; [by eapply client_inv_sweep|].
  apply sweep_outcome_Touched in Hout as (stat & Hstat & Hactive & _ & Hstat' & _ & _).
  destruct (client_inv_active _ _ Hinv Hstat Hactive) as (w & Hw & Hrange & Hact).
  exists (credit_stat stat).1, (w + 1). split; [done|].
  unfold credit_stat. rewrite Hw. simpl.
  case_leb; simpl; (split; [done|]); [right|left]; (split; [done|lia]).
Qed.

Lemma closure_inv_undo info node node' reopens :
  closure_inv node → undo_outcome info node = Some (node', reopens) →
  closure_inv node'.
Proof.
  intros [Hinv Hset] Hout. split; [by eapply client_inv_undo|].
  apply undo_outcome_Some in Hout as (entry & stat & Hentry & Hstat & Hcases).
  destruct Hset as (stat' & w & Hstat' & Hw & Hsettled).
  rewrite Hstat in Hstat'. injection Hstat' as <-.
  assert (∀ coll',
            settled {| Stat := Some (rollback_stat (default 600 (Amount entry)) stat).1;
                       collectionData := coll' |}) as Hback.
  { intros coll'. eexists _, (Z.max 0 (w - 1)). split; [done|].
    unfold rollback_stat. rewrite Hw. simpl.
    case_bool_decide as Hclosed; simpl; (split; [done|]); left.
    - destruct Hsettled as [[? ?]|[? ->]]; [congruence|]. split; [done|lia].
    - destruct Hsettled as [[? ?]|[? ?]]; [|done]. split; [done|lia]. }
  destruct Hcases as [(_ & -> & _)|[(_ & -> & _)|[-> _]]]; [apply Hback..|].
  by exists stat, w.
Qed.

Lemma reachable_closure_inv allowed d :
  reachable_by allowed d → all_clients closure_inv d.
Proof.
  apply reachable_by_all_clients;
    eauto using closure_inv_new, closure_inv_post, closure_inv_sweep, closure_inv_undo.
Qed.

(** X7: in every reachable ledger every client is either Active with
    [0 <= WeeksPaid < 20] or Closed with [WeeksPaid = 20]. *)
Theorem reachable_closed_iff_twenty d client_id node :
  reachable d →
  clients_of d !! client_id = Some node →
  ∃ stat w, Stat node = Some stat ∧ WeeksPaid stat = Some w ∧
    ((Status stat = Some "Active" ∧ 0 ≤ w < 20) ∨
     (Status stat = Some "Closed" ∧ w = 20)).
Proof.
  intros Hreach Hnode.
  destruct (reachable_closure_inv _ _ Hreach) as (cd & Hcd & Hall).
  unfold clients_of in Hnode. rewrite Hcd in Hnode.
  by destruct (Hall client_id node Hnode) as [_ ?].
Qed.

(** X8: on a reachable ledger the sweep returns, at every moment: the
    keys of [collectionData] are keys [week<n>], which [int()] reads. *)
Theorem reachable_sweep_returns now d :
  reachable d → ∃ d', batch_mark_today now (Some d) = Ok d'.
Proof.
  intros Hreach.
  destruct (batch_mark_today now (Some d)) as [d'|e] eqn:Hrun; [by exists d'|].
  apply sweep_raises_iff_aux in Hrun as (_ & _ & i & node & Hnode & Hfail).
  destruct (reachable_closure_inv _ _ Hreach) as (cd & Hcd & Hall).
  unfold clients_of in Hnode. rewrite Hcd in Hnode.
  destruct (Hall i node Hnode) as [[_ [_ Hkeys]] _].
  destruct Hfail as (_ & k & entry & [Hk _] & _ & Hint).
  apply found_key_present, DictFacts.get_Some_keys in Hk. destruct (Hkeys k Hk) as (n & _ & ->).
  by rewrite int_of_week_key in Hint.
Qed.
End Closure.

(** ** The counters of [AllStats] and the counts of [/dashboard] *)

Section Counting.
Implicit Types (f : Node → Z) (m cd : gmap string Node) (node : Node) (d : Ledger).

Lemma tally_empty f : tally f ∅ = 0.
Proof. unfold tally. by rewrite map_fold_empty. Qed.

Lemma tally_insert_fresh f m i node :
  m !! i = None → tally f (<[i := node]> m) = tally f m + f node.
Proof.
  intros Hi. unfold tally. rewrite map_fold_insert_L; [done| |done].
  intros. lia.
Qed.

Lemma tally_insert f m i node node' :
  m !! i = Some node → tally f (<[i := node']> m) = tally f m - f node + f node'.
Proof.
  intros Hi. rewrite <- (insert_delete_id m i node) at 2 by done.
  rewrite <- (insert_delete_eq m).
  rewrite !tally_insert_fresh by apply lookup_delete_eq. lia.
Qed.

Lemma tally_nonneg f m : (∀ node, 0 ≤ f node) → 0 ≤ tally f m.
Proof.
  intros Hf. unfold tally. apply (map_fold_weak_ind (λ r _, 0 ≤ r)); [done|].
  intros i x m' r _ Hr. specialize (Hf x). lia.
Qed.

Lemma tally_le f g m : (∀ node, f node ≤ g node) → tally f m ≤ tally g m.
Proof.
  intros Hfg. induction m as [|i x m Hi IH] using map_ind.
  - by rewrite !tally_empty.
  - rewrite !tally_insert_fresh by done. specialize (Hfg x). lia.
Qed.

Lemma tally_plus f g m :
  tally (λ node, f node + g node) m = tally f m + tally g m.
Proof.
  induction m as [|i x m Hi IH] using map_ind.
  - by rewrite !tally_empty.
  - rewrite !tally_insert_fresh by done. lia.
Qed.

Lemma tally_has_stat_size m : tally has_stat m ≤ Z.of_nat (size m).
Proof.
  induction m as [|i x m Hi IH] using map_ind.
  - by rewrite tally_empty.
  - rewrite tally_insert_fresh, map_size_insert_None by done.
    assert (has_stat x ≤ 1) by (unfold has_stat; destruct (Stat x); lia). lia.
Qed.

(** The loop of [/dashboard] computes the four counts. *)
Lemma dashboard_loop_tally cd :
  dashboard_loop cd =
    (tally has_stat cd, tally (has_status "active") cd,
     tally (has_status "closed") cd, tally outstanding cd).
Proof.
  unfold dashboard_loop, tally.
  induction cd as [|i x m Hi Hfirst IH] using map_first_key_ind.
  - by rewrite !map_fold_empty.
  - rewrite !map_fold_insert_first_key by done. rewrite IH.
    unfold dashboard_client, has_stat, has_status, outstanding.
    destruct (Stat x) as [stat|]; [|by rewrite !Z.add_0_r].
    repeat case_bool_decide; try congruence; case_leb;
      repeat match goal with |- (_, _) = (_, _) => f_equal end; lia.
Qed.

Lemma has_status_credit (status : string) stat coll coll' :
  status_lower stat = "active" →
  has_status status {| Stat := Some (credit_stat stat).1; collectionData := coll' |} =
  has_status status {| Stat := Some stat; collectionData := coll |}
  + (if (credit_stat stat).2
     then (if bool_decide ("closed" = status) then 1 else 0)
          - (if bool_decide ("active" = status) then 1 else 0)
     else 0).
Proof.
  intros Hactive. unfold has_status, credit_stat. simpl. case_leb; simpl.
  - rewrite Hactive.
    change (status_lower (set_Status "Closed" _)) with "closed".
    repeat case_bool_decide; lia.
  - change (status_lower (set_paid _ _ stat)) with (status_lower stat). lia.
Qed.

Lemma has_status_rollback (status : string) amount stat coll coll' :
  has_status status {| Stat := Some (rollback_stat amount stat).1;
                       collectionData := coll' |} =
  has_status status {| Stat := Some stat; collectionData := coll |}
  + (if (rollback_stat amount stat).2
     then (if bool_decide ("active" = status) then 1 else 0)
          - (if bool_decide ("closed" = status) then 1 else 0)
     else 0).
Proof.
  unfold has_status, rollback_stat. cbn [Stat fst snd].
  change (Status (set_paid _ _ stat)) with (Status stat).
  destruct (decide (Status stat = Some "Closed")) as [Hclosed|Hclosed];
    [rewrite (bool_decide_eq_true_2 _ Hclosed)|rewrite (bool_decide_eq_false_2 _ Hclosed)];
    cbn [fst snd].
  - change (status_lower (set_Status "Active" _)) with "active".
    assert (status_lower stat = "closed") as -> by (unfold status_lower; by rewrite Hclosed).
    repeat case_bool_decide; lia.
  - change (status_lower (set_paid _ _ stat)) with (status_lower stat). lia.
Qed.

Lemma has_stat_Some stat coll : has_stat {| Stat := Some stat; collectionData := coll |} = 1.
Proof. done. Qed.

Lemma has_status_Some (status : string) stat coll :
  has_status status {| Stat := Some stat; collectionData := coll |} =
  if bool_decide (status_lower stat = status) then 1 else 0.
Proof. done. Qed.

Lemma counted_state_touched s cd i node node' (closes : bool) stat :
  counted_state s cd → cd !! i = Some node →
  Stat node = Some stat → status_lower stat = "active" →
  Stat node' = Some (credit_stat stat).1 → closes = (credit_stat stat).2 →
  counted_state (if closes then close_loan s else s) (<[i := node']> cd).
Proof.
  intros (Ht & Ha & Hc) Hi Hstat Hactive Hstat' ->.
  destruct node as [ostat coll], node' as [ostat' coll']. simpl in *. subst.
  unfold counted_state. rewrite !(tally_insert _ _ _ _ _ Hi).
  rewrite !(has_status_credit _ stat coll coll') by done.
  rewrite !has_stat_Some.
  destruct (credit_stat stat).2; simpl; rewrite ?Ht, ?Ha, ?Hc;
    repeat case_bool_decide; try done; split_and!; lia.
Qed.

Lemma counted_state_undone s cd i info node node' (reopens : bool) :
  counted_state s cd → cd !! i = Some node →
  undo_outcome info node = Some (node', reopens) →
  counted_state (if reopens then reopen_loan s else s) (<[i := node']> cd).
Proof.
  intros (Ht & Ha & Hc) Hi Hout.
  unfold counted_state. rewrite !(tally_insert _ _ _ _ _ Hi).
  revert Hout. unfold undo_outcome.
  destruct (Dict.get _ _) as [entry|]; [|done].
  destruct node as [[stat|] coll]; [|done]. cbn [Stat collectionData].
  repeat case_bool_decide; intros [= <- <-];
    rewrite ?(has_status_rollback _ _ stat coll), ?has_stat_Some;
    try (destruct (rollback_stat _ stat).2); simpl; rewrite ?Ht, ?Ha, ?Hc;
    repeat case_bool_decide; try done; split_and!; lia.
Qed.

(** The loop of the sweep keeps the counters in step with the
    clients. *)
Lemma sweep_loop_counted today_date today_weekday m s0 cd0 rec0 s1 cd1 rec1 :
  m ⊆ cd0 → counted_state s0 cd0 →
  sweep_loop today_date today_weekday m (Ok (s0, cd0, rec0)) = Ok (s1, cd1, rec1) →
  counted_state s1 cd1.
Proof.
  revert s1 cd1 rec1.
  induction m as [|i x m Hi IH] using map_ind; intros s1 cd1 rec1 Hsub Hcounted.
  { unfold sweep_loop. rewrite map_fold_empty. by intros [= <- <- <-]. }
  rewrite sweep_loop_insert by done.
  pose proof (sweep_loop_spec today_date today_weekday m s0 cd0 rec0) as Hspec.
  destruct (sweep_loop today_date today_weekday m (Ok (s0, cd0, rec0)))
    as [[[s2 cd2] rec2]|e]; [|done].
  destruct Hspec as (_ & Hcd & _).
  assert (cd2 !! i = Some x) as Hcdi.
  { rewrite Hcd, Hi. eapply lookup_weaken; [|done]. apply lookup_insert_eq. }
  assert (counted_state s2 cd2) as Hcounted2.
  { eapply IH; [|done..]. etrans; [|done]. by apply insert_subseteq. }
  unfold mbind, result_mbind, result_bind. rewrite sweep_client_outcome.
  destruct (sweep_outcome today_date today_weekday x) as [| |n' item c] eqn:Hout; simpl;
    [by intros [= <- <- <-]|done|].
  intros [= <- <- <-].
  apply sweep_outcome_Touched in Hout as (stat & Hstat & Hactive & _ & Hstat' & Hc & _).
  by eapply counted_state_touched.
Qed.

Lemma run_counted o d d' :
  all_clients client_inv d → counted d → run o (Some d) = Ok d' → counted d'.
Proof.
  intros (cd & Hcd & Hall) Hcounted Hrun. unfold counted, clients_of in *.
  rewrite Hcd in Hcounted. simpl in Hcounted.
  destruct o as [ld cday|cid amount ds status|now|]; cbn [run] in Hrun.
  - unfold txn_add_new_client in Hrun. rewrite Hcd in Hrun.
    destruct (AllStats d) as [s|]; [|done]. simpl in Hcounted.
    destruct (get_next_client_id_total cd) as (n & _ & Hid & Hfree & _).
    rewrite Hid in Hrun. injection Hrun as <-. simpl.
    destruct Hcounted as (Ht & Ha & Hc). unfold counted_state. simpl.
    rewrite !tally_insert_fresh by done. rewrite Ht, Ha, Hc.
    split_and!; [done..|]. unfold has_status. simpl. lia.
  - apply txn_add_entry_Ok in Hrun
      as (curr & s & cd' & node & stat & [= <-] & Hs & Hcd' & Hnode & Hstat
          & Hclosed & Hweek & ->).
    rewrite Hcd in Hcd'. injection Hcd' as <-. rewrite Hs in Hcounted. simpl in *.
    destruct (client_inv_not_closed _ _ (Hall cid node Hnode) Hstat Hclosed)
      as (w & Hw & Hrange & Hactive).
    destruct Hcounted as (Ht & Ha & Hc). unfold counted_state.
    rewrite !(tally_insert _ _ _ _ _ Hnode).
    destruct node as [ostat coll]. simpl in Hstat. subst ostat.
    assert (status_lower stat = "active") as Hlower.
    { unfold status_lower. by rewrite Hactive. }
    unfold post_outcome. cbn [fst snd collectionData].
    rewrite !has_status_Some, !has_stat_Some, Hlower.
    destruct (20 <=? _); cbn [AllStats ClientData].
    + change (status_lower (set_Status "Closed" _)) with "closed".
      simpl. rewrite Ht, Ha, Hc.
      repeat case_bool_decide; try done; split_and!; lia.
    + change (status_lower (set_paid _ _ stat)) with (status_lower stat).
      rewrite Hlower, Ht, Ha, Hc.
      repeat case_bool_decide; try done; split_and!; lia.
  - apply batch_mark_today_Ok in Hrun as [[_ ->]|(_ & s' & cd' & rec & Hloop & ->)].
    + simpl. rewrite Hcd. simpl. by destruct (AllStats d).
    + simpl in *. rewrite Hcd in Hloop. simpl in Hloop.
      eapply sweep_loop_counted; [done| |exact Hloop].
      by destruct (AllStats d).
  - apply undo_last_batch_Ok in Hrun as [[_ ->]|(last & record & _ & _ & ->)].
    + simpl. rewrite Hcd. simpl. by destruct (AllStats d).
    + simpl. rewrite Hcd. simpl.
      apply (undo_loop_invariant (λ st, counted_state st.1 st.2));
        [|by destruct (AllStats d)].
      intros j info [s1 cd1] Hcd1. rewrite undo_client_outcome. simpl in *.
      destruct (cd1 !! j) as [node|] eqn:Hj; [|done]. simpl.
      destruct (undo_outcome info node) as [[n' r]|] eqn:Hout; [|done]. simpl.
      by eapply counted_state_undone.
Qed.

Lemma reachable_counted allowed d : reachable_by allowed d → counted d.
Proof.
  induction 1 as [|o d d' Ho Hreach IH Hrun].
  - unfold counted, counted_state, clients_of. simpl. by rewrite tally_empty.
  - eapply run_counted; [|done..].
    eapply (reachable_by_all_clients allowed client_inv);
      eauto using client_inv_new, client_inv_post, client_inv_sweep, client_inv_undo.
Qed.
End Counting.

(** ** The read-only routes *)

Section DashboardRoute.
Implicit Types (d : Ledger) (users : gmap string Ledger).

Lemma truthy_key_Some (k : string) : k ≠ "" → truthy_key (Some k) = Some k.
Proof. by destruct k. Qed.

Lemma truthy_key_inv (o : option string) k :
  truthy_key o = Some k → o = Some k ∧ k ≠ "".
Proof. destruct o as [[|ch s]|]; [done| |done]. by intros [= <-]. Qed.

(** X9: on a reachable ledger [/dashboard] answers with the three
    counters that [AllStats] stores: the counts it takes over
    [ClientData] are the counters that the four operations keep. *)
Theorem dashboard_agrees_with_AllStats user users d :
  user ≠ "" → users !! user = Some d → reachable d →
  ∃ t a c up,
    AllStats d = Some (mkStats (Some t) (Some a) (Some c)) ∧
    0 ≤ up ∧
    get_dashboard (Some user) users =
      Reply 200 {| Dashboard.TotalLoans := t; Dashboard.ActiveLoans := a;
                   Dashboard.ClosedLoans := c;
                   Dashboard.WeeklyCollection := a * 600;
                   Dashboard.UpComingCollection := up |}.
Proof.
  intros Huser Hd Hreach.
  destruct (reachable_by_balanced _ _ Hreach) as (s & Hs & t & a & c & -> & _).
  destruct (reachable_closure_inv _ _ Hreach) as (cd & Hcd & _).
  pose proof (reachable_counted _ _ Hreach) as Hcounted.
  unfold counted, clients_of in Hcounted. rewrite Hs, Hcd in Hcounted.
  destruct Hcounted as (Ht & Ha & Hc). simpl in *.
  exists t, a, c, (tally outstanding cd). split_and!; [done| |].
  - apply tally_nonneg. intros node. unfold outstanding. destruct (Stat node); lia.
  - unfold get_dashboard. rewrite truthy_key_Some, Hd, Hcd by done.
    rewrite dashboard_loop_tally. by rewrite <- Ht, <- Ha, <- Hc.
Qed.

(** X10: whatever the document holds, an answer of [/dashboard] that
    is no error has the code 200, comes from a user whose document has
    [ClientData], and its counts are sound: none is negative,
    [ActiveLoans + ClosedLoans <= TotalLoans <= len(ClientData)],
    [WeeklyCollection] is 600 for each active loan and
    [UpComingCollection] is not negative. *)
Theorem dashboard_counts_are_bounded user users code r :
  get_dashboard user users = Reply code r →
  code = 200 ∧
  (∃ u d cd, user = Some u ∧ u ≠ "" ∧ users !! u = Some d ∧ ClientData d = Some cd ∧
             Dashboard.TotalLoans r ≤ Z.of_nat (size cd)) ∧
  0 ≤ Dashboard.ActiveLoans r ∧ 0 ≤ Dashboard.ClosedLoans r ∧
  Dashboard.ActiveLoans r + Dashboard.ClosedLoans r ≤ Dashboard.TotalLoans r ∧
  Dashboard.WeeklyCollection r = 600 * Dashboard.ActiveLoans r ∧
  0 ≤ Dashboard.UpComingCollection r.
Proof.
  unfold get_dashboard.
  destruct (truthy_key user) as [u|] eqn:Hu; [|done].
  apply truthy_key_inv in Hu as [-> Hu].
  destruct (users !! u) as [d|] eqn:Hd; [|done].
  destruct (ClientData d) as [cd|] eqn:Hcd; [|done].
  rewrite dashboard_loop_tally. intros [= <- <-]. simpl.
  assert (∀ status node, 0 ≤ has_status status node) as Hnonneg.
  { intros status node. unfold has_status. destruct (Stat node); [|done].
    case_bool_decide; lia. }
  split_and!; [done| |by apply tally_nonneg..| | |].
  - exists u, d, cd. split_and!; [done..|]. apply tally_has_stat_size.
  - rewrite <- tally_plus. apply tally_le. intros node.
    unfold has_status, has_stat. destruct (Stat node); [|done].
    repeat case_bool_decide; try lia. congruence.
  - unfold WEEKLY_AMOUNT. lia.
  - apply tally_nonneg. intros node. unfold outstanding. destruct (Stat node); lia.
Qed.
End DashboardRoute.

Section WeeklyRoute.
Implicit Types (cd : gmap string Node) (users : gmap string Ledger).

Lemma weekly_init_lookup (day : string) :
  weekly_init !! day =
    if bool_decide (day ∈ week_days) then Some {| count := 0; amount := 0 |} else None.
Proof.
  unfold weekly_init. case_bool_decide as Hday.
  - apply elem_of_list_to_map_1.
    + by apply (bool_decide_unpack _).
    + apply list_elem_of_fmap. by exists day.
  - apply not_elem_of_list_to_map_1. by rewrite <- list_fmap_compose, list_fmap_id.
Qed.

(** The loop of [/weekly], day by day. *)
Lemma weekly_loop_spec cd (day : string) :
  weekly_loop cd !! day =
    if bool_decide (day ∈ week_days)
    then Some {| count := tally (due_on day) cd;
                 amount := 600 * tally (due_on day) cd |}
    else None.
Proof.
  unfold weekly_loop, tally.
  induction cd as [|i x m Hi Hfirst IH] using map_first_key_ind.
  { rewrite !map_fold_empty. apply weekly_init_lookup. }
  rewrite !map_fold_insert_first_key by done.
  fold (weekly_loop m) in *. fold (tally (due_on day) m) in *.
  set (n := tally (due_on day) m) in *.
  unfold weekly_client, due_on.
  destruct (Stat x) as [stat|]; [|by rewrite Z.add_0_r].
  destruct (decide (status_lower stat = "active")) as [Ha|Ha].
  2: { rewrite !(bool_decide_eq_false_2 _ Ha). simpl. by rewrite Z.add_0_r. }
  rewrite !(bool_decide_eq_true_2 _ Ha). simpl.
  destruct (CollectionDay stat) as [cday|].
  2: { rewrite (bool_decide_eq_false_2 (None = Some day)) by done.
       by rewrite Z.add_0_r. }
  destruct (decide (cday = day)) as [->|Hne].
  - rewrite (bool_decide_eq_true_2 (Some day = Some day)) by done.
    rewrite IH. destruct (bool_decide (day ∈ week_days)) eqn:Hday.
    + rewrite lookup_insert_eq. simpl. unfold WEEKLY_AMOUNT. f_equal. f_equal; lia.
    + done || by rewrite IH.
  - rewrite (bool_decide_eq_false_2 (Some cday = Some day)) by congruence.
    rewrite Z.add_0_r.
    destruct (weekly_loop m !! cday); [by rewrite lookup_insert_ne|done].
Qed.

(** X11: [/weekly] answers, for a user whose document has
    [ClientData], with the seven days of the week and no other key;
    the count of a day is the number of clients with a stat that are
    active and have this [CollectionDay], and the amount is 600 times
    the count. *)
Theorem weekly_counts_the_active_clients user users d cd :
  user ≠ "" → users !! user = Some d → ClientData d = Some cd →
  ∃ r, get_weekly (Some user) users = Reply 200 r ∧
       ∀ day, r !! day =
              if bool_decide (day ∈ week_days)
              then Some {| count := tally (due_on day) cd;
                           amount := 600 * tally (due_on day) cd |}
              else None.
Proof.
  intros Huser Hd Hcd. unfold get_weekly.
  rewrite truthy_key_Some, Hd, Hcd by done.
  eexists. split; [done|]. apply weekly_loop_spec.
Qed.
End WeeklyRoute.

Section TodayRoute.
Implicit Types (cd : gmap string Node) (users : gmap string Ledger) (node : Node).

Lemma eligible_default today_weekday node :
  eligible today_weekday node ↔
  status_lower (default empty_stat (Stat node)) = "active" ∧
  CollectionDay (default empty_stat (Stat node)) = Some today_weekday.
Proof.
  unfold eligible. destruct (Stat node) as [stat|]; simpl.
  - split; [by intros (? & [= <-] & ?)|]. intros ?. by exists stat.
  - split; [by intros (? & [=] & _)|]. by intros [[=] _].
Qed.

Lemma paid_today_true (coll : list (string * Entry)) today_date :
  paid_today coll today_date = true ↔
  ∃ k e, (k, e) ∈ coll ∧ date e = Some today_date ∧ entry_paid e.
Proof.
  unfold paid_today, entry_paid. rewrite existsb_exists. split.
  - intros ([k e] & Hin%list_elem_of_In & [Hd Hp]%andb_prop). simpl in *.
    apply bool_decide_eq_true in Hd, Hp. by exists k, e.
  - intros (k & e & Hin%list_elem_of_In & Hd & Hp). exists (k, e).
    split; [done|]. simpl. by rewrite !bool_decide_eq_true_2.
Qed.

(** The loop of [/today]. *)
Lemma today_loop_spec today_date today_weekday cd :
  ∃ due collected pending customers,
    today_loop today_date today_weekday cd = (due, collected, pending, customers) ∧
    due = 600 * Z.of_nat (length customers) ∧
    due = collected + pending ∧
    collected =
      600 * Z.of_nat (length (filter (λ c, Today.status c = "paid") customers)) ∧
    NoDup (Today.clientId <$> customers) ∧
    ∀ c, c ∈ customers ↔ listed today_date today_weekday cd c.
Proof.
  unfold today_loop.
  induction cd as [|i x m Hi Hfirst IH] using map_first_key_ind.
  { rewrite map_fold_empty. exists 0, 0, 0, []. split_and!; [done..|apply NoDup_nil_2|].
    intros c. split; [by intros ?%not_elem_of_nil|].
    intros (node & Hnode & _). by rewrite lookup_empty in Hnode. }
  rewrite map_fold_insert_first_key by done.
  destruct IH as (due & collected & pending & customers & -> & Hdue & Hsum & Hcoll
                  & Hnodup & Hlisted).
  assert (∀ c, Today.clientId c = i → c ∉ customers) as Hfresh.
  { intros c <- (node & Hnode & _)%Hlisted. congruence. }
  assert (∀ c, Today.clientId c ≠ i →
               listed today_date today_weekday (<[i := x]> m) c ↔
               listed today_date today_weekday m c) as Hother.
  { intros c Hne. unfold listed. by rewrite lookup_insert_ne. }
  unfold today_client.
  destruct (decide (status_lower (default empty_stat (Stat x)) = "active" ∧
                    CollectionDay (default empty_stat (Stat x)) = Some today_weekday))
    as [Hel|Hel]; rewrite <- eligible_default in Hel.
  - pose proof Hel as [Hactive Hday]%eligible_default.
    rewrite (bool_decide_eq_true_2 _ Hactive), (bool_decide_eq_true_2 _ Hday). simpl.
    set (s := if paid_today (collectionData x) today_date then "paid" else "pending").
    exists (due + 600),
           (if paid_today (collectionData x) today_date then collected + 600 else collected),
           (if paid_today (collectionData x) today_date then pending else pending + 600),
           (customers ++ [Today.mkCustomer i 600 s]).
    split_and!.
    + unfold s. by destruct (paid_today _ _).
    + rewrite length_app. simpl. lia.
    + destruct (paid_today _ _); lia.
    + rewrite filter_app, length_app. unfold s.
      destruct (paid_today _ _).
      * rewrite filter_cons_True by done. simpl. lia.
      * rewrite filter_cons_False by done. simpl. lia.
    + rewrite fmap_app. apply NoDup_app. split_and!; [done| |apply NoDup_singleton].
      intros j Hj ->%list_elem_of_singleton.
      apply list_elem_of_fmap in Hj as (c & Hc & Hin). by apply (Hfresh c).
    + intros c. rewrite elem_of_app, list_elem_of_singleton.
      destruct (decide (Today.clientId c = i)) as [Hc|Hc].
      * split.
        -- intros [Hin| ->]; [by apply Hfresh in Hin|].
           exists x. simpl. by rewrite lookup_insert_eq.
        -- intros (node & Hnode & _ & Hamount & Hstatus). right.
           rewrite Hc, lookup_insert_eq in Hnode. injection Hnode as <-.
           destruct c as [cid a st]. simpl in *. by subst.
      * rewrite Hother by done. rewrite <- Hlisted. split; [|by left].
        intros [?| ->]; [done|]. by destruct Hc.
  - exists due, collected, pending, customers. split_and!; [|done..|].
    + rewrite eligible_default in Hel. rename Hel into Hel'.
      destruct (decide (status_lower (default empty_stat (Stat x)) = "active")) as [Ha|Ha].
      * rewrite (bool_decide_eq_true_2 _ Ha). simpl.
        rewrite bool_decide_eq_false_2; [done|]. intros Hd. by apply Hel'.
      * by rewrite (bool_decide_eq_false_2 _ Ha).
    + intros c. destruct (decide (Today.clientId c = i)) as [Hc|Hc].
      * split; [by intros ?%Hfresh|].
        intros (node & Hnode & Hel' & _).
        rewrite Hc, lookup_insert_eq in Hnode. by injection Hnode as <-.
      * by rewrite Hother.
Qed.

(** What [/today] answers. *)
Lemma today_lists_the_due_clients_aux now user users :
  user ≠ "" →
  ∃ r,
    get_today now (Some user) users = Reply 200 r ∧
    Today.date r = now_date now ∧
    Today.weekday r = weekday_map (now_weekday now) ∧
    Today.due (Today.summary_of r) = 600 * Z.of_nat (length (Today.customers r)) ∧
    Today.collected (Today.summary_of r) =
      600 * Z.of_nat (length (filter (λ c, Today.status c = "paid") (Today.customers r))) ∧
    Today.due (Today.summary_of r) =
      Today.collected (Today.summary_of r) + Today.pending (Today.summary_of r) ∧
    NoDup (Today.clientId <$> Today.customers r) ∧
    ∀ c, c ∈ Today.customers r ↔
         listed (now_date now) (weekday_map (now_weekday now))
                (default ∅ (users !! user ≫= ClientData)) c.
Proof.
  intros Huser. unfold get_today. rewrite truthy_key_Some by done.
  destruct (today_loop_spec (now_date now) (weekday_map (now_weekday now))
              (default ∅ (users !! user ≫= ClientData)))
    as (due & collected & pending & customers & -> & Hdue & Hsum & Hcoll
        & Hnodup & Hlisted).
  eexists. split; [done|]. simpl. done.
Qed.

(** X12: [/today] answers every user that is given with the code 200,
    the date and the day of the week; a user without a document or
    without [ClientData] gets the empty list.  The list names each
    client that is active and due on this day of the week once, with
    the amount 600 and the status [paid] when some entry of the client
    dated today is paid, [pending] otherwise, and names no other
    client; [due] is 600 for each client of the list, [collected] is
    600 for each paid one, and [due = collected + pending]. *)
Theorem today_lists_the_due_clients now user users :
  user ≠ "" →
  ∃ r,
    get_today now (Some user) users = Reply 200 r ∧
    Today.date r = now_date now ∧
    Today.weekday r = weekday_map (now_weekday now) ∧
    Today.due (Today.summary_of r) = 600 * Z.of_nat (length (Today.customers r)) ∧
    Today.collected (Today.summary_of r) =
      600 * Z.of_nat (length (filter (λ c, Today.status c = "paid") (Today.customers r))) ∧
    Today.due (Today.summary_of r) =
      Today.collected (Today.summary_of r) + Today.pending (Today.summary_of r) ∧
    NoDup (Today.clientId <$> Today.customers r) ∧
    ∀ c, c ∈ Today.customers r ↔
         listed (now_date now) (weekday_map (now_weekday now))
                (default ∅ (users !! user ≫= ClientData)) c.
Proof. apply today_lists_the_due_clients_aux. Qed.

(** X13: after a sweep that found no receipt for today and returned,
    [/today] at the same moment lists as [pending] only clients that
    the sweep passed over for being past week 20: every other client
    that is due today has a paid entry dated today.  The keys of each
    [collectionData] are distinct, as the keys of a mapping are. *)
Theorem today_after_sweep_pending_only_full now user users d d' r :
  (∀ i node, clients_of d !! i = Some node → NoDup (Dict.keys (collectionData node))) →
  receipts_of d !! now_date now = None →
  batch_mark_today now (Some d) = Ok d' →
  get_today now (Some user) (<[user := d']> users) = Reply 200 r →
  ∀ c, c ∈ Today.customers r → Today.status c = "pending" →
       ∃ node, clients_of d !! Today.clientId c = Some node ∧
               clients_of d' !! Today.clientId c = Some node ∧
               over_capacity (now_date now) node.
Proof.
  intros Hdistinct Hgate Hrun Hget c Hc Hpending.
  destruct (truthy_key (Some user)) as [u|] eqn:Hu.
  2: { unfold get_today in Hget. by rewrite Hu in Hget. }
  apply truthy_key_inv in Hu as [[= <-] Huser].
  destruct (today_lists_the_due_clients_aux now user (<[user := d']> users) Huser)
    as (r' & Hget' & _ & _ & _ & _ & _ & _ & Hlisted).
  rewrite Hget in Hget'. injection Hget' as <-.
  apply Hlisted in Hc as (node' & Hnode' & Hel & _ & Hstatus).
  rewrite lookup_insert_eq in Hnode'. simpl in Hnode'.
  change (default ∅ (ClientData d')) with (clients_of d') in Hnode'.
  destruct (paid_today (collectionData node') (now_date now)) eqn:Hpaid.
  { rewrite Hstatus in Hpending. done. }
  assert (¬ ∃ k e, (k, e) ∈ collectionData node' ∧ date e = Some (now_date now) ∧
                   entry_paid e) as Hnot.
  { rewrite <- paid_today_true. by rewrite Hpaid. }
  destruct (batch_mark_today_run_stored now d d' Hgate Hrun)
    as (rec & _ & Hok & Hcd & _).
  rewrite Hcd in Hnode'.
  destruct (clients_of d !! Today.clientId c) as [node|] eqn:Hnode; [|done].
  simpl in Hnode'. injection Hnode' as <-.
  specialize (Hok _ _ Hnode). specialize (Hdistinct _ _ Hnode).
  exists node.
  destruct (sweep_outcome (now_date now) (weekday_map (now_weekday now)) node)
    as [| |n' item closes] eqn:Hout; [|done|]; simpl in *.
  - rewrite Hcd, Hnode. simpl. rewrite Hout. simpl. split_and!; [done..|].
    apply sweep_outcome_Skipped in Hout as [Hne|[(k & e & [Hk He] & Hp)|Hcap]];
      [done| |done].
    destruct Hnot. exists k, e. split_and!; [by apply DictFacts.get_Some_elem| |done].
    apply find_today_entry_Some in Hk as (_ & e' & Hin & Hdate).
    apply DictFacts.elem_get in Hin; [|done]. congruence.
  - destruct Hnot.
    apply sweep_outcome_Touched in Hout
      as (stat & _ & _ & _ & _ & _ &
          [(k & n & Hk & _ & _ & Hcoll & _)|(_ & _ & Hcoll & _)]).
    + exists k, (set_entryStatus "paid"
                   (default empty_entry (Dict.get k (collectionData node)))).
      split_and!; [rewrite Hcoll; apply DictFacts.get_Some_elem, DictFacts.get_set_eq| |done].
      apply find_today_entry_Some in Hk as (_ & e' & Hin & Hdate).
      apply DictFacts.elem_get in Hin; [|done]. by rewrite Hin.
    + eexists _, _.
      split_and!; [rewrite Hcoll; apply DictFacts.get_Some_elem, DictFacts.get_set_eq|done..].
Qed.
End TodayRoute.

(** ** Login, keys and ids *)

Section Login.
Implicit Types (s email : string) (login_details : gmap string LoginDetail).

Lemma replace_char_idem (a b : ascii) s :
  a ≠ b → replace_char a b (replace_char a b s) = replace_char a b s.
Proof.
  intros Hab. induction s as [|c r IH]; simpl; [done|]. rewrite IH. f_equal.
  destruct (Ascii.eqb_spec c a) as [->|Hc]; simpl.
  - destruct (Ascii.eqb_spec b a); congruence.
  - destruct (Ascii.eqb_spec c a); congruence.
Qed.

Lemma replace_char_absent (a b : ascii) s :
  a ≠ b → all_chars (λ c, negb (Ascii.eqb c a)) (replace_char a b s) = true.
Proof.
  intros Hab. induction s as [|c r IH]; simpl; [done|]. rewrite IH, andb_true_r.
  destruct (Ascii.eqb_spec c a) as [->|Hc]; simpl.
  - destruct (Ascii.eqb_spec b a); [congruence|done].
  - destruct (Ascii.eqb_spec c a); [congruence|done].
Qed.

Lemma truthy_key_replace_char (a b : ascii) s :
  truthy_key (Some (replace_char a b s)) = replace_char a b <$> truthy_key (Some s).
Proof. by destruct s. Qed.

(** X14: [resolve_user] looks the address up under a key without a
    dot, every [.] being read as [_]: an address and the address with
    [_] for each of its dots get the same answer, so that addresses
    that differ only in [.] against [_] share a login.  An answer that
    is no error has the code 200 and a user name that is not empty. *)
Theorem resolve_user_reads_dots_as_underscores email login_details :
  resolve_user (Some email) login_details =
    resolve_user (Some (replace_char "." "_" email)) login_details ∧
  all_chars (λ c, negb (Ascii.eqb c ".")) (replace_char "." "_" email) = true ∧
  ∀ code user_id,
    resolve_user (Some email) login_details = Reply code user_id →
    code = 200 ∧ user_id ≠ "" ∧
    ∃ data, login_details !! replace_char "." "_" email = Some data ∧
            userName data = Some user_id.
Proof.
  split_and!.
  - unfold resolve_user. rewrite truthy_key_replace_char.
    destruct (truthy_key (Some email)) as [e|] eqn:He; [|done]. simpl.
    apply truthy_key_inv in He as [[= <-] _].
    by rewrite replace_char_idem.
  - by apply replace_char_absent.
  - intros code user_id. unfold resolve_user.
    destruct (truthy_key (Some email)) as [e|] eqn:He; [|done].
    apply truthy_key_inv in He as [[= <-] _]. simpl.
    destruct (login_details !! _) as [data|]; [|done].
    destruct (truthy_key (userName data)) as [u|] eqn:Hu; [|done].
    apply truthy_key_inv in Hu as [Hu Hne]. intros [= <- <-].
    split_and!; [done..|]. by exists data.
Qed.
End Login.

Section Keys.
Implicit Types (cd : gmap string Node) (d : Ledger).

(** X15: the keys the code writes are read back as the numbers they
    were made of: [int(f"week{n}".replace("week", ""))] is [n], in the
    sweep and in the two scans for the next week, and [int(f"P{n}"[1:])]
    is [n] in [/nextClientId]; different numbers give different
    keys. *)
Theorem keys_read_back (n : Z) :
  Py.int_of_str (Py.remove_all "week" (week_key n)) = Some n ∧
  week_of_key (week_key n) = Some n ∧
  Py.startswith "P" (client_key n) = true ∧
  Py.int_of_str (Py.tail (client_key n)) = Some n ∧
  ∀ m, (week_key n = week_key m → n = m) ∧ (client_key n = client_key m → n = m).
Proof.
  destruct (client_key_number n) as [Hp Hn].
  split_and!; [apply int_of_week_key|apply week_of_key_week_key|done..|].
  intros m. split; [apply (inj week_key)|apply (inj client_key)].
Qed.

Lemma max_client_number_nonneg cd : 0 ≤ max_client_number cd.
Proof.
  unfold max_client_number. apply (map_fold_weak_ind (λ r _, 0 ≤ r)); [done|].
  intros k node m r _ Hr. destruct (Py.startswith "P" k); [|done].
  destruct (Py.int_of_str _) as [n|]; [|done]. by destruct (Z.ltb_spec r n); lia.
Qed.

(** The number of every key that the loop of the route reads is at
    most the largest. *)
Lemma max_client_number_ge cd k n :
  is_Some (cd !! k) → Py.startswith "P" k = true →
  Py.int_of_str (Py.tail k) = Some n → n ≤ max_client_number cd.
Proof.
  unfold max_client_number. revert k n.
  apply (map_fold_weak_ind (λ r (m : gmap string Node),
    ∀ k n, is_Some (m !! k) → Py.startswith "P" k = true →
           Py.int_of_str (Py.tail k) = Some n → n ≤ r)).
  - intros k n. rewrite lookup_empty. by intros [? ?].
  - intros k' node m r Hk' IH k n Hk Hp Hn.
    destruct (decide (k = k')) as [->|Hne].
    + rewrite Hp, Hn. destruct (Z.ltb_spec r n); lia.
    + rewrite lookup_insert_ne in Hk by done. specialize (IH k n Hk Hp Hn).
      destruct (Py.startswith "P" k'); [|done].
      destruct (Py.int_of_str (Py.tail k')) as [n'|]; [|done].
      destruct (Z.ltb_spec r n'); lia.
Qed.

(** X16: the id that [/nextClientId] answers is never the key of a
    client, whatever the keys of [ClientData] are; the id that
    [get_next_client_id] allocates for the same [ClientData] is [P<n>]
    with [n] at most the number of the route's id, and the two are the
    same id exactly when every [P<j>] below the route's is taken. *)
Theorem next_client_id_route_is_free d :
  ∃ n m,
    get_next_client_id (clients_of d) = Some (client_key n) ∧
    get_next_client_id_route (Some d) = client_key m ∧
    clients_of d !! client_key m = None ∧
    1 ≤ n ≤ m ∧
    (n = m ↔ ∀ j, 1 ≤ j < m → is_Some (clients_of d !! client_key j)).
Proof.
  destruct (get_next_client_id_total (clients_of d)) as (n & Hn & Hid & Hfree & Hused).
  assert (∃ m, get_next_client_id_route (Some d) = client_key m ∧
               clients_of d !! client_key m = None ∧ 1 ≤ m) as (m & Hroute & Hm & Hpos).
  { unfold get_next_client_id_route, clients_of.
    destruct (ClientData d) as [cd|]; simpl; [|by exists 1].
    case_bool_decide as Hempty; [subst; by exists 1|].
    exists (max_client_number cd + 1). split; [done|].
    pose proof (max_client_number_nonneg cd). split; [|lia].
    destruct (cd !! client_key (max_client_number cd + 1)) as [node|] eqn:Hnode; [|done].
    destruct (client_key_number (max_client_number cd + 1)) as [Hp Hint].
    assert (max_client_number cd + 1 ≤ max_client_number cd); [|lia].
    by eapply max_client_number_ge. }
  exists n, m. split_and!; [done..|lia| |].
  - destruct (Z.le_gt_cases n m) as [|Hgt]; [done|].
    destruct (Hused m) as [? Hin]; [lia|]. congruence.
  - split.
    + intros <-. done.
    + intros Hall. destruct (Z.lt_trichotomy n m) as [Hlt|[->|Hgt]]; [|done|].
      * destruct (Hall n) as [? Hin]; [lia|]. congruence.
      * destruct (Hused m) as [? Hin]; [lia|]. congruence.
Qed.

(** X17: [find_today_entry] returns the key of the first entry, in
    the order of the mapping, whose date is today, and [None] exactly
    when no entry is dated today. *)
Theorem find_today_entry_first_match (coll : list (string * Entry)) today_date :
  (∀ k, find_today_entry coll today_date = Some k ↔
        ∃ before e after,
          coll = before ++ (k, e) :: after ∧ date e = Some today_date ∧
          ∀ k' e', (k', e') ∈ before → date e' ≠ Some today_date) ∧
  (find_today_entry coll today_date = None ↔
   ∀ k e, (k, e) ∈ coll → date e ≠ Some today_date).
Proof.
  unfold find_today_entry. induction coll as [|[k0 e0] coll [IHs IHn]]; simpl.
  { split.
    - intros k. split; [done|]. intros (before & e & after & Heq & _).
      by destruct before.
    - split; [|done]. intros _ k e ?%not_elem_of_nil. done. }
  case_bool_decide as Hdate; simpl in *.
  - split.
    + intros k. split.
      * intros [= <-]. exists [], e0, coll. split_and!; [done..|].
        intros k' e' ?%not_elem_of_nil. done.
      * intros (before & e & after & Heq & He & Hbefore).
        destruct before as [|[k1 e1] before]; simpl in Heq.
        -- by injection Heq as -> _ _.
        -- injection Heq as <- <- _. destruct (Hbefore k0 e0); [left|done].
    + split; [done|]. intros Hall. destruct (Hall k0 e0); [left|done].
  - split.
    + intros k. rewrite IHs. split.
      * intros (before & e & after & -> & He & Hbefore).
        exists ((k0, e0) :: before), e, after. split_and!; [done..|].
        intros k' e' [[= -> ->]|Hin]%elem_of_cons; [done|by eapply Hbefore].
      * intros (before & e & after & Heq & He & Hbefore).
        destruct before as [|[k1 e1] before]; simpl in Heq.
        -- injection Heq as <- <- _. done.
        -- injection Heq as <- <- ->. exists before, e, after.
           split_and!; [done..|]. intros k' e' Hin. apply (Hbefore k' e'). by right.
    + rewrite IHn. split.
      * intros Hall k e [[= -> ->]|Hin]%elem_of_cons; [done|by eapply Hall].
      * intros Hall k e Hin. apply (Hall k e). by right.
Qed.
End Keys.

Section AbsentDocument.

(** X18: for a user whose document is absent, [addClient] and
    [postEntry] raise and the store stays without the document, while
    the sweep and the undo write the repaired document
    ([ensure_user_structure]), the sweep with an empty receipt for
    today; after that sweep [addClient] returns and registers [P1]. *)
Theorem absent_document now lend_date collection_day client_id amount date_str status :
  addClient lend_date collection_day None = None ∧
  postEntry client_id amount date_str status None = None ∧
  undoLastBatch None = Some (ensure_user_structure None) ∧
  sweepToday now None =
    Some {| AllStats := Some zero_stats; ClientData := Some ∅;
            batches := Some {[ now_date now := ∅ ]}; _lastBatch := Some None |} ∧
  addClient lend_date collection_day (sweepToday now None) =
    Some {| AllStats := Some (mkStats (Some 1) (Some 1) (Some 0));
            ClientData := Some {[ "P1" := new_client "P1" lend_date collection_day ]};
            batches := Some {[ now_date now := ∅ ]}; _lastBatch := Some None |}.
Proof.
  by split_and!.
Qed.
End AbsentDocument.

Section Blanks.
Implicit Types (users : gmap string Ledger).

(** X19: the routes of the sweep and of the undo work on the document
    under the user's name without its blanks, [/addNewClient],
    [/addEntry] and the reading routes on the document under the name
    as it is given.  For a name with a blank these are two documents:
    a sweep or an undo requested for this name leaves the document
    that holds the clients registered under it as it was, and [/today]
    and [/dashboard] answer after the sweep what they answered
    before. *)
Theorem blanks_split_the_user now user users :
  Py.remove_all " " user ≠ user →
  batch_mark_today_store now user users !! user = users !! user ∧
  undo_last_batch_store user users !! user = users !! user ∧
  batch_mark_today_store now user users !! Py.remove_all " " user =
    sweepToday now (users !! Py.remove_all " " user) ∧
  (∀ lend_date collection_day,
     add_new_client_store user lend_date collection_day users !! user =
       addClient lend_date collection_day (users !! user)) ∧
  get_today now (Some user) (batch_mark_today_store now user users) =
    get_today now (Some user) users ∧
  get_dashboard (Some user) (batch_mark_today_store now user users) =
    get_dashboard (Some user) users.
Proof.
  intros Hne.
  assert (batch_mark_today_store now user users !! user = users !! user) as Hsame.
  { unfold batch_mark_today_store, on_user. by rewrite lookup_partial_alter_ne. }
  split_and!.
  - done.
  - unfold undo_last_batch_store, on_user. by rewrite lookup_partial_alter_ne.
  - unfold batch_mark_today_store, on_user. by rewrite lookup_partial_alter_eq.
  - intros ld cday. unfold add_new_client_store, on_user.
    by rewrite lookup_partial_alter_eq.
  - unfold get_today. destruct (truthy_key (Some user)) as [u|] eqn:Hu; [|done].
    apply truthy_key_inv in Hu as [[= <-] _]. by rewrite Hsame.
  - unfold get_dashboard. destruct (truthy_key (Some user)) as [u|] eqn:Hu; [|done].
    apply truthy_key_inv in Hu as [[= <-] _]. by rewrite Hsame.
Qed.
End Blanks.

(** ** The sweep and [postEntry] *)

Section SweepAndPost.
Implicit Types (d : Ledger) (node : Node) (stat : ClientStat).
Implicit Types (coll : list (string * Entry)).

Lemma find_today_entry_app coll coll' today_date :
  find_today_entry coll today_date = None →
  find_today_entry (coll ++ coll') today_date = find_today_entry coll' today_date.
Proof.
  unfold find_today_entry. induction coll as [|[k e] coll IH]; simpl; [done|].
  by case_bool_decide.
Qed.

Lemma status_lower_not_Closed stat :
  status_lower stat = "active" → Status stat ≠ Some "Closed".
Proof. unfold status_lower. intros Hactive Hclosed. by rewrite Hclosed in Hactive. Qed.

(** X20: for a client that is active, due today, without an entry
    dated today and with a next week of at most 20, the sweep does to
    the record of the client what [txn_add_entry] does for a payment
    of 600 dated today with the status [paid], which returns on the
    same document. *)
Theorem sweep_creates_what_postEntry_posts now d d' i node stat all_stats :
  receipts_of d !! now_date now = None →
  batch_mark_today now (Some d) = Ok d' →
  AllStats d = Some all_stats →
  clients_of d !! i = Some node →
  Stat node = Some stat →
  status_lower stat = "active" →
  CollectionDay stat = Some (weekday_map (now_weekday now)) →
  truthy_key (find_today_entry (collectionData node) (now_date now)) = None →
  next_week_of (collectionData node) ≤ 20 →
  ∃ posted,
    txn_add_entry i 600 (now_date now) "paid" (Some d) = Ok posted ∧
    clients_of d' !! i = clients_of posted !! i.
Proof.
  intros Hgate Hrun Hstats Hi Hstat Hactive Hday Hnone Hweek.
  destruct (batch_mark_today_created now d d' i node stat) as [Hnode' _]; [done..|].
  unfold txn_add_entry, clients_of in *. rewrite Hstats.
  destruct (ClientData d) as [cd|]; [|done]. simpl in Hi. rewrite Hi, Hstat.
  rewrite bool_decide_eq_false_2 by by apply status_lower_not_Closed.
  destruct (Z.ltb_spec 20 (next_week_of (collectionData node))); [lia|].
  eexists. split; [done|]. simpl. rewrite lookup_insert_eq, Hnode'.
  rewrite DictFacts.set_fresh by apply next_week_fresh.
  unfold credited. simpl. by case_leb.
Qed.

(** X21: a payment posted as [paid] for today, for a client that had
    no entry dated today, is not collected again: the sweep of today
    that follows leaves the record of this client as [postEntry] wrote
    it and does not name the client in its receipt. *)
Theorem posted_today_is_not_swept now d d1 d2 client_id amount :
  txn_add_entry client_id amount (now_date now) "paid" (Some d) = Ok d1 →
  (∀ node, clients_of d !! client_id = Some node →
           find_today_entry (collectionData node) (now_date now) = None) →
  receipts_of d !! now_date now = None →
  batch_mark_today now (Some d1) = Ok d2 →
  clients_of d2 !! client_id = clients_of d1 !! client_id ∧
  receipts_of d2 !! now_date now ≫= (.!! client_id) = None.
Proof.
  intros Hpost Hfresh Hgate Hsweep.
  apply txn_add_entry_Ok in Hpost
    as (curr & s & cd & node & stat & [= <-] & Hs & Hcd & Hnode & Hstat
        & Hclosed & Hweek & ->).
  assert (clients_of d !! client_id = Some node) as Hnode'.
  { unfold clients_of. by rewrite Hcd. }
  specialize (Hfresh node Hnode').
  set (posted := {| AllStats := _; ClientData := _; batches := _; _lastBatch := _ |}) in *.
  destruct (batch_mark_today_run_stored now posted d2) as (rec & Hbs & _ & Hcd2 & Hrec);
    [done..|].
  remember (post_outcome amount (now_date now) "paid" node stat).1 as node1 eqn:Hnode1.
  assert (clients_of posted !! client_id = Some node1) as Hposted.
  { unfold clients_of, posted. simpl. by rewrite lookup_insert_eq. }
  assert (sweep_outcome (now_date now) (weekday_map (now_weekday now)) node1 = Skipped)
    as Hskip.
  { apply sweep_outcome_Skipped. right. left.
    exists (week_key (next_week_of (collectionData node))),
           {| Amount := Some amount; date := Some (now_date now);
              entryStatus := Some "paid" |}.
    split; [|done]. rewrite Hnode1. unfold first_today, post_outcome. simpl.
    split; [|apply DictFacts.get_set_eq].
    rewrite DictFacts.set_fresh by apply next_week_fresh.
    rewrite find_today_entry_app by done.
    unfold find_today_entry. simpl. rewrite bool_decide_eq_true_2 by done. simpl.
    done. }
  rewrite Hcd2, Hbs, lookup_insert_eq, Hposted. simpl.
  rewrite Hrec, Hposted. simpl. by rewrite Hskip.
Qed.
End SweepAndPost.

(** ** The properties above on the ledgers of the examples *)

Section Witnesses.
Import Examples Cases.

Lemma sweep_touches_only_the_due_witness :
  ∃ rec,
    receipts_of swept = <[now_date monday := rec]> (receipts_of registered) ∧
    (∀ i, is_Some (clients_of swept !! i) ↔ is_Some (clients_of registered !! i)) ∧
    (∀ i, is_Some (rec !! i) → is_Some (clients_of registered !! i)) ∧
    ∀ i node, clients_of registered !! i = Some node →
      (rec !! i = None ↔
       sweep_skips (now_date monday) (weekday_map (now_weekday monday)) node) ∧
      (rec !! i = None → clients_of swept !! i = Some node).
Proof.
  apply (sweep_touches_only_the_due monday registered swept); vm_compute; reflexivity.
Defined.




Lemma reachable_closed_iff_twenty_witness :
  ∃ stat w,
    Stat (client 1 600 [("week1", paid_entry "2026-11-02")]) = Some stat ∧
    WeeksPaid stat = Some w ∧
    ((Status stat = Some "Active" ∧ 0 ≤ w < 20) ∨
     (Status stat = Some "Closed" ∧ w = 20)).
Proof.
  apply (reachable_closed_iff_twenty swept "P1");
    [by apply swept_reachable|vm_compute; reflexivity].
Defined.

Lemma reachable_sweep_returns_witness :
  ∃ d', batch_mark_today monday (Some registered) = Ok d'.
Proof. apply reachable_sweep_returns. by apply registered_reachable. Defined.

Lemma dashboard_agrees_with_AllStats_witness :
  ∃ t a c up,
    AllStats swept = Some (mkStats (Some t) (Some a) (Some c)) ∧
    0 ≤ up ∧
    get_dashboard (Some "alice") (alice swept) =
      Reply 200 {| Dashboard.TotalLoans := t; Dashboard.ActiveLoans := a;
                   Dashboard.ClosedLoans := c;
                   Dashboard.WeeklyCollection := a * 600;
                   Dashboard.UpComingCollection := up |}.
Proof.
  apply (dashboard_agrees_with_AllStats "alice" (alice swept) swept);
    [done|vm_compute; reflexivity|by apply swept_reachable].
Defined.

Lemma dashboard_counts_are_bounded_witness :
  200 = 200 ∧
  (∃ u d cd, Some "alice" = Some u ∧ u ≠ "" ∧ alice swept !! u = Some d ∧
             ClientData d = Some cd ∧ 1 ≤ Z.of_nat (size cd)) ∧
  0 ≤ 1 ∧ 0 ≤ 0 ∧ 1 + 0 ≤ 1 ∧ 600 = 600 * 1 ∧ 0 ≤ 11400.
Proof.
  apply (dashboard_counts_are_bounded (Some "alice") (alice swept) 200
           {| Dashboard.TotalLoans := 1; Dashboard.ActiveLoans := 1;
              Dashboard.ClosedLoans := 0; Dashboard.WeeklyCollection := 600;
              Dashboard.UpComingCollection := 11400 |}).
  vm_compute. reflexivity.
Defined.

Lemma weekly_counts_the_active_clients_witness :
  ∃ r, get_weekly (Some "alice") (alice swept) = Reply 200 r ∧
       ∀ day, r !! day =
              if bool_decide (day ∈ week_days)
              then Some {| count :=
                             tally (due_on day)
                               {[ "P1" := client 1 600 [("week1", paid_entry "2026-11-02")] ]};
                           amount :=
                             600 * tally (due_on day)
                               {[ "P1" := client 1 600 [("week1", paid_entry "2026-11-02")] ]} |}
              else None.
Proof.
  apply (weekly_counts_the_active_clients "alice" (alice swept) swept);
    [done|vm_compute; reflexivity|reflexivity].
Defined.

Lemma today_lists_the_due_clients_witness :
  ∃ r,
    get_today monday (Some "alice") (alice swept) = Reply 200 r ∧
    Today.date r = now_date monday ∧
    Today.weekday r = weekday_map (now_weekday monday) ∧
    Today.due (Today.summary_of r) = 600 * Z.of_nat (length (Today.customers r)) ∧
    Today.collected (Today.summary_of r) =
      600 * Z.of_nat (length (filter (λ c, Today.status c = "paid") (Today.customers r))) ∧
    Today.due (Today.summary_of r) =
      Today.collected (Today.summary_of r) + Today.pending (Today.summary_of r) ∧
    NoDup (Today.clientId <$> Today.customers r) ∧
    ∀ c, c ∈ Today.customers r ↔
         listed (now_date monday) (weekday_map (now_weekday monday))
                (default ∅ (alice swept !! "alice" ≫= ClientData)) c.
Proof. by apply (today_lists_the_due_clients monday "alice" (alice swept)). Defined.

Lemma today_after_sweep_pending_only_full_witness :
  ∃ node, clients_of full !! "P1" = Some node ∧
          clients_of full_swept !! "P1" = Some node ∧
          over_capacity (now_date monday) node.
Proof.
  refine (today_after_sweep_pending_only_full monday "alice" ∅ full full_swept
            {| Today.date := "2026-11-02"; Today.weekday := "MON";
               Today.summary_of :=
                 {| Today.due := 600; Today.collected := 0; Today.pending := 600 |};
               Today.customers := [Today.mkCustomer "P1" 600 "pending"] |}
            _ _ _ _ (Today.mkCustomer "P1" 600 "pending") _ _);
    try (vm_compute; reflexivity).
  - intros i node Hnode. unfold clients_of, full, one_client in Hnode. simpl in Hnode.
    apply lookup_singleton_Some in Hnode as [_ <-].
    apply (bool_decide_unpack _). vm_compute. reflexivity.
  - simpl. left.
Defined.

Lemma blanks_split_the_user_witness :
  batch_mark_today_store monday "John Doe" john !! "John Doe" = john !! "John Doe" ∧
  undo_last_batch_store "John Doe" john !! "John Doe" = john !! "John Doe" ∧
  batch_mark_today_store monday "John Doe" john !! Py.remove_all " " "John Doe" =
    sweepToday monday (john !! Py.remove_all " " "John Doe") ∧
  (∀ lend_date collection_day,
     add_new_client_store "John Doe" lend_date collection_day john !! "John Doe" =
       addClient lend_date collection_day (john !! "John Doe")) ∧
  get_today monday (Some "John Doe") (batch_mark_today_store monday "John Doe" john) =
    get_today monday (Some "John Doe") john ∧
  get_dashboard (Some "John Doe") (batch_mark_today_store monday "John Doe" john) =
    get_dashboard (Some "John Doe") john.
Proof.
  apply (blanks_split_the_user monday "John Doe" john). vm_compute. intros [=].
Defined.
Lemma sweep_creates_what_postEntry_posts_witness :
  ∃ posted,
    txn_add_entry "P1" 600 (now_date monday) "paid" (Some registered) = Ok posted ∧
    clients_of swept !! "P1" = clients_of posted !! "P1".
Proof.
  apply (sweep_creates_what_postEntry_posts monday registered swept "P1" (client 0 0 [])
           {| ClientName := Some "P1"; CollectionDay := Some "MON";
              LendDate := Some "2026-10-26"; Status := Some "Active";
              TotalAmountPaid := Some 0; WeeksPaid := Some 0 |}
           (mkStats (Some 1) (Some 1) (Some 0)));
    vm_compute; (reflexivity || (intros [=])).
Defined.

Lemma posted_today_is_not_swept_witness :
  clients_of posted_monday_swept !! "P1" = clients_of posted_monday !! "P1" ∧
  receipts_of posted_monday_swept !! now_date monday ≫= (.!! "P1") = None.
Proof.
  apply (posted_today_is_not_swept monday registered posted_monday posted_monday_swept
           "P1" 600); try (vm_compute; reflexivity).
  intros node Hnode. vm_compute in Hnode. injection Hnode as <-. reflexivity.
Defined.
End Witnesses.
